(** * diy-agent: conversation orchestration and tool-execution engine

    A shallow embedding of [src/agent.ts] and of the edit-file part of
    [src/tools.ts], with the properties of the specification proved (or
    refuted) on it.

    Conventions of the embedding.
    - A JavaScript string is a Rocq [string] holding the UTF-8 bytes of the
      text.  Every comparison, search and split of the modelled code is
      against ASCII patterns or whole strings, for which the byte view and
      the UTF-16 view agree.
    - Arrays are lists, indexed with stdpp's lookup [l !! i].
    - The file system is a finite map from resolved paths to contents.
    - Effects (console, standard input, file system, backend calls) are
      threaded explicitly through a [World] record. *)

From Stdlib Require Import String Ascii ZArith Lia Bool.
From Stdlib Require Import DecimalString.
From stdpp Require Import base option list gmap strings.

Set Warnings "-register-all".

Local Open Scope string_scope.
Local Open Scope nat_scope.

(** ** JavaScript string primitives *)

Module JsString.

Definition nl : string := String "010"%char EmptyString.
Definition esc : string := String "027"%char EmptyString.

(** [s.startsWith(p)] *)
Fixpoint startsWith (p s : string) : bool :=
  match p, s with
  | EmptyString, _ => true
  | String a p', String b s' => Ascii.eqb a b && startsWith p' s'
  | String _ _, EmptyString => false
  end.

(** [s.endsWith(p)] *)
Definition endsWith (p s : string) : bool :=
  startsWith (String.rev p) (String.rev s).

Fixpoint dropChars (n : nat) (s : string) : string :=
  match n, s with
  | 0, _ => s
  | S n', String _ s' => dropChars n' s'
  | S _, EmptyString => EmptyString
  end.

Fixpoint takeChars (n : nat) (s : string) : string :=
  match n, s with
  | 0, _ => EmptyString
  | S n', String c s' => String c (takeChars n' s')
  | S _, EmptyString => EmptyString
  end.

(** [s.indexOf(p)]: offset of the first occurrence, [None] for -1. *)
Fixpoint indexOf (p s : string) : option nat :=
  if startsWith p s then Some 0
  else match s with
       | EmptyString => None
       | String _ s' => S <$> indexOf p s'
       end.

(** The scan of [s.split(sep)] for a non-empty separator: [skip] counts
    the separator characters still to be passed over, [cur] is the piece
    being collected. *)
Fixpoint splitGo (sep : string) (skip : nat) (cur : string) (s : string)
  : list string :=
  match s with
  | EmptyString => [cur]
  | String c s' =>
      match skip with
      | S k => splitGo sep k cur s'
      | 0 =>
          if startsWith sep s
          then cur :: splitGo sep (String.length sep - 1) EmptyString s'
          else splitGo sep 0 (cur ++ String c EmptyString) s'
      end
  end.

Fixpoint chars (s : string) : list string :=
  match s with
  | EmptyString => []
  | String c s' => String c EmptyString :: chars s'
  end.

(** [s.split(sep)] *)
Definition split (sep s : string) : list string :=
  match sep with
  | EmptyString => chars s
  | _ => splitGo sep 0 EmptyString s
  end.

(** [parts.join(sep)] *)
Fixpoint join (sep : string) (parts : list string) : string :=
  match parts with
  | [] => EmptyString
  | [p] => p
  | p :: rest => p ++ sep ++ join sep rest
  end.

(** [s.repeat(n)] *)
Fixpoint repeat (s : string) (n : nat) : string :=
  match n with
  | 0 => EmptyString
  | S n' => s ++ repeat s n'
  end.

(** [s.padStart(width, " ")] *)
Definition padStart (width : nat) (s : string) : string :=
  repeat " " (width - String.length s) ++ s.

(** [String(n)] for an integer. *)
Definition ofNat (n : nat) : string :=
  NilEmpty.string_of_uint (Nat.to_uint n).

Definition ofZ (z : Z) : string :=
  match z with
  | Zneg p => "-" ++ ofNat (Pos.to_nat p)
  | _ => ofNat (Z.to_nat z)
  end.

(** The replacement text of [s.replace(pattern, replacement)] for a string
    pattern (ECMAScript GetSubstitution without captures): [$$] is a
    dollar, [$&] the match, [$`] the text before it, [$'] the text after
    it; every other character stands for itself. *)
Fixpoint getSubstitution (matched before after repl : string) : string :=
  match repl with
  | EmptyString => EmptyString
  | String "$" (String "$" r) =>
      "$" ++ getSubstitution matched before after r
  | String "$" (String "&" r) =>
      matched ++ getSubstitution matched before after r
  | String "$" (String "`" r) =>
      before ++ getSubstitution matched before after r
  | String "$" (String "'" r) =>
      after ++ getSubstitution matched before after r
  | String c r => String c (getSubstitution matched before after r)
  end.

(** [s.replace(pattern, replacement)] with a string pattern: the first
    occurrence only. *)
Definition replace (pattern repl s : string) : string :=
  match indexOf pattern s with
  | None => s
  | Some k =>
      let before := takeChars k s in
      let after := dropChars (k + String.length pattern) s in
      before ++ getSubstitution pattern before after repl ++ after
  end.

(** [s.toLowerCase()].  Only the letters A to Z have an ASCII lower-case
    form; bytes of other characters are kept, which is enough to decide
    equality with an ASCII lower-case word. *)
Definition lowerChar (c : ascii) : ascii :=
  let n := nat_of_ascii c in
  if (65 <=? n) && (n <=? 90) then ascii_of_nat (n + 32) else c.

Fixpoint toLowerCase (s : string) : string :=
  match s with
  | EmptyString => EmptyString
  | String c s' => String (lowerChar c) (toLowerCase s')
  end.

(** The white space and line terminators removed by [trim], as UTF-8 byte
    sequences: TAB, LF, VT, FF, CR, SP, U+00A0, U+1680, U+2000 to U+200A,
    U+2028, U+2029, U+202F, U+205F, U+3000 and U+FEFF. *)
Definition bytes (l : list nat) : string :=
  string_of_list_ascii (List.map ascii_of_nat l).

Definition whiteSpace : list string :=
  List.map bytes
    ([ [9]; [10]; [11]; [12]; [13]; [32]; [194; 160]; [225; 154; 128] ]
     ++ List.map (fun k => [226; 128; 128 + k]) (List.seq 0 11)
     ++ [ [226; 128; 168]; [226; 128; 169]; [226; 128; 175];
          [226; 129; 159]; [227; 128; 128]; [239; 187; 191] ]).

(** One leading white-space character removed, if there is one. *)
Definition stripOne (s : string) : option string :=
  (fun w => dropChars (String.length w) s)
    <$> List.find (fun w => startsWith w s) whiteSpace.

Fixpoint trimStartGo (fuel : nat) (s : string) : string :=
  match fuel with
  | 0 => s
  | S f => match stripOne s with
           | Some s' => trimStartGo f s'
           | None => s
           end
  end.

Definition trimStart (s : string) : string :=
  trimStartGo (String.length s) s.

Definition stripOneEnd (s : string) : option string :=
  (fun w => takeChars (String.length s - String.length w) s)
    <$> List.find (fun w => endsWith w s) whiteSpace.

Fixpoint trimEndGo (fuel : nat) (s : string) : string :=
  match fuel with
  | 0 => s
  | S f => match stripOneEnd s with
           | Some s' => trimEndGo f s'
           | None => s
           end
  end.

Definition trimEnd (s : string) : string :=
  trimEndGo (String.length s) s.

(** [s.trim()] *)
Definition trim (s : string) : string := trimEnd (trimStart s).

(** [s.length]: the number of UTF-16 code units of the text. *)
Fixpoint length16 (s : string) : nat :=
  match s with
  | EmptyString => 0
  | String c s' =>
      let n := nat_of_ascii c in
      (if n <? 128 then 1
       else if n <? 192 then 0
       else if n <? 240 then 1
       else 2) + length16 s'
  end.

(** Byte [i] of the text, 0 behind its end. *)
Definition byteAt (i : nat) (s : string) : nat :=
  match String.get i s with
  | Some c => nat_of_ascii c
  | None => 0
  end.

(** A UTF-16 code unit between U+D800 and U+DFFF standing alone, given
    by its low twelve bits [low] (the unit is U+D000 + [low]), in three
    bytes: 237, then two bytes from 128 on that carry six bits each.
    Well-formed text has no such bytes; a slice that cuts a character
    above U+FFFF in two leaves one. *)
Definition loneSurrogate (low : nat) : string :=
  String (ascii_of_nat 237)
    (String (ascii_of_nat (128 + (low / 64) mod 64))
       (String (ascii_of_nat (128 + low mod 64)) EmptyString)).

(** The low twelve bits of the first of the two code units of a
    character above U+FFFF, from the first byte [b0] of its four bytes
    and the bytes after it: U+D800 + ((code point - 65536) / 1024). *)
Definition highSurrogate (b0 : nat) (rest : string) : nat :=
  1984 + (b0 mod 8) * 256 + (byteAt 0 rest mod 64) * 4
  + (byteAt 1 rest mod 64) / 16.

(** [s.slice(0, n)], counted in UTF-16 code units.  When the cut falls
    inside a character above U+FFFF its first code unit is kept. *)
Fixpoint take16 (n : nat) (s : string) : string :=
  match s with
  | EmptyString => EmptyString
  | String c s' =>
      let k := nat_of_ascii c in
      let w := if k <? 128 then 1
               else if k <? 192 then 0
               else if k <? 240 then 1
               else 2 in
      if w <=? n then String c (take16 (n - w) s')
      else if (w =? 2) && (n =? 1) then loneSurrogate (highSurrogate k s')
      else EmptyString
  end.

(** The text as an output stream writes it: a code unit standing alone
    becomes U+FFFD. *)
Fixpoint toUtf8 (s : string) : string :=
  match s with
  | EmptyString => EmptyString
  | String c s' =>
      match s' with
      | String c1 (String c2 s'') =>
          if (nat_of_ascii c =? 237) && (160 <=? nat_of_ascii c1)
          then String (ascii_of_nat 239)
                 (String (ascii_of_nat 191)
                    (String (ascii_of_nat 189) (toUtf8 s'')))
          else String c (toUtf8 s')
      | _ => String c (toUtf8 s')
      end
  end.

End JsString.

(** ** Arrays *)

(** [l.slice(a, b)] for indices inside the array. *)
Definition slice {A} (l : list A) (a b : nat) : list A :=
  take (b - a) (drop a l).

(** The first result of [f] over [l], as a loop that stops at the first
    success. *)
Fixpoint firstSome {A B} (f : A -> option B) (l : list A) : option B :=
  match l with
  | [] => None
  | x :: l' => match f x with
               | Some y => Some y
               | None => firstSome f l'
               end
  end.

(** ** Constants ([src/constants.ts]) *)

Module Constants.
Import JsString.

Definition MAX_TOOL_TURNS : nat := 10.

Record Colours := {
  reset : string; bold : string; dim : string; blue : string;
  cyan : string; green : string; yellow : string; red : string;
  grey : string; bgRed : string; bgGreen : string
}.

Definition COLOURS : Colours := {|
  reset := esc ++ "[0m";
  bold := esc ++ "[1m";
  dim := esc ++ "[2m";
  blue := esc ++ "[94m";
  cyan := esc ++ "[36m";
  green := esc ++ "[32m";
  yellow := esc ++ "[93m";
  red := esc ++ "[31m";
  grey := esc ++ "[90m";
  bgRed := esc ++ "[41m";
  bgGreen := esc ++ "[42m"
|}.

End Constants.

(** ** Diff engine ([generateDiff], [getChangeSnippet] in [src/tools.ts]) *)

Module Diff.
Import JsString Constants.

(** An element of [generateDiff]'s internal [changes] array. *)
Record DiffChange := {
  oldStart : nat;
  oldCount : nat;
  newStart : nat;
  newCount : nat;
  oldChunk : list string;
  newChunk : list string
}.

Section Scan.
Variables oldLines newLines : list string.

(** [a < oldLines.length && b < newLines.length &&
     oldLines[a] === newLines[b]] *)
Definition sameLine (a b : nat) : bool :=
  match oldLines !! a, newLines !! b with
  | Some x, Some y => String.eqb x y
  | _, _ => false
  end.

(** [a < oldLines.length && b < newLines.length &&
     oldLines[a] !== newLines[b]] *)
Definition differentLine (a b : nat) : bool :=
  match oldLines !! a, newLines !! b with
  | Some x, Some y => negb (String.eqb x y)
  | _, _ => false
  end.

(** The confirmation loop [for (k = 1; k < 3 && synced; k++)]. *)
Definition synced (a b : nat) : bool :=
  forallb (fun k => negb (differentLine (a + k) (b + k))) (seq 1 2).

(** The inner loop over [oi] for one [lookAhead]: the first split
    accepted. *)
Definition findSplit (i j lookAhead : nat) : option (nat * nat) :=
  firstSome
    (fun oi =>
       let ni := lookAhead - oi in
       if sameLine (i + oi) (j + ni) && synced (i + oi) (j + ni)
       then Some (oi, ni) else None)
    (seq 0 (S lookAhead)).

(** The loop [for (lookAhead = 1; lookAhead < 50 && !found; ...)]. *)
Definition findSync (i j : nat) : option (nat * nat) :=
  firstSome (findSplit i j) (seq 1 49).

(** The main [while] loop.  [fuel] bounds the number of iterations;
    [None] means the bound was too small. *)
Fixpoint diffLoop (fuel i j : nat) (changes : list DiffChange)
  : option (list DiffChange) :=
  match fuel with
  | 0 => None
  | S fuel' =>
      if (i <? length oldLines) || (j <? length newLines) then
        if sameLine i j then diffLoop fuel' (S i) (S j) changes
        else
          match findSync i j with
          | Some (oi, ni) =>
              diffLoop fuel' (i + oi) (j + ni)
                (changes ++
                   [{| oldStart := i; oldCount := oi;
                       newStart := j; newCount := ni;
                       oldChunk := slice oldLines i (i + oi);
                       newChunk := slice newLines j (j + ni) |}])%list
          | None =>
              Some (changes ++
                      [{| oldStart := i;
                          oldCount := length oldLines - i;
                          newStart := j;
                          newCount := length newLines - j;
                          oldChunk := drop i oldLines;
                          newChunk := drop j newLines |}])%list
          end
      else Some changes
  end.

(** Every iteration moves a cursor forward, so this many iterations
    are enough (see [diffLoop_terminates]). *)
Definition diffFuel : nat := S (length oldLines + length newLines).

Definition computeChanges : option (list DiffChange) :=
  diffLoop diffFuel 0 0 [].

(** *** Rendering *)

Definition rule : string :=
  bold COLOURS ++ grey COLOURS ++ JsString.repeat "─" 80 ++ reset COLOURS.

Definition lineNumber (n : nat) : string := padStart 4 (ofNat n).

(** [`${oldLines[k]}`] *)
Definition lineText (l : list string) (k : nat) : string :=
  default "undefined" (l !! k).

Definition contextRow (k : nat) : string :=
  grey COLOURS ++ lineNumber (k + 1) ++ " │" ++ reset COLOURS
  ++ dim COLOURS ++ "   " ++ lineText oldLines k ++ reset COLOURS.

Definition removedRow (c : DiffChange) (idx : nat) (line : string) : string :=
  grey COLOURS ++ lineNumber (oldStart c + idx + 1) ++ " │" ++ reset COLOURS
  ++ red COLOURS ++ bold COLOURS ++ " - " ++ line ++ reset COLOURS.

Definition addedRow (c : DiffChange) (idx : nat) (line : string) : string :=
  grey COLOURS ++ lineNumber (newStart c + idx + 1) ++ " │" ++ reset COLOURS
  ++ green COLOURS ++ bold COLOURS ++ " + " ++ line ++ reset COLOURS.

Definition renderChange (contextLines : nat) (c : DiffChange) : list string :=
  let ctxBefore := Nat.min contextLines (oldStart c) in
  let ctxAfterOld :=
    Z.min (Z.of_nat contextLines)
      (Z.of_nat (length oldLines) - Z.of_nat (oldStart c + oldCount c)) in
  let ctxAfterNew :=
    Z.min (Z.of_nat contextLines)
      (Z.of_nat (length newLines) - Z.of_nat (newStart c + newCount c)) in
  let blockOldStart := (Z.of_nat (oldStart c) - Z.of_nat ctxBefore + 1)%Z in
  let blockOldLen := (Z.of_nat ctxBefore + Z.of_nat (oldCount c) + ctxAfterOld)%Z in
  let blockNewStart := (Z.of_nat (newStart c) - Z.of_nat ctxBefore + 1)%Z in
  let blockNewLen :=
    (Z.of_nat ctxBefore + Z.of_nat (newCount c)
     + Z.min ctxAfterOld ctxAfterNew)%Z in
  let header :=
    bold COLOURS ++ cyan COLOURS ++ "@@ Lines before & after: "
    ++ ofZ blockOldStart ++ "-" ++ ofZ (blockOldStart + blockOldLen - 1)
    ++ " → "
    ++ ofZ blockNewStart ++ "-" ++ ofZ (blockNewStart + blockNewLen - 1)
    ++ " @@" ++ reset COLOURS in
  ([ header ]
   ++ List.map contextRow (seq (oldStart c - ctxBefore) ctxBefore)
   ++ imap (removedRow c) (oldChunk c)
   ++ imap (addedRow c) (newChunk c)
   ++ List.map contextRow
        (List.filter (fun idx => idx <? length oldLines)
           (seq (oldStart c + oldCount c) (Z.to_nat ctxAfterOld)))
   ++ [ EmptyString ])%list.

Definition render (changes : list DiffChange) (filePath : string)
    (contextLines : nat) : string :=
  let title :=
    bold COLOURS ++ cyan COLOURS ++ " " ++ filePath ++ reset COLOURS in
  join nl
    ([ rule; title; rule; EmptyString ]
     ++ concat (List.map (renderChange contextLines) changes)
     ++ [ rule ])%list.

End Scan.

(** [generateDiff(oldContent, newContent, filePath, contextLines = 3)].
    The last case of the [match] is never taken: the loop ends within its
    bound ([diffLoop_terminates]). *)
Definition generateDiffWith (oldContent newContent filePath : string)
    (contextLines : nat) : string :=
  let oldLines := split nl oldContent in
  let newLines := split nl newContent in
  match computeChanges oldLines newLines with
  | Some [] => "(no changes)"
  | Some changes => render oldLines newLines changes filePath contextLines
  | None => EmptyString
  end.

Definition generateDiff (oldContent newContent filePath : string) : string :=
  generateDiffWith oldContent newContent filePath 3.

(** [formatLineNumbers(lines, startLine)] *)
Definition formatLineNumbers (lines : list string) (startLine : nat) : string :=
  let maxLineNum := (Z.of_nat startLine + Z.of_nat (length lines) - 1)%Z in
  let gutterWidth := String.length (ofZ maxLineNum) in
  join nl
    (imap (fun i line => padStart gutterWidth (ofNat (startLine + i))
                         ++ " | " ++ line)
       lines).

Record ChangeSnippet := {
  start_line : nat;
  end_line : nat;
  snippet : string
}.

(** [getChangeSnippet(content, changedStr, contextLines = 3)] *)
Definition getChangeSnippetWith (content changedStr : string)
    (contextLines : nat) : ChangeSnippet :=
  let lines := split nl content in
  match indexOf changedStr content with
  | None => {| start_line := 1; end_line := 1; snippet := EmptyString |}
  | Some changeStart =>
      let linesBefore := split nl (takeChars changeStart content) in
      let startLine := length linesBefore in
      let changeLines := length (split nl changedStr) in
      let endLine := startLine + changeLines - 1 in
      let snippetStart := startLine - 1 - contextLines in
      let snippetEnd := Nat.min (length lines) (endLine + contextLines) in
      let snippetLines := slice lines snippetStart snippetEnd in
      {| start_line := snippetStart + 1;
         end_line := snippetEnd;
         snippet := formatLineNumbers snippetLines (snippetStart + 1) |}
  end.

Definition getChangeSnippet (content changedStr : string) : ChangeSnippet :=
  getChangeSnippetWith content changedStr 3.

(** [stripAnsiForAgentJson(str)]: drops every [ESC [ ... m] sequence.
    [skipping] is the inner loop looking for the closing [m]. *)
Fixpoint stripAnsi (skipping : bool) (pendingBracket : bool) (s : string) : string :=
  match s with
  | EmptyString => EmptyString
  | String c s' =>
      if pendingBracket then stripAnsi true false s'
      else if skipping then
        if Ascii.eqb c "m" then stripAnsi false false s'
        else stripAnsi true false s'
      else if Ascii.eqb c "027" && startsWith "[" s'
      then stripAnsi false true s'
      else String c (stripAnsi false false s')
  end.

Definition stripAnsiForAgentJson (str : string) : string :=
  stripAnsi false false str.

(** *** Applying a change list

    What the specification means by reconstructing the new text from
    the changes: walk the old lines, copy them up to each change, drop
    the change's old span and put its new lines there.  [pos] is the
    cursor in the old lines, [out] the lines produced so far.  A change
    that does not fit (a span outside the old lines, removed lines other
    than the ones recorded, a wrong position or count on the new side)
    makes the application fail. *)
Fixpoint applyChanges (a : list string) (pos : nat) (out : list string)
    (changes : list DiffChange) : option (list string) :=
  match changes with
  | [] => Some (out ++ drop pos a)%list
  | c :: rest =>
      let out' := (out ++ slice a pos (oldStart c))%list in
      if (pos <=? oldStart c)
         && (oldStart c + oldCount c <=? length a)
         && (length out' =? newStart c)
         && (length (newChunk c) =? newCount c)
         && bool_decide (slice a (oldStart c) (oldStart c + oldCount c) = oldChunk c)
      then applyChanges a (oldStart c + oldCount c) (out' ++ newChunk c)%list rest
      else None
  end.

Definition patch (changes : list DiffChange) (a : list string)
  : option (list string) :=
  applyChanges a 0 [] changes.

End Diff.

(** ** JSON values and [JSON.stringify] *)

Module Json.
Import JsString.

(** Numbers are the integers; the modelled code produces no other. An
    object is the list of its own properties in insertion order. *)
Inductive Json : Type :=
| JNull
| JBool (b : bool)
| JNum (z : Z)
| JStr (s : string)
| JArr (items : list Json)
| JObj (fields : list (string * Json)).

(** [obj[key]] for a key that is not an inherited one, [None] for
    [undefined]. *)
Fixpoint field (key : string) (fields : list (string * Json)) : option Json :=
  match fields with
  | [] => None
  | (k, v) :: rest => if String.eqb k key then Some v else field key rest
  end.

(** The properties every object inherits: the own property names of
    [Object.prototype]. *)
Definition inherited : list string :=
  [ "constructor"; "__defineGetter__"; "__defineSetter__"; "hasOwnProperty";
    "__lookupGetter__"; "__lookupSetter__"; "isPrototypeOf";
    "propertyIsEnumerable"; "toString"; "valueOf"; "__proto__";
    "toLocaleString" ].

(** [key in obj], for an object built by [JSON.parse]: the key is one of
    its own properties or one of the inherited ones. *)
Definition hasField (key : string) (fields : list (string * Json)) : bool :=
  bool_decide (is_Some (field key fields)) || bool_decide (key ∈ inherited).

(** JavaScript truthiness of a value. *)
Definition truthy (j : Json) : bool :=
  match j with
  | JNull => false
  | JBool b => b
  | JNum z => negb (Z.eqb z 0)
  | JStr s => negb (String.eqb s EmptyString)
  | JArr _ | JObj _ => true
  end.

Definition dquote : string := String "034"%char EmptyString.
Definition backslash : string := String "092"%char EmptyString.

Definition hexDigit (n : nat) : string :=
  String (ascii_of_nat (if n <? 10 then 48 + n else 87 + n)) EmptyString.

Definition escapeChar (c : ascii) : string :=
  let n := nat_of_ascii c in
  if n =? 34 then backslash ++ dquote
  else if n =? 92 then backslash ++ backslash
  else if n =? 8 then backslash ++ "b"
  else if n =? 9 then backslash ++ "t"
  else if n =? 10 then backslash ++ "n"
  else if n =? 12 then backslash ++ "f"
  else if n =? 13 then backslash ++ "r"
  else if n <? 32 then backslash ++ "u00" ++ hexDigit (n / 16) ++ hexDigit (n mod 16)
  else String c EmptyString.

(** A code unit standing alone (see [loneSurrogate]) is written as an
    escape, in lower-case hexadecimal. *)
Definition escapeUnit (c1 c2 : ascii) : string :=
  let low := (nat_of_ascii c1 mod 64) * 64 + nat_of_ascii c2 mod 64 in
  backslash ++ "ud" ++ hexDigit (low / 256) ++ hexDigit ((low / 16) mod 16)
  ++ hexDigit (low mod 16).

Fixpoint escape (s : string) : string :=
  match s with
  | EmptyString => EmptyString
  | String c s' =>
      match s' with
      | String c1 (String c2 s'') =>
          if (nat_of_ascii c =? 237) && (160 <=? nat_of_ascii c1)
          then escapeUnit c1 c2 ++ escape s''
          else escapeChar c ++ escape s'
      | _ => escapeChar c ++ escape s'
      end
  end.

Definition quote (s : string) : string := dquote ++ escape s ++ dquote.

(** [JSON.stringify(value)] *)
Fixpoint stringify (j : Json) : string :=
  match j with
  | JNull => "null"
  | JBool true => "true"
  | JBool false => "false"
  | JNum z => ofZ z
  | JStr s => quote s
  | JArr items => "[" ++ join "," (List.map stringify items) ++ "]"
  | JObj fields =>
      "{" ++ join "," (List.map (fun kv => quote (fst kv) ++ ":" ++ stringify (snd kv)) fields)
      ++ "}"
  end.

(** [JSON.stringify(value, null, 2)], [indent] being the current margin. *)
Fixpoint stringifyIndent (indent : string) (j : Json) : string :=
  let inner := indent ++ "  " in
  match j with
  | JArr [] => "[]"
  | JObj [] => "{}"
  | JArr items =>
      "[" ++ nl
      ++ join ("," ++ nl) (List.map (fun v => inner ++ stringifyIndent inner v) items)
      ++ nl ++ indent ++ "]"
  | JObj fields =>
      "{" ++ nl
      ++ join ("," ++ nl)
           (List.map (fun kv => inner ++ quote (fst kv) ++ ": "
                                ++ stringifyIndent inner (snd kv)) fields)
      ++ nl ++ indent ++ "}"
  | _ => stringify j
  end.

Definition stringifyPretty (j : Json) : string := stringifyIndent EmptyString j.

End Json.

(** ** The part of the machine a tool body can touch *)

Module Sys.

(** An error raised by a file-system call. *)
Record FsError := { code : string; message : string }.

Record Sys := {
  files : gmap string string;       (* resolved path -> content *)
  faults : gmap string FsError;     (* paths whose read or write fails *)
  writes : list (string * string);  (* every completed writeFile, in order *)
  console : list string             (* everything printed, in order *)
}.

Definition print (text : string) (s : Sys) : Sys :=
  {| files := files s; faults := faults s; writes := writes s;
     console := (console s ++ [text])%list |}.

(** [console.log(text)] *)
Definition consoleLog (text : string) (s : Sys) : Sys :=
  print (text ++ JsString.nl) s.

(** [fs.access(path)] succeeds. *)
Definition exists_ (path : string) (s : Sys) : bool :=
  bool_decide (is_Some (files s !! path)).

(** [fs.readFile(path, "utf-8")] *)
Definition readFile (path : string) (s : Sys) : FsError + string :=
  match faults s !! path with
  | Some e => inl e
  | None =>
      match files s !! path with
      | Some content => inr content
      | None => inl {| code := "ENOENT"; message := "ENOENT: no such file or directory" |}
      end
  end.

(** [fs.writeFile(path, content, "utf-8")] *)
Definition writeFile (path content : string) (s : Sys) : FsError + Sys :=
  match faults s !! path with
  | Some e => inl e
  | None =>
      inr {| files := <[path := content]> (files s);
             faults := faults s;
             writes := (writes s ++ [(path, content)])%list;
             console := console s |}
  end.

End Sys.

(** ** Tool contract ([ToolDefinition] in [src/tools.ts]) *)

Module Tool.
Import Json Sys.

(** How the promise returned by [execute] settles, and after how many
    milliseconds. *)
Inductive Settlement : Type :=
| Resolves (elapsedMs : N) (value : string)
| Rejects (elapsedMs : N) (message : string)
| NeverSettles.

Record ToolDefinition := {
  name : string;
  required : option (list string);   (* input_schema.required *)
  execute : Json -> Sys -> Settlement * Sys
}.

End Tool.

(** ** The edit_file tool ([EditFileTool] in [src/tools.ts]) *)

Module EditFile.
Import JsString Json Sys Tool Diff.

(** What is outside the source file: path resolution
    ([expandTilde] then [path.resolve] against the working directory),
    the time a call takes, and what JavaScript's coercions make of an
    input whose fields do not have the types the schema declares. *)
Record Env := {
  resolvePath : string -> string;
  elapsedMs : N;
  offSchema : Json -> Sys -> Settlement * Sys
}.

(** The local constants read from [input] at the top of [execute]. *)
Record Input := {
  inputPath : string;
  oldStr : option string;
  newStr : string;
  mode : string;
  confirm : bool
}.

(** [input.path as string], [input.new_str as string],
    [input.old_str as string | undefined],
    [(input.mode as string) || "replace"],
    [(input.confirm as boolean) || false]; [None] when a field present in
    the input is not of the declared type. *)
Definition decode (input : Json) : option Input :=
  match input with
  | JObj fields =>
      match field "path" fields, field "new_str" fields with
      | Some (JStr p), Some (JStr n) =>
          let confirmed :=
            match field "confirm" fields with
            | Some v => truthy v
            | None => false
            end in
          match
            match field "old_str" fields with
            | None | Some JNull => Some None
            | Some (JStr o) => Some (Some o)
            | Some _ => None
            end,
            match field "mode" fields with
            | None => Some "replace"
            | Some (JStr m) =>
                Some (if String.eqb m EmptyString then "replace" else m)
            | Some v => if truthy v then None else Some "replace"
            end
          with
          | Some o, Some m =>
              Some {| inputPath := p; oldStr := o; newStr := n;
                      mode := m; confirm := confirmed |}
          | _, _ => None
          end
      | _, _ => None
      end
  | _ => None
  end.

Definition validModes : list string :=
  ["replace"; "insert_before"; "insert_after"; "append"].

Definition errorResult (text : string) : string :=
  stringify (JObj [("error", JStr text)]).

(** The [catch] clause of [execute]. *)
Definition caught (inp : Input) (e : FsError) : string :=
  if String.eqb (code e) "EPERM" || String.eqb (code e) "EACCES" then
    errorResult ("Permission denied writing to '" ++ inputPath inp ++ "'.")
  else
    errorResult ("Could not edit file '" ++ inputPath inp ++ "'. "
                 ++ (if String.eqb (message e) EmptyString then "Error"
                     else message e)).

(** [oldStr] is truthy. *)
Definition given (o : option string) : option string :=
  match o with
  | Some s => if String.eqb s EmptyString then None else Some s
  | None => None
  end.

Definition changedText (inp : Input) (old : string) : string :=
  if String.eqb (mode inp) "replace" then newStr inp
  else if String.eqb (mode inp) "insert_before" then newStr inp ++ nl ++ old
  else old ++ nl ++ newStr inp.

Definition locationOf (sn : ChangeSnippet) : Json :=
  JObj [("start_line", JNum (Z.of_nat (start_line sn)));
        ("end_line", JNum (Z.of_nat (end_line sn)))].

(** The body of [execute] inside its [try], the file being absent. *)
Definition createFile (inp : Input) (filePath : string) (s : Sys) : string * Sys :=
  if bool_decide (is_Some (given (oldStr inp))) || String.eqb (mode inp) "append" then
    (errorResult ("File '" ++ inputPath inp
                  ++ "' not found. Cannot edit a file that doesn't exist. Use use_bash (e.g. find or ls) to check available files."),
     s)
  else if negb (confirm inp) then
    (stringify
       (JObj [("preview", JBool true);
              ("action", JStr "create");
              ("path", JStr filePath);
              ("lines", JNum (Z.of_nat (length (split nl (newStr inp)))));
              ("content_preview",
               JStr (if 500 <? length16 (newStr inp)
                     then take16 500 (newStr inp) ++ nl ++ "... [truncated]"
                     else newStr inp));
              ("message", JStr "Set 'confirm: true' to create this file.")]),
     s)
  else
    match writeFile filePath (newStr inp) s with
    | inl e => (caught inp e, s)
    | inr s' =>
        (stringify
           (JObj [("success", JBool true);
                  ("action", JStr "created");
                  ("path", JStr filePath);
                  ("lines", JNum (Z.of_nat (length (split nl (newStr inp)))))]),
         s')
    end.

(** Append mode. *)
Definition appendFile (inp : Input) (filePath content : string) (s : Sys)
  : string * Sys :=
  let separator := if endsWith nl content then EmptyString else nl in
  let newContent := content ++ separator ++ newStr inp in
  if negb (confirm inp) then
    let diff := generateDiff content newContent (inputPath inp) in
    (stringify
       (JObj [("preview", JBool true);
              ("action", JStr "append");
              ("path", JStr filePath);
              ("diff", JStr (stripAnsiForAgentJson diff));
              ("message", JStr "Set 'confirm: true' to write these changes.")]),
     consoleLog (nl ++ diff ++ nl) s)
  else
    match writeFile filePath newContent s with
    | inl e => (caught inp e, s)
    | inr s' =>
        (stringify
           (JObj [("success", JBool true);
                  ("action", JStr "appended");
                  ("path", JStr filePath);
                  ("lines_added", JNum (Z.of_nat (length (split nl (newStr inp)))));
                  ("new_total_lines", JNum (Z.of_nat (length (split nl newContent))))]),
         s')
    end.

(** Replace and insert modes, [old] being the non-empty [old_str]. *)
Definition rewriteFile (inp : Input) (filePath content old : string) (s : Sys)
  : string * Sys :=
  let occurrences := length (split old content) - 1 in
  if occurrences =? 0 then
    (errorResult ("String not found in '" ++ inputPath inp
                  ++ "'. Use read_file (with show_line_numbers and/or search) to check the current file contents and copy the exact text."),
     s)
  else if 1 <? occurrences then
    (errorResult ("Found " ++ ofNat occurrences ++ " occurrences of old_str in '"
                  ++ inputPath inp
                  ++ "'. Include more surrounding context in old_str to match exactly one location."),
     s)
  else
    let '(newContent, actionLabel) :=
      if String.eqb (mode inp) "insert_before" then
        (replace old (newStr inp ++ nl ++ old) content, "inserted_before")
      else if String.eqb (mode inp) "insert_after" then
        (replace old (old ++ nl ++ newStr inp) content, "inserted_after")
      else
        (replace old (newStr inp) content, "replaced") in
    if negb (confirm inp) then
      let diff := generateDiff content newContent (inputPath inp) in
      let sn := getChangeSnippet newContent (changedText inp old) in
      (stringify
         (JObj [("preview", JBool true);
                ("action", JStr actionLabel);
                ("path", JStr filePath);
                ("diff", JStr (stripAnsiForAgentJson diff));
                ("change_location", locationOf sn);
                ("message", JStr "Set 'confirm: true' to write these changes.")]),
       consoleLog (nl ++ diff ++ nl) s)
    else
      match writeFile filePath newContent s with
      | inl e => (caught inp e, s)
      | inr s' =>
          let sn := getChangeSnippet newContent (changedText inp old) in
          (stringifyPretty
             (JObj [("success", JBool true);
                    ("action", JStr actionLabel);
                    ("path", JStr filePath);
                    ("change_location", locationOf sn);
                    ("snippet", JStr (snippet sn))]),
           s')
      end.

(** [execute] on an input of the declared types: the text the returned
    promise resolves with, and the machine afterwards. *)
Definition run (env : Env) (inp : Input) (s : Sys) : string * Sys :=
  let filePath := resolvePath env (inputPath inp) in
  if negb (bool_decide (mode inp ∈ validModes)) then
    (errorResult ("Invalid mode '" ++ mode inp ++ "'. Must be one of: "
                  ++ join ", " validModes), s)
  else if String.eqb (mode inp) "replace"
          && bool_decide (oldStr inp = Some (newStr inp)) then
    (errorResult "'old_str' and 'new_str' must be different in replace mode.", s)
  else if negb (exists_ filePath s) then createFile inp filePath s
  else
    match readFile filePath s with
    | inl e => (caught inp e, s)
    | inr content =>
        if String.eqb (mode inp) "append" then appendFile inp filePath content s
        else
          match given (oldStr inp) with
          | None =>
              (errorResult "'old_str' is required for replace, insert_before, and insert_after modes. To see the current contents, use read_file first.",
               s)
          | Some old => rewriteFile inp filePath content old s
          end
    end.

Definition execute (env : Env) (input : Json) (s : Sys) : Settlement * Sys :=
  match decode input with
  | Some inp =>
      let '(text, s') := run env inp s in (Resolves (elapsedMs env) text, s')
  | None => offSchema env input s
  end.

Definition EditFileTool (env : Env) : ToolDefinition :=
  {| Tool.name := "edit_file";
     Tool.required := Some ["path"; "new_str"];
     Tool.execute := execute env |}.

End EditFile.

(** ** The agent ([src/agent.ts]) *)

Module Agent.
Import JsString Json Sys Tool Constants.

(** *** Messages *)

Record ToolUse := { id : string; name : string; input : Json }.

Record ToolResult := {
  tool_use_id : string;
  content : string;
  is_error : option bool      (* [None]: the property is not set *)
}.

Inductive Block : Type :=
| TextBlock (text : string)
| ToolUseBlock (use : ToolUse)
| ToolResultBlock (result : ToolResult)
| OtherBlock (type : string).

Inductive Role : Type := user | assistant.

Inductive Content : Type :=
| Plain (text : string)
| Blocks (blocks : list Block).

Record Message := { role : Role; body : Content }.

Record Response := { blocks : list Block; stop_reason : option string }.

(** *** The agent and the machine it runs on *)

(** [client.messages.create] is an oracle: the answer to the n-th request
    of the run, given the messages sent. *)
Record Agent := {
  backend : nat -> list Message -> Response;
  tools : list ToolDefinition
}.

(** [stdin] holds the lines [getUserMessage] will deliver, then end of
    input.  The last three fields are observations added to the model:
    the number of backend requests made, the batches handed to
    [executeTools], and the requests whose [execute] was called. *)
Record State := {
  sys : Sys;
  stdin : list string;
  requests : nat;
  dispatched : list (list ToolUse);
  executed : list ToolUse
}.

Definition onSys (f : Sys -> Sys) (st : State) : State :=
  {| sys := f (sys st); stdin := stdin st; requests := requests st;
     dispatched := dispatched st; executed := executed st |}.

Definition write (text : string) : State -> State := onSys (print text).
Definition log (text : string) : State -> State := onSys (consoleLog text).

(** [await this.getUserMessage()], as a caller sees it that makes one
    call at a time while lines are to come: it is handed the next line
    of [stdin], and [null] behind the last.  The reader the repository
    passes in, with what it does to two calls pending at once or to a
    call made after the input has ended, is [InputHandler]; a batch of
    tool requests run with that reader is [Batch]. *)
Definition getUserMessage (st : State) : option string * State :=
  match stdin st with
  | [] => (None, st)
  | line :: rest =>
      (Some line,
       {| sys := sys st; stdin := rest; requests := requests st;
          dispatched := dispatched st; executed := executed st |})
  end.

(** *** [validateInput]: the message of the error thrown, if any *)
Definition validateInput (input : Json) (required : option (list string))
  : option string :=
  match input with
  | JObj fields =>
      match required with
      | Some names =>
          let missing := List.filter (fun f => negb (hasField f fields)) names in
          if 0 <? length missing
          then Some ("Missing required fields: " ++ join ", " missing)
          else None
      | None => None
      end
  | _ => Some "Input must be a valid object"
  end.

(** *** [executeTools] *)

Definition TIMEOUT_MS : N := 30000.
Definition timeoutMessage : string := "Tool execution timed out after 30s".

(** [Promise.race([executionPromise, timeoutPromise])]: the value
    awaited ([inr]) or the message of the error thrown ([inl]).
    [execute] is called before the timer is set, so a settlement that
    falls on the same millisecond as the timer comes first. *)
Definition race (outcome : Settlement) : string + string :=
  match outcome with
  | Resolves t value =>
      if (t <=? TIMEOUT_MS)%N then inr value else inl timeoutMessage
  | Rejects t msg =>
      if (t <=? TIMEOUT_MS)%N then inl msg else inl timeoutMessage
  | NeverSettles => inl timeoutMessage
  end.

(** The condition guarding the approval prompt. *)
Definition needsApproval (toolUse : ToolUse) : bool :=
  String.eqb (name toolUse) "edit_file"
  && match input toolUse with
     | JObj fields =>
         match field "confirm" fields with
         | Some (JBool true) => true
         | _ => false
         end
     | _ => false
     end.

(** The negation of the test
    [approval?.trim().toLowerCase() !== "yes" && ... !== "y"]. *)
Definition approves (approval : option string) : bool :=
  match approval with
  | None => false
  | Some line =>
      let answer := toLowerCase (trim line) in
      negb (negb (String.eqb answer "yes") && negb (String.eqb answer "y"))
  end.

Definition cancelled : string :=
  stringify (JObj [("error", JStr "Edit cancelled by user. The changes were not made.")]).

Definition errorOf (toolUse : ToolUse) (msg : string) : ToolResult :=
  {| tool_use_id := id toolUse; content := msg; is_error := Some true |}.

Definition markExecuted (toolUse : ToolUse) (st : State) : State :=
  {| sys := sys st; stdin := stdin st; requests := requests st;
     dispatched := dispatched st;
     executed := (executed st ++ [toolUse])%list |}.

Definition markDispatched (toolUseBlocks : list ToolUse) (st : State) : State :=
  {| sys := sys st; stdin := stdin st; requests := requests st;
     dispatched := (dispatched st ++ [toolUseBlocks])%list;
     executed := executed st |}.

(** From the call of [toolDef.execute] to the end of the callback. *)
Definition invoke (toolDef : ToolDefinition) (toolUse : ToolUse) (st : State)
  : ToolResult * State :=
  let '(outcome, s') := execute toolDef (input toolUse) (sys st) in
  let st' := markExecuted toolUse (onSys (fun _ => s') st) in
  match race outcome with
  | inr result =>
      let logResult :=
        if 100 <? length16 result
        then take16 100 result ++ "... (truncated)" else result in
      ({| tool_use_id := id toolUse; content := result; is_error := None |},
       log (green COLOURS ++ "[Tool use result: " ++ toUtf8 logResult ++ "]"
            ++ reset COLOURS) st')
  | inl errorMessage =>
      (errorOf toolUse errorMessage,
       log (red COLOURS ++ "[Error: " ++ errorMessage ++ "]" ++ reset COLOURS) st')
  end.

(** The callback mapped over [toolUseBlocks]. *)
Definition executeTool (agent : Agent) (toolUse : ToolUse) (st : State)
  : ToolResult * State :=
  let st := log (nl ++ cyan COLOURS ++ "[Tool Use: " ++ name toolUse ++ "]"
                 ++ reset COLOURS) st in
  let st :=
    match input toolUse with
    | JObj (_ :: _) => log ("Input: " ++ stringifyPretty (input toolUse)) st
    | _ => st
    end in
  match List.find (fun t => String.eqb (Tool.name t) (name toolUse)) (tools agent) with
  | None =>
      (errorOf toolUse ("Error: Tool " ++ name toolUse ++ " not found"),
       log (red COLOURS ++ "[Error: Tool " ++ name toolUse ++ " not found]"
            ++ reset COLOURS) st)
  | Some toolDef =>
      match validateInput (input toolUse) (required toolDef) with
      | Some errorMessage =>
          (errorOf toolUse errorMessage,
           log (red COLOURS ++ "[Error: " ++ errorMessage ++ "]" ++ reset COLOURS) st)
      | None =>
          if needsApproval toolUse then
            let st := write (nl ++ yellow COLOURS
                             ++ "⚠️  Do you approve these changes? (yes/no): "
                             ++ reset COLOURS) st in
            let '(approval, st) := getUserMessage st in
            if approves approval then
              invoke toolDef toolUse
                (log (green COLOURS ++ "[User approved - proceeding with edit]"
                      ++ reset COLOURS) st)
            else
              (errorOf toolUse cancelled,
               log (red COLOURS ++ "[Edit cancelled by user]" ++ reset COLOURS) st)
          else invoke toolDef toolUse st
      end
  end.

(** [Promise.all(toolUseBlocks.map(...))].  The callbacks run
    concurrently in the source; here one runs after the other, in the
    order of the array, each on the machine the previous one left.  For
    a batch in which no request comes to the approval prompt this is
    what [Batch.executeTools] gives ([BatchProps.no_prompt_agrees]); a
    batch in which several do is not covered by it (see [Batch]). *)
Fixpoint executeAll (agent : Agent) (toolUseBlocks : list ToolUse) (st : State)
  : list ToolResult * State :=
  match toolUseBlocks with
  | [] => ([], st)
  | toolUse :: rest =>
      let '(result, st1) := executeTool agent toolUse st in
      let '(results, st2) := executeAll agent rest st1 in
      (result :: results, st2)
  end.

Definition executeTools (agent : Agent) (toolUseBlocks : list ToolUse) (st : State)
  : list ToolResult * State :=
  let '(results, st) :=
    executeAll agent toolUseBlocks (markDispatched toolUseBlocks st) in
  (results, log EmptyString st).

(** *** [runInference] *)

(** [currentContent.filter(block => block.type === "tool_use")] *)
Definition toolUsesOf (content : list Block) : list ToolUse :=
  omap (fun b => match b with ToolUseBlock u => Some u | _ => None end) content.

Definition create (agent : Agent) (conversation : list Message) (st : State)
  : Response * State :=
  (backend agent (requests st) conversation,
   {| sys := sys st; stdin := stdin st; requests := S (requests st);
      dispatched := dispatched st; executed := executed st |}).

Definition turnLimitNotice : string :=
  nl ++ red COLOURS ++ "[Stopping: exceeded " ++ ofNat MAX_TOOL_TURNS
  ++ " tool turns]" ++ reset COLOURS.

Definition printText (content : list Block) (st : State) : State :=
  fold_left
    (fun st b => match b with TextBlock text => write text st | _ => st end)
    content st.

(** The [while (continueLoop)] loop; the result is [currentContent], the
    conversation array after the pushes, and the machine.  [None]: the
    iteration bound [fuel] was too small. *)
Fixpoint inferenceLoop (agent : Agent) (fuel toolTurns : nat)
    (conversation : list Message) (st : State)
  : option (list Block * list Message * State) :=
  match fuel with
  | 0 => None
  | S fuel' =>
      let '(response, st) := create agent conversation st in
      let currentContent := blocks response in
      let toolUseBlocks := toolUsesOf currentContent in
      if (0 <? length toolUseBlocks)
         && bool_decide (stop_reason response = Some "tool_use") then
        let toolTurns := S toolTurns in
        if MAX_TOOL_TURNS <? toolTurns then
          Some (currentContent, conversation, log turnLimitNotice st)
        else
          let '(toolResults, st) := executeTools agent toolUseBlocks st in
          inferenceLoop agent fuel' toolTurns
            (conversation
             ++ [ {| role := assistant; body := Blocks currentContent |};
                  {| role := user;
                     body := Blocks (List.map ToolResultBlock toolResults) |} ])%list
            st
      else Some (currentContent, conversation, printText currentContent st)
  end.

(** The counter stops the loop at the latest on its eleventh round (see
    [runInference_returns]). *)
Definition runInference (agent : Agent) (conversation : list Message) (st : State)
  : option (list Block * list Message * State) :=
  inferenceLoop agent (S MAX_TOOL_TURNS) 0 conversation st.

(** *** [run] *)

(** [msg.role === "user" && typeof msg.content === "string"] *)
Definition isPlainUser (msg : Message) : bool :=
  match role msg, body msg with
  | user, Plain _ => true
  | _, _ => false
  end.

(** The [while (sliceIndex < conversation.length)] loop, [rest] being the
    messages from [sliceIndex] on. *)
Fixpoint walkForward (sliceIndex : nat) (rest : list Message) : nat :=
  match rest with
  | [] => sliceIndex
  | msg :: rest' =>
      if isPlainUser msg then sliceIndex else walkForward (S sliceIndex) rest'
  end.

(** The history-bounding step after the push of the user message. *)
Definition boundHistory (conversation : list Message) : list Message :=
  if 50 <? length conversation then
    let sliceIndex := length conversation - 50 in
    drop (walkForward sliceIndex (drop sliceIndex conversation)) conversation
  else conversation.

(** [conversation.push(userMessage)] *)
Definition pushUserMessage (conversation : list Message) (userInput : string)
  : list Message :=
  (conversation ++ [ {| role := user; body := Plain userInput |} ])%list.

(** The [while (true)] loop of [run]: the conversation and the machine
    when the loop is left.  [None]: the iteration bound was too small. *)
Fixpoint runLoop (agent : Agent) (fuel : nat) (conversation : list Message)
    (st : State) : option (list Message * State) :=
  match fuel with
  | 0 => None
  | S fuel' =>
      let st := write (blue COLOURS ++ "You" ++ reset COLOURS ++ ": ") st in
      let '(userInput, st) := getUserMessage st in
      match userInput with
      | None => Some (conversation, st)
      | Some userInput =>
          let trimmedInput := trim userInput in
          if String.eqb trimmedInput EmptyString then
            runLoop agent fuel' conversation st
          else if String.eqb (toLowerCase trimmedInput) "exit"
                  || String.eqb (toLowerCase trimmedInput) "quit" then
            Some (conversation, st)
          else
            let conversation :=
              boundHistory (pushUserMessage conversation userInput) in
            let st := write (yellow COLOURS ++ "Claude" ++ reset COLOURS ++ ": ") st in
            match runInference agent conversation st with
            | None => None
            | Some (assistantMessage, conversation, st) =>
                let st := log EmptyString st in
                runLoop agent fuel'
                  (conversation
                   ++ [ {| role := assistant; body := Blocks assistantMessage |} ])%list
                  st
            end
      end
  end.

(** [run] up to the end of its loop; the saving of the transcript that
    follows and the signal handlers are left out.  Every round reads a
    line, so one round more than there are lines is enough
    ([run_returns]). *)
Definition run (agent : Agent) (st : State) : option (list Message * State) :=
  let st := log "Chat with Claude (type 'exit' or 'quit' to stop)" st in
  runLoop agent (S (length (stdin st))) [] st.

End Agent.

(** * The read_file tool ([ReadFileTool] in [src/tools.ts]) *)

Module ReadFile.
Import JsString Json Sys Tool Diff.

Definition BINARY_CHECK_BUFFER_SIZE : N := 8192.

(** The loop of [isBinaryBuffer], [i] being its counter and [bytes] the
    buffer from index [i] on. *)
Fixpoint nullByteFrom (checkLength i : N) (bytes : string) : bool :=
  match bytes with
  | EmptyString => false
  | String c rest =>
      if (i <? checkLength)%N then
        if Ascii.eqb c "000" then true
        else nullByteFrom checkLength (i + 1)%N rest
      else false
  end.

(** [isBinaryBuffer(buffer)] *)
Definition isBinaryBuffer (buffer : string) : bool :=
  let checkLength :=
    N.min (N.of_nat (String.length buffer)) BINARY_CHECK_BUFFER_SIZE in
  nullByteFrom checkLength 0 buffer.

(** [array.slice(a, b)] for any integers: a negative index counts from
    the end. *)
Definition sliceZ {A} (l : list A) (a b : Z) : list A :=
  let len := Z.of_nat (length l) in
  let from := if (a <? 0)%Z then Z.max (len + a) 0 else Z.min a len in
  let to := if (b <? 0)%Z then Z.max (len + b) 0 else Z.min b len in
  take (Z.to_nat (to - from)) (drop (Z.to_nat from) l).

(** What is outside the source file: path resolution, the time a call
    takes, [detectLanguage] (two tables of [src/constants.ts] looked up
    by [path.extname] and [path.basename]), the lower-casing of arbitrary
    text, and what the coercions of JavaScript make of an input whose
    fields do not have the declared types. *)
Record Env := {
  resolvePath : string -> string;
  elapsedMs : N;
  detectLanguage : string -> option string;
  lower : string -> string;
  offSchema : Json -> Sys -> Settlement * Sys
}.

(** The local constants read from [input] at the top of [execute]. *)
Record Input := {
  inputPath : string;
  maxLines : Z;
  offset : Z;
  showLineNumbers : bool;
  searchQuery : option string;
  contextLines : Z
}.

(** [(input.max_lines as number) || 1000] and the like; [None] when a
    field present in the input is not of the declared type. *)
Definition decode (input : Json) : option Input :=
  match input with
  | JObj fields =>
      match field "path" fields with
      | Some (JStr p) =>
          match
            match field "max_lines" fields with
            | None => Some 1000%Z
            | Some (JNum z) => Some (if (z =? 0)%Z then 1000%Z else z)
            | Some v => if truthy v then None else Some 1000%Z
            end,
            match field "offset" fields with
            | None => Some 1%Z
            | Some (JNum z) => Some (Z.max 1 (if (z =? 0)%Z then 1 else z))
            | Some v => if truthy v then None else Some 1%Z
            end,
            match field "search" fields with
            | None | Some JNull => Some None
            | Some (JStr q) => Some (Some q)
            | Some _ => None
            end,
            match field "context_lines" fields with
            | None | Some JNull => Some 3%Z
            | Some (JNum z) => Some z
            | Some _ => None
            end
          with
          | Some m, Some o, Some q, Some c =>
              Some {| inputPath := p; maxLines := m; offset := o;
                      showLineNumbers :=
                        match field "show_line_numbers" fields with
                        | Some v => truthy v
                        | None => false
                        end;
                      searchQuery := q; contextLines := c |}
          | _, _, _, _ => None
          end
      | _ => None
      end
  | _ => None
  end.

(** [...(language && { language })] *)
Definition languageField (language : option string) : list (string * Json) :=
  match language with
  | Some l => if String.eqb l EmptyString then [] else [("language", JStr l)]
  | None => []
  end.

(** The [catch] clause of [execute]. *)
Definition caught (inp : Input) (e : FsError) : string :=
  if String.eqb (code e) "ENOENT" then
    "Error: File '" ++ inputPath inp
    ++ "' not found. Use use_bash (e.g. find or ls) to discover available files."
  else if String.eqb (code e) "EPERM" || String.eqb (code e) "EACCES" then
    "Error: Permission denied reading '" ++ inputPath inp ++ "'."
  else
    "Error: Could not read file '" ++ inputPath inp ++ "'. "
    ++ (if String.eqb (message e) EmptyString then "Error" else message e).

(** *** Search mode *)

Record Range := { first : Z; last_ : Z }.   (* [{ start, end }] *)

(** The indices of the lines that hold the query. *)
Definition matchingLineIndices (env : Env) (allLines : list string)
    (searchQuery : string) : list nat :=
  let lowerQuery := lower env searchQuery in
  List.filter
    (fun i => match allLines !! i with
              | Some line => bool_decide (is_Some (indexOf lowerQuery (lower env line)))
              | None => false
              end)
    (seq 0 (length allLines)).

(** One round of the loop that builds [ranges]. *)
Definition addRange (contextLines total : Z) (ranges : list Range) (idx : nat)
  : list Range :=
  let start := Z.max 0 (Z.of_nat idx - contextLines) in
  let end_ := Z.min (total - 1) (Z.of_nat idx + contextLines) in
  match last ranges with
  | Some r =>
      if (start <=? last_ r + 1)%Z
      then <[pred (length ranges) := {| first := first r; last_ := end_ |}]> ranges
      else (ranges ++ [ {| first := start; last_ := end_ |} ])%list
  | None => [ {| first := start; last_ := end_ |} ]
  end.

Definition buildRanges (contextLines total : Z) (indices : list nat) : list Range :=
  fold_left (addRange contextLines total) indices [].

(** The loop that builds [sections]; it stops at the first range that
    takes the output past [maxLines].  The result also carries
    [outputLineCount]. *)
Fixpoint buildSections (inp : Input) (allLines : list string)
    (outputLineCount : Z) (ranges : list Range) : list string * Z :=
  match ranges with
  | [] => ([], outputLineCount)
  | range :: rest =>
      let rangeLines := sliceZ allLines (first range) (last_ range + 1) in
      let outputLineCount := (outputLineCount + Z.of_nat (length rangeLines))%Z in
      if (maxLines inp <? outputLineCount)%Z then ([], outputLineCount)
      else
        let section :=
          if showLineNumbers inp
          then formatLineNumbers rangeLines (Z.to_nat (first range + 1))
          else join nl rangeLines in
        let '(sections, count) := buildSections inp allLines outputLineCount rest in
        (section :: sections, count)
  end.

Definition search (env : Env) (inp : Input) (filePath content query : string)
  : string :=
  let allLines := split nl content in
  let totalLines := Z.of_nat (length allLines) in
  let language := detectLanguage env filePath in
  let indices := matchingLineIndices env allLines query in
  match indices with
  | [] =>
      stringify
        (JObj ([("path", JStr filePath); ("total_lines", JNum totalLines)]
               ++ languageField language
               ++ [("search", JStr query); ("matches", JNum 0);
                   ("content", JStr "(no matches found)")])%list)
  | _ =>
      let ranges := buildRanges (contextLines inp) totalLines indices in
      let sections := fst (buildSections inp allLines 0 ranges) in
      stringifyPretty
        (JObj ([("path", JStr filePath); ("total_lines", JNum totalLines);
                ("size_bytes", JNum (Z.of_nat (String.length content)))]
               ++ languageField language
               ++ [("search", JStr query);
                   ("matches", JNum (Z.of_nat (length indices)));
                   ("match_lines",
                    JArr (List.map (fun i => JNum (Z.of_nat i + 1)) indices));
                   ("content", JStr (join (nl ++ "---" ++ nl) sections))])%list)
  end.

(** *** Normal read mode *)

Definition slicedLines (inp : Input) (allLines : list string) : list string :=
  let startIndex := (offset inp - 1)%Z in
  sliceZ allLines startIndex (startIndex + maxLines inp).

Definition truncated (inp : Input) (allLines : list string) : bool :=
  (offset inp - 1 + maxLines inp <? Z.of_nat (length allLines))%Z.

Definition outputContent (inp : Input) (allLines : list string) : string :=
  if showLineNumbers inp
  then formatLineNumbers (slicedLines inp allLines) (Z.to_nat (offset inp))
  else join nl (slicedLines inp allLines).

Definition readNormal (env : Env) (inp : Input) (filePath content : string)
  : string :=
  let allLines := split nl content in
  let totalLines := Z.of_nat (length allLines) in
  stringifyPretty
    (JObj ([("path", JStr filePath); ("total_lines", JNum totalLines);
            ("size_bytes", JNum (Z.of_nat (String.length content)))]
           ++ languageField (detectLanguage env filePath)
           ++ [("showing_lines",
                JStr (ofZ (offset inp) ++ "-"
                      ++ ofZ (Z.min (offset inp
                                     + Z.of_nat (length (slicedLines inp allLines)) - 1)
                                totalLines)));
               ("truncated", JBool (truncated inp allLines));
               ("content", JStr (outputContent inp allLines))])%list).

(** [execute] on an input of the declared types.  Every path of the file
    system is a file here, so the test [stats.isFile()] holds; a file
    holds valid UTF-8, so decoding the buffer leaves its bytes as they
    are. *)
Definition run (env : Env) (inp : Input) (s : Sys) : string :=
  let filePath := resolvePath env (inputPath inp) in
  match readFile filePath s with
  | inl e => caught inp e
  | inr content =>
      if isBinaryBuffer content then
        stringify
          (JObj [("error",
                  JStr ("File '" ++ inputPath inp
                        ++ "' appears to be binary. Use use_bash (e.g. file, xxd, hexdump) to inspect binary files."));
                 ("path", JStr filePath);
                 ("size_bytes", JNum (Z.of_nat (String.length content)))])
      else
        match searchQuery inp with
        | Some (String c q) => search env inp filePath content (String c q)
        | _ => readNormal env inp filePath content
        end
  end.

Definition execute (env : Env) (input : Json) (s : Sys) : Settlement * Sys :=
  match decode input with
  | Some inp => (Resolves (elapsedMs env) (run env inp s), s)
  | None => offSchema env input s
  end.

Definition ReadFileTool (env : Env) : ToolDefinition :=
  {| Tool.name := "read_file";
     Tool.required := Some ["path"];
     Tool.execute := execute env |}.

End ReadFile.

(** * The line reader ([createGetUserMessage]) *)

Module InputHandler.

(** The closure of [createGetUserMessage]: the buffer [lines] and the
    stored resolver [resolvePromise].  Promises are numbered in the order
    they are created; [settlements] lists every call of a resolver, in
    order, with the promise it belongs to and the value passed ([None]
    for [null]).  A promise takes the value of its first settlement. *)
Record Handler := {
  lines : list string;
  resolvePromise : option nat;
  promises : nat;
  settlements : list (nat * option string)
}.

Definition initial : Handler :=
  {| lines := []; resolvePromise := None; promises := 0; settlements := [] |}.

(** [rl.on("line", ...)] *)
Definition onLine (line : string) (h : Handler) : Handler :=
  match resolvePromise h with
  | Some p =>
      {| lines := lines h; resolvePromise := None; promises := promises h;
         settlements := (settlements h ++ [(p, Some line)])%list |}
  | None =>
      {| lines := (lines h ++ [line])%list; resolvePromise := None;
         promises := promises h; settlements := settlements h |}
  end.

(** [rl.on("close", ...)] *)
Definition onClose (h : Handler) : Handler :=
  match resolvePromise h with
  | Some p =>
      {| lines := lines h; resolvePromise := Some p; promises := promises h;
         settlements := (settlements h ++ [(p, None)])%list |}
  | None => h
  end.

(** The function returned: the promise it hands out and the closure
    afterwards.  [Promise.resolve(lines.shift())] is a promise settled at
    once. *)
Definition getUserMessage (h : Handler) : nat * Handler :=
  let p := promises h in
  match lines h with
  | line :: rest =>
      (p, {| lines := rest; resolvePromise := resolvePromise h;
             promises := S p;
             settlements := (settlements h ++ [(p, Some line)])%list |})
  | [] =>
      (p, {| lines := []; resolvePromise := Some p; promises := S p;
             settlements := settlements h |})
  end.

(** The value promise [p] has taken: [None] while it is pending,
    [Some None] for [null], [Some (Some line)] for a line. *)
Definition valueOf (p : nat) (h : Handler) : option (option string) :=
  snd <$> List.find (fun e => fst e =? p) (settlements h).

(** What happens to the reader: a line arrives, the stream closes, or the
    agent calls the function. *)
Inductive Event : Type :=
| Line (line : string)
| Close
| Call.

Definition step (h : Handler) (e : Event) : Handler :=
  match e with
  | Line line => onLine line h
  | Close => onClose h
  | Call => snd (getUserMessage h)
  end.

Definition run (events : list Event) (h : Handler) : Handler :=
  fold_left step events h.

Definition isCall (e : Event) : bool :=
  match e with Call => true | _ => false end.

(** A stream closes at most once and sends nothing afterwards. *)
Fixpoint wellFormed (events : list Event) : bool :=
  match events with
  | [] => true
  | Close :: rest => forallb isCall rest
  | _ :: rest => wellFormed rest
  end.

(** The lines the stream has sent. *)
Definition linesOf (events : list Event) : list string :=
  omap (fun e => match e with Line line => Some line | _ => None end) events.

(** The lines handed to callers, in the order of the settlements. *)
Definition handedOut (h : Handler) : list string :=
  omap snd (settlements h).

End InputHandler.

(** * A batch of tool requests as it runs ([executeTools] with the line
      reader) *)

Module Batch.
Import JsString Json Sys Tool Constants Agent.

(** How far a callback of [toolUseBlocks.map(async toolUse => ...)] has
    come: it has returned its result, or it is suspended at
    [await this.getUserMessage()] on the promise the reader handed
    out. *)
Inductive Callback : Type :=
| Returned (result : ToolResult)
| AwaitsApproval (promise : nat) (toolDef : ToolDefinition) (toolUse : ToolUse).

(** The reader of [createGetUserMessage], the machine, and the callbacks
    in the order of the requests.  The lines come through the reader;
    the [stdin] of the machine is not used. *)
Record Progress := {
  reader : InputHandler.Handler;
  machine : State;
  callbacks : list Callback
}.

(** The part of a callback that [map] runs at once, up to its first
    [await].  A request that needs approval prints the prompt, calls the
    reader's function and is suspended on the promise.  A request that
    does not is taken to its result here: its [execute] is called at
    this point, and when it settles, or the timer fires, does not depend
    on the reader. *)
Definition start (agent : Agent) (b : Progress) (toolUse : ToolUse) : Progress :=
  let st := log (nl ++ cyan COLOURS ++ "[Tool Use: " ++ name toolUse ++ "]"
                 ++ reset COLOURS) (machine b) in
  let st :=
    match input toolUse with
    | JObj (_ :: _) => log ("Input: " ++ stringifyPretty (input toolUse)) st
    | _ => st
    end in
  match List.find (fun t => String.eqb (Tool.name t) (name toolUse)) (tools agent) with
  | None =>
      {| reader := reader b;
         machine := log (red COLOURS ++ "[Error: Tool " ++ name toolUse
                         ++ " not found]" ++ reset COLOURS) st;
         callbacks :=
           (callbacks b
            ++ [Returned (errorOf toolUse
                            ("Error: Tool " ++ name toolUse ++ " not found"))])%list |}
  | Some toolDef =>
      match validateInput (input toolUse) (required toolDef) with
      | Some errorMessage =>
          {| reader := reader b;
             machine := log (red COLOURS ++ "[Error: " ++ errorMessage ++ "]"
                             ++ reset COLOURS) st;
             callbacks :=
               (callbacks b ++ [Returned (errorOf toolUse errorMessage)])%list |}
      | None =>
          if needsApproval toolUse then
            let st := write (nl ++ yellow COLOURS
                             ++ "⚠️  Do you approve these changes? (yes/no): "
                             ++ reset COLOURS) st in
            let '(promise, h) := InputHandler.getUserMessage (reader b) in
            {| reader := h; machine := st;
               callbacks :=
                 (callbacks b ++ [AwaitsApproval promise toolDef toolUse])%list |}
          else
            let '(result, st) := invoke toolDef toolUse st in
            {| reader := reader b; machine := st;
               callbacks := (callbacks b ++ [Returned result])%list |}
      end
  end.

(** The rest of a callback suspended at the prompt, run once its promise
    has a value; a callback whose promise is pending stays where it
    is. *)
Definition resume (h : InputHandler.Handler) (c : Callback) (st : State)
  : Callback * State :=
  match c with
  | Returned _ => (c, st)
  | AwaitsApproval promise toolDef toolUse =>
      match InputHandler.valueOf promise h with
      | None => (c, st)
      | Some approval =>
          if approves approval then
            let '(result, st) :=
              invoke toolDef toolUse
                (log (green COLOURS ++ "[User approved - proceeding with edit]"
                      ++ reset COLOURS) st) in
            (Returned result, st)
          else
            (Returned (errorOf toolUse cancelled),
             log (red COLOURS ++ "[Edit cancelled by user]" ++ reset COLOURS) st)
      end
  end.

Fixpoint resumeAll (h : InputHandler.Handler) (cs : list Callback) (st : State)
  : list Callback * State :=
  match cs with
  | [] => ([], st)
  | c :: rest =>
      let '(c', st) := resume h c st in
      let '(rest', st) := resumeAll h rest st in
      (c' :: rest', st)
  end.

(** The callbacks whose promise has a value go on. *)
Definition settle (b : Progress) : Progress :=
  let '(cs, st) := resumeAll (reader b) (callbacks b) (machine b) in
  {| reader := reader b; machine := st; callbacks := cs |}.

(** What the input stream does while the batch is under way. *)
Inductive Arrival : Type :=
| Typed (line : string)
| EndOfInput.

Definition arrive (b : Progress) (a : Arrival) : Progress :=
  settle {| reader := match a with
                      | Typed line => InputHandler.onLine line (reader b)
                      | EndOfInput => InputHandler.onClose (reader b)
                      end;
            machine := machine b; callbacks := callbacks b |}.

(** What [Promise.all] resolves with, once every callback has returned;
    [None] while one of them is suspended. *)
Definition results (b : Progress) : option (list ToolResult) :=
  mapM (fun c => match c with
                 | Returned result => Some result
                 | AwaitsApproval _ _ _ => None
                 end) (callbacks b).

(** [executeTools(toolUseBlocks)] called with the reader in state [h],
    and what has become of it after the [arrivals]: the results it has
    returned ([None]: it has not returned), and the batch. *)
Definition executeTools (agent : Agent) (toolUseBlocks : list ToolUse)
    (arrivals : list Arrival) (h : InputHandler.Handler) (st : State)
  : option (list ToolResult) * Progress :=
  let b := fold_left (start agent) toolUseBlocks
             {| reader := h; machine := markDispatched toolUseBlocks st;
                callbacks := [] |} in
  let b := fold_left arrive arrivals (settle b) in
  match results b with
  | Some toolResults =>
      (Some toolResults,
       {| reader := reader b; machine := log EmptyString (machine b);
          callbacks := callbacks b |})
  | None => (None, b)
  end.

End Batch.

Module InputNotions.
Import InputHandler.

(** The numbers are strictly increasing and at least [lo]. *)
Fixpoint increasingFrom (lo : nat) (ids : list nat) : Prop :=
  match ids with
  | [] => True
  | i :: rest => lo <= i /\ increasingFrom (S i) rest
  end.

Definition ids (h : Handler) : list nat := List.map fst (settlements h).

(** Promise numbers in use are below the counter. *)
Definition fresh (h : Handler) : Prop :=
  Forall (fun i => i < promises h) (ids h) /\
  forall p, resolvePromise h = Some p -> p < promises h.

(** Before the stream closes: settlements are in the order of the
    promises, and a stored resolver belongs to the newest promise, which
    is pending, the buffer being empty. *)
Definition open (h : Handler) : Prop :=
  increasingFrom 0 (ids h) /\
  Forall (fun i => i < promises h) (ids h) /\
  forall p, resolvePromise h = Some p ->
            lines h = [] /\ S p = promises h /\ p ∉ ids h.

(** After it has closed. *)
Definition closed (h : Handler) : Prop :=
  increasingFrom 0 (ids h) /\
  Forall (fun i => i < promises h) (ids h) /\
  (resolvePromise h <> None -> lines h = []).

End InputNotions.

Module ReadNotions.
Import JsString ReadFile.

(** No two ranges touch or overlap: between a range and the next, at
    least one line is left out. *)
Definition apart (ranges : list Range) : Prop :=
  forall i r r',
    ranges !! i = Some r -> ranges !! S i = Some r' ->
    (last_ r + 1 < first r')%Z.

(** The range lies inside a text of [total] lines and is not empty. *)
Definition inside (total : Z) (r : Range) : Prop :=
  (0 <= first r /\ first r <= last_ r /\ last_ r <= total - 1)%Z.

(** Line [idx] is within one of the ranges. *)
Definition covered (ranges : list Range) (idx : nat) : Prop :=
  exists r, r ∈ ranges /\ (first r <= Z.of_nat idx <= last_ r)%Z.

(** The number of lines the ranges take from the text. *)
Definition linesOfRanges (allLines : list string) (ranges : list Range) : Z :=
  foldr (fun r n =>
           (Z.of_nat (length (sliceZ allLines (first r) (last_ r + 1))) + n)%Z)
        0%Z ranges.

(** Byte [i] of the buffer is zero. *)
Definition nullAt (buffer : string) (i : nat) : Prop :=
  String.get i buffer = Some "000"%char.

End ReadNotions.

(** * Notions used in the statements *)

Module Notions.
Import JsString Json Sys Tool Agent.

(** Message [k] of the conversation is a user message with plain string
    content. *)
Definition isBoundary (conversation : list Message) (k : nat) : Prop :=
  exists msg, conversation !! k = Some msg /\ isPlainUser msg = true.

(** [k] is the first boundary at or after [from]. *)
Definition earliestBoundary (conversation : list Message) (from k : nat) : Prop :=
  from <= k /\ isBoundary conversation k /\
  forall k', from <= k' < k -> ~ isBoundary conversation k'.

(** The tool the supervisor resolves for a request. *)
Definition resolved (agent : Agent) (toolUse : ToolUse) : option ToolDefinition :=
  List.find (fun t => String.eqb (Tool.name t) (name toolUse)) (tools agent).

(** The result the callback builds from the settlement of [execute]. *)
Definition settled (toolUse : ToolUse) (outcome : Settlement) : ToolResult :=
  match race outcome with
  | inr value => {| tool_use_id := id toolUse; content := value; is_error := None |}
  | inl msg => errorOf toolUse msg
  end.

(** Two machines with the same files, faults and write log. *)
Definition sameDisk (s1 s2 : Sys) : Prop :=
  files s1 = files s2 /\ faults s1 = faults s2 /\ writes s1 = writes s2.

(** The line the operator typed answers yes. *)
Definition answersYes (approval : option string) : Prop :=
  exists line,
    approval = Some line /\
    (toLowerCase (trim line) = "yes" \/ toLowerCase (trim line) = "y").

(** The response carries tool-use blocks and the stop reason [tool_use]:
    the condition of the branch that counts a tool turn. *)
Definition wantsTools (response : Response) : bool :=
  (0 <? length (toolUsesOf (blocks response)))
  && bool_decide (stop_reason response = Some "tool_use").

(** The backend asks for tools on [n] requests in a row, starting with
    request number [from], whatever is sent to it. *)
Definition asksForTools (agent : Agent) (from n : nat) : Prop :=
  forall k conversation,
    k < n -> wantsTools (backend agent (from + k) conversation) = true.

(** An assistant message whose content has a tool-use block. *)
Definition hasToolUse (msg : Message) : bool :=
  match role msg, body msg with
  | assistant, Blocks content => 0 <? length (toolUsesOf content)
  | _, _ => false
  end.

(** [msg] is a user message made of tool-result blocks only, one for
    each of [uses], in order. *)
Definition answers (uses : list ToolUse) (msg : Message) : bool :=
  match role msg, body msg with
  | user, Blocks content =>
      match mapM (fun b => match b with
                           | ToolResultBlock r => Some (tool_use_id r)
                           | _ => None
                           end) content with
      | Some ids => bool_decide (ids = List.map id uses)
      | None => false
      end
  | _, _ => false
  end.

(** The pairing invariant of the data model: every assistant message
    with tool-use blocks is directly followed by the user message with
    their results. *)
Fixpoint paired (conversation : list Message) : bool :=
  match conversation with
  | [] => true
  | msg :: rest =>
      (if hasToolUse msg then
         match body msg, rest with
         | Blocks content, next :: _ => answers (toolUsesOf content) next
         | _, _ => false
         end
       else true)
      && paired rest
  end.

(** [content.split(oldStr).length - 1] *)
Definition occurrences (old content : string) : nat :=
  length (split old content) - 1.

(** The error text of an edit whose [old_str] does not occur exactly
    once. *)
Definition rejection (inp : EditFile.Input) (old content : string) : string :=
  if String.eqb (EditFile.mode inp) "replace"
     && bool_decide (EditFile.oldStr inp = Some (EditFile.newStr inp)) then
    "'old_str' and 'new_str' must be different in replace mode."
  else if occurrences old content =? 0 then
    "String not found in '" ++ EditFile.inputPath inp
    ++ "'. Use read_file (with show_line_numbers and/or search) to check the current file contents and copy the exact text."
  else
    "Found " ++ ofNat (occurrences old content) ++ " occurrences of old_str in '"
    ++ EditFile.inputPath inp
    ++ "'. Include more surrounding context in old_str to match exactly one location.".

End Notions.

Module BatchNotions.
Import Json Tool Agent Notions.

(** The callback of the request comes to the approval prompt: the tool is
    registered, the input passes [validateInput], and the request is an
    [edit_file] with [confirm] set to [true]. *)
Definition reachesPrompt (agent : Agent) (toolUse : ToolUse) : Prop :=
  exists toolDef,
    resolved agent toolUse = Some toolDef /\
    validateInput (input toolUse) (required toolDef) = None /\
    needsApproval toolUse = true.

(** Callback [i] of the batch is suspended on promise [p]. *)
Definition suspendedOn (b : Batch.Progress) (i p : nat) : Prop :=
  exists toolDef toolUse,
    Batch.callbacks b !! i = Some (Batch.AwaitsApproval p toolDef toolUse).

(** Promise [p] has been handed out, has no value, and its resolver is
    not the one the reader holds. *)
Definition abandoned (p : nat) (h : InputHandler.Handler) : Prop :=
  InputNotions.fresh h /\ p < InputHandler.promises h /\
  InputHandler.resolvePromise h <> Some p /\ p ∉ InputNotions.ids h.

End BatchNotions.

(** * Concrete data for the examples *)

Module Examples.
Import JsString Json Sys Tool Agent EditFile.

Definition abc : string := "a" ++ nl ++ "b" ++ nl ++ "c" ++ nl.
Definition aBc : string := "a" ++ nl ++ "B" ++ nl ++ "c" ++ nl.

Definition env0 : Env :=
  {| resolvePath := fun p => p;
     elapsedMs := 5;
     offSchema := fun _ s => (Rejects 0 "TypeError", s) |}.

Definition disk0 : Sys :=
  {| files := {[ "/w/f.txt" := abc ]}; faults := ∅; writes := []; console := [] |}.

Definition editInput (old : string) (confirmed : bool) : Json :=
  JObj ([("path", JStr "/w/f.txt"); ("old_str", JStr old); ("new_str", JStr "B")]
        ++ (if confirmed then [("confirm", JBool true)] else []))%list.

Definition editUse (old : string) (confirmed : bool) : ToolUse :=
  {| id := "toolu_1"; name := "edit_file"; input := editInput old confirmed |}.

Definition finalAnswer : Response :=
  {| blocks := [TextBlock "done"]; stop_reason := Some "end_turn" |}.

Definition editAgent : Agent :=
  {| backend := fun _ _ => finalAnswer; tools := [EditFileTool env0] |}.

Definition state0 (lines : list string) : State :=
  {| sys := disk0; stdin := lines; requests := 0; dispatched := []; executed := [] |}.

Definition slowTool : ToolDefinition :=
  {| Tool.name := "slow"; Tool.required := None;
     Tool.execute := fun _ s => (NeverSettles, s) |}.

Definition fastTool : ToolDefinition :=
  {| Tool.name := "fast"; Tool.required := None;
     Tool.execute := fun _ s => (Resolves 5 "ok", s) |}.

Definition slowUse : ToolUse := {| id := "toolu_slow"; name := "slow"; input := JObj [] |}.
Definition fastUse : ToolUse := {| id := "toolu_fast"; name := "fast"; input := JObj [] |}.

(** A backend that asks for a tool on every request. *)
Definition moreTools : Response :=
  {| blocks := [ToolUseBlock fastUse]; stop_reason := Some "tool_use" |}.

Definition batchAgent : Agent :=
  {| backend := fun _ _ => moreTools; tools := [slowTool; fastTool] |}.

Definition assistantNote : Message := {| role := assistant; body := Plain "ok" |}.

(** The diff of [abc] against [aBc] as the preview reports it. *)
Definition plainRule : string := JsString.repeat "─" 80.

Definition expectedDiff : string :=
  join nl
    [ plainRule; " /w/f.txt"; plainRule; EmptyString;
      "@@ Lines before & after: 1-4 → 1-4 @@";
      "   1 │   a";
      "   2 │ - b";
      "   2 │ + B";
      "   3 │   c";
      "   4 │   ";
      EmptyString;
      plainRule ].

End Examples.

(** * Further notions *)

Module MoreNotions.
Import JsString Json Sys Tool Agent Notions.

(** The conversation is empty or starts with a user message of plain
    string content. *)
Definition startsPlain (conversation : list Message) : Prop :=
  conversation = [] \/
  exists text rest, conversation = {| role := user; body := Plain text |} :: rest.

(** The messages come in pairs: an assistant message with tool-use blocks,
    then the user message with the results that answer them. *)
Fixpoint pairsOnly (messages : list Message) : bool :=
  match messages with
  | [] => true
  | request :: reply :: rest =>
      hasToolUse request
      && match body request with
         | Blocks content => answers (toolUsesOf content) reply
         | Plain _ => false
         end
      && pairsOnly rest
  | [_] => false
  end.

(** The line ends the chat: [exit] or [quit], in any case, white space
    around it ignored. *)
Definition isExit (line : string) : bool :=
  String.eqb (toLowerCase (trim line)) "exit"
  || String.eqb (toLowerCase (trim line)) "quit".

(** The line is empty once trimmed. *)
Definition isBlank (line : string) : bool :=
  String.eqb (trim line) EmptyString.

(** The text has no dollar sign, the one character [replace] treats
    specially in a replacement. *)
Fixpoint dollarFree (text : string) : bool :=
  match text with
  | EmptyString => true
  | String c rest => negb (Ascii.eqb c "$") && dollarFree rest
  end.

(** The character does not occur in the text. *)
Fixpoint lacks (c : ascii) (text : string) : bool :=
  match text with
  | EmptyString => true
  | String x rest => negb (Ascii.eqb x c) && lacks c rest
  end.

(** What every change of a change list satisfies: it is not empty, it
    starts where the two texts differ (or where one of them has ended),
    its spans lie inside the texts, and its chunks are the lines of its
    spans: [oldChunk] the [oldCount] old lines from [oldStart] on,
    [newChunk] the [newCount] new lines from [newStart] on. *)
Definition soundChange (oldLines newLines : list string) (c : Diff.DiffChange) : Prop :=
  1 <= Diff.oldCount c + Diff.newCount c /\
  Diff.sameLine oldLines newLines (Diff.oldStart c) (Diff.newStart c) = false /\
  Diff.oldStart c + Diff.oldCount c <= length oldLines /\
  Diff.newStart c + Diff.newCount c <= length newLines /\
  Diff.oldChunk c = take (Diff.oldCount c) (drop (Diff.oldStart c) oldLines) /\
  Diff.newChunk c = take (Diff.newCount c) (drop (Diff.newStart c) newLines).

(** The changes account for every difference from the cursors [i] and
    [j] on.  The next change starts the same number [run] of lines after
    both cursors, [run] being at least [gap], and these [run] lines are
    the same in both texts; the chain goes on behind the change with a
    gap of at least one line.  Behind the last change what is left of the
    two texts is the same. *)
Fixpoint chainFrom (oldLines newLines : list string) (gap i j : nat)
    (changes : list Diff.DiffChange) : Prop :=
  match changes with
  | [] => drop i oldLines = drop j newLines
  | c :: rest =>
      exists run,
        gap <= run /\
        Diff.oldStart c = i + run /\ Diff.newStart c = j + run /\
        take run (drop i oldLines) = take run (drop j newLines) /\
        chainFrom oldLines newLines 1
          (Diff.oldStart c + Diff.oldCount c)
          (Diff.newStart c + Diff.newCount c) rest
  end.

(** The number of line feeds in the text. *)
Fixpoint lineFeeds (text : string) : nat :=
  match text with
  | EmptyString => 0
  | String c rest => (if Ascii.eqb c "010" then 1 else 0) + lineFeeds rest
  end.

End MoreNotions.

(** * Properties *)

(** ** The diff engine *)

Module DiffProps.
Import JsString Diff.

Lemma slice_all {A} (l : list A) (a b : nat) :
  length l <= b -> slice l a b = drop a l.
Proof.
  intros Hb. unfold slice. apply take_ge. rewrite length_drop. lia.
Qed.

Lemma slice_snoc {A} (l : list A) (a b : nat) (x : A) :
  a <= b -> l !! b = Some x -> slice l a (S b) = (slice l a b ++ [x])%list.
Proof.
  intros Hab Hx. unfold slice.
  replace (S b - a) with (S (b - a)) by lia.
  erewrite take_S_r; [done|].
  rewrite lookup_drop. by replace (a + (b - a)) with b by lia.
Qed.

Lemma take_slice {A} (l : list A) (a b : nat) :
  a <= b -> (take a l ++ slice l a b)%list = take b l.
Proof.
  intros Hab. unfold slice.
  replace b with (a + (b - a)) at 2 by lia.
  apply take_take_drop.
Qed.

Lemma length_slice {A} (l : list A) (a b : nat) :
  b <= length l -> length (slice l a b) = b - a.
Proof. intros Hb. unfold slice. rewrite length_take, length_drop. lia. Qed.

Lemma firstSome_Some {A B} (f : A -> option B) (l : list A) (y : B) :
  firstSome f l = Some y -> exists x, In x l /\ f x = Some y.
Proof.
  induction l as [|x l IH]; simpl; [done|].
  destruct (f x) eqn:Hfx.
  - intros [= <-]. eauto.
  - intros H. destruct (IH H) as (x' & Hin & Hx'). eauto.
Qed.

Section Loop.
Variables oldLines newLines : list string.

Lemma sameLine_lookup (a b : nat) :
  sameLine oldLines newLines a b = true ->
  exists x, oldLines !! a = Some x /\ newLines !! b = Some x.
Proof.
  unfold sameLine.
  destruct (oldLines !! a) as [x|], (newLines !! b) as [y|]; try done.
  intros ->%String.eqb_eq. eauto.
Qed.

(** An accepted resynchronisation point is a pair of equal lines, at
    least one line further on. *)
Lemma findSync_spec (i j oi ni : nat) :
  findSync oldLines newLines i j = Some (oi, ni) ->
  1 <= oi + ni /\ sameLine oldLines newLines (i + oi) (j + ni) = true.
Proof.
  unfold findSync. intros H.
  apply firstSome_Some in H as (la & Hla & H).
  apply in_seq in Hla.
  unfold findSplit in H.
  apply firstSome_Some in H as (oi' & Hoi & H).
  apply in_seq in Hoi.
  destruct (sameLine _ _ _ _ && _) eqn:Hs; [|done].
  injection H as <- <-.
  apply andb_prop in Hs as [Hs _]. split; [lia|done].
Qed.

(** The loop stops within the iteration bound. *)
Lemma diffLoop_enough (fuel i j : nat) (changes : list DiffChange) :
  i <= length oldLines -> j <= length newLines ->
  (length oldLines - i) + (length newLines - j) < fuel ->
  is_Some (diffLoop oldLines newLines fuel i j changes).
Proof.
  revert i j changes.
  induction fuel as [|fuel IH]; intros i j changes Hi Hj Hf; [lia|].
  simpl.
  destruct ((i <? length oldLines) || (j <? length newLines)) eqn:Hgo; [|done].
  destruct (sameLine oldLines newLines i j) eqn:Hsame.
  - apply sameLine_lookup in Hsame as (x & Hx & Hy).
    apply lookup_lt_Some in Hx, Hy. apply IH; lia.
  - destruct (findSync oldLines newLines i j) as [[oi ni]|] eqn:Hsync; [|done].
    apply findSync_spec in Hsync as [Hpos Hs].
    apply sameLine_lookup in Hs as (x & Hx & Hy).
    apply lookup_lt_Some in Hx, Hy. apply IH; lia.
Qed.

Lemma diffLoop_terminates :
  is_Some (computeChanges oldLines newLines).
Proof.
  unfold computeChanges, diffFuel. apply diffLoop_enough; lia.
Qed.

(** The invariant of the loop: with the cursors at [i] and [j], the
    changes still to be emitted turn the rest of the old lines into
    the rest of the new ones. *)
Lemma diffLoop_patch (fuel i j : nat) (changes result : list DiffChange) :
  i <= length oldLines -> j <= length newLines ->
  diffLoop oldLines newLines fuel i j changes = Some result ->
  exists todo,
    result = (changes ++ todo)%list /\
    forall pos out,
      pos <= i ->
      (out ++ slice oldLines pos i)%list = take j newLines ->
      applyChanges oldLines pos out todo = Some newLines.
Proof.
  revert i j changes.
  induction fuel as [|fuel IH]; intros i j changes Hi Hj; [done|].
  simpl.
  destruct ((i <? length oldLines) || (j <? length newLines)) eqn:Hgo.
  - destruct (sameLine oldLines newLines i j) eqn:Hsame.
    + apply sameLine_lookup in Hsame as (x & Hx & Hy).
      pose proof (lookup_lt_Some _ _ _ Hx). pose proof (lookup_lt_Some _ _ _ Hy).
      intros Hres. apply IH in Hres as (todo & -> & Htodo); [|lia..].
      exists todo. split; [done|]. intros pos out Hpos Hout.
      apply Htodo; [lia|].
      rewrite (slice_snoc _ _ _ x) by (done || lia).
      rewrite (take_S_r _ _ x) by done.
      by rewrite app_assoc, Hout.
    + destruct (findSync oldLines newLines i j) as [[oi ni]|] eqn:Hsync.
      * apply findSync_spec in Hsync as [_ Hs].
        apply sameLine_lookup in Hs as (x & Hx & Hy).
        pose proof (lookup_lt_Some _ _ _ Hx). pose proof (lookup_lt_Some _ _ _ Hy).
        intros Hres. apply IH in Hres as (todo & -> & Htodo); [|lia..].
        eexists (_ :: todo). split; [by rewrite <- app_assoc|].
        intros pos out Hpos Hout. cbn [applyChanges oldStart oldCount newStart newCount oldChunk newChunk].
        rewrite Hout.
        rewrite length_take, length_slice by lia.
        rewrite bool_decide_eq_true_2 by done.
        replace (pos <=? i) with true by (symmetry; apply Nat.leb_le; lia).
        replace (i + oi <=? length oldLines) with true
          by (symmetry; apply Nat.leb_le; lia).
        replace (j `min` length newLines =? j) with true
          by (symmetry; apply Nat.eqb_eq; lia).
        replace (j + ni - j =? ni) with true
          by (symmetry; apply Nat.eqb_eq; lia).
        simpl. apply Htodo; [lia|].
        unfold slice at 2. rewrite Nat.sub_diag, take_0, app_nil_r.
        apply take_slice. lia.
      * intros [= <-]. eexists [_]. split; [done|].
        intros pos out Hpos Hout. cbn [applyChanges oldStart oldCount newStart newCount oldChunk newChunk].
        rewrite Hout.
        rewrite length_take, length_drop.
        rewrite bool_decide_eq_true_2 by (apply slice_all; lia).
        replace (pos <=? i) with true by (symmetry; apply Nat.leb_le; lia).
        replace (i + (length oldLines - i) <=? length oldLines) with true
          by (symmetry; apply Nat.leb_le; lia).
        replace (j `min` length newLines =? j) with true
          by (symmetry; apply Nat.eqb_eq; lia).
        rewrite Nat.eqb_refl. simpl.
        rewrite take_drop.
        rewrite drop_ge by lia. by rewrite app_nil_r.
  - intros [= <-]. exists []. split; [by rewrite app_nil_r|].
    apply orb_false_elim in Hgo as [Hi' Hj'].
    apply Nat.ltb_ge in Hi', Hj'.
    intros pos out Hpos Hout. simpl.
    rewrite slice_all in Hout by lia. rewrite Hout.
    apply f_equal, take_ge. lia.
Qed.

Lemma computeChanges_patch (changes : list DiffChange) :
  computeChanges oldLines newLines = Some changes ->
  patch changes oldLines = Some newLines.
Proof.
  intros H. apply diffLoop_patch in H as (todo & -> & Htodo); [|lia..].
  apply Htodo; [lia|]. done.
Qed.

End Loop.

(** Equal line sequences are walked to the end without a change. *)
Lemma diffLoop_same (lines : list string) (fuel i : nat) (changes : list DiffChange) :
  length lines - i < fuel ->
  diffLoop lines lines fuel i i changes = Some changes.
Proof.
  revert i. induction fuel as [|fuel IH]; intros i Hf; [lia|].
  simpl. destruct (i <? length lines) eqn:Hi.
  - apply Nat.ltb_lt in Hi. simpl.
    destruct (lookup_lt_is_Some_2 lines i Hi) as [x Hx].
    unfold sameLine. rewrite Hx, String.eqb_refl. apply IH. lia.
  - done.
Qed.

Lemma computeChanges_same (lines : list string) :
  computeChanges lines lines = Some [].
Proof. unfold computeChanges, diffFuel. apply diffLoop_same. lia. Qed.

(** C1. For all texts A and B the change list computed by [generateDiff]
    exists (the scan ends) and rebuilds B's lines from A's: applying the
    changes in order, each deleting its span of old lines and inserting
    its new lines, gives exactly the lines of B.  Diffing a text against
    itself gives the empty change list, which [generateDiff] renders as
    the marker [(no changes)]. *)
Theorem C1_diff_reconstructs_new_text (A B filePath : string) :
  (exists changes,
      computeChanges (split nl A) (split nl B) = Some changes /\
      patch changes (split nl A) = Some (split nl B)) /\
  computeChanges (split nl A) (split nl A) = Some [] /\
  generateDiff A A filePath = "(no changes)".
Proof.
  split; [|split].
  - destruct (diffLoop_terminates (split nl A) (split nl B)) as [changes H].
    exists changes. split; [done|]. by apply computeChanges_patch.
  - apply computeChanges_same.
  - unfold generateDiff, generateDiffWith. by rewrite computeChanges_same.
Qed.

End DiffProps.

(** ** History bounding *)

Module HistoryProps.
Import Agent Notions.

(** Where the forward walk stops: on the first plain user message, or
    behind the last message when there is none. *)
Lemma walkForward_spec (rest : list Message) (sliceIndex : nat) :
  let k := walkForward sliceIndex rest in
  sliceIndex <= k <= sliceIndex + length rest /\
  (forall d msg, sliceIndex + d < k -> rest !! d = Some msg -> isPlainUser msg = false) /\
  (k < sliceIndex + length rest ->
   exists msg, rest !! (k - sliceIndex) = Some msg /\ isPlainUser msg = true).
Proof.
  revert sliceIndex. induction rest as [|m rest IH]; intros sliceIndex; simpl.
  - repeat split; try lia; intros; lia.
  - destruct (isPlainUser m) eqn:Hm.
    + split; [lia|]. split.
      * intros; lia.
      * intros _. exists m. by rewrite Nat.sub_diag.
    + destruct (IH (S sliceIndex)) as (Hrange & Hbefore & Hat).
      split; [lia|]. split.
      * intros [|d] msg Hd; simpl.
        -- by intros [= <-].
        -- apply Hbefore. lia.
      * intros Hlt. destruct Hat as (msg & Hmsg & Hp); [lia|].
        exists msg. split; [|done].
        replace (walkForward (S sliceIndex) rest - sliceIndex)
          with (S (walkForward (S sliceIndex) rest - S sliceIndex)) by lia.
        done.
Qed.

Section Step.
Variable conversation : list Message.
Hypothesis Hlong : 50 < length conversation.

Let from := length conversation - 50.
Let stop := walkForward from (drop from conversation).

Lemma boundHistory_stop : boundHistory conversation = drop stop conversation.
Proof.
  unfold boundHistory. apply Nat.ltb_lt in Hlong. by rewrite Hlong.
Qed.

Lemma stop_range : from <= stop <= length conversation.
Proof.
  destruct (walkForward_spec (drop from conversation) from) as (H & _).
  rewrite length_drop in H. subst from stop. lia.
Qed.

Lemma stop_before (k : nat) : from <= k < stop -> ~ isBoundary conversation k.
Proof.
  intros Hk (msg & Hmsg & Hp).
  destruct (walkForward_spec (drop from conversation) from) as (_ & Hbefore & _).
  rewrite (Hbefore (k - from) msg) in Hp; [done| |].
  - fold stop. lia.
  - rewrite lookup_drop. by replace (from + (k - from)) with k by lia.
Qed.

Lemma stop_boundary : stop < length conversation -> isBoundary conversation stop.
Proof.
  intros Hlt.
  destruct (walkForward_spec (drop from conversation) from) as (_ & _ & Hat).
  rewrite length_drop in Hat. fold stop in Hat.
  destruct Hat as (msg & Hmsg & Hp); [subst from; lia|].
  exists msg. split; [|done].
  rewrite lookup_drop in Hmsg.
  pose proof stop_range.
  by replace (from + (stop - from)) with stop in Hmsg by lia.
Qed.

(** The step cuts at the earliest boundary of the window. *)
Lemma boundHistory_earliest (k : nat) :
  earliestBoundary conversation from k ->
  boundHistory conversation = drop k conversation.
Proof.
  intros (Hk & Hb & Hfirst). rewrite boundHistory_stop.
  destruct (decide (stop = k)) as [->|Hne]; [done|].
  exfalso. destruct (decide (k < stop)) as [Hlt|Hge].
  - by apply (stop_before k).
  - apply (Hfirst stop).
    + pose proof stop_range. lia.
    + apply stop_boundary. destruct Hb as (msg & Hmsg & _).
      apply lookup_lt_Some in Hmsg. lia.
Qed.


End Step.

(** The message just pushed is a boundary, so the window always has one. *)
Lemma pushed_boundary (conversation : list Message) (userInput : string) :
  isBoundary (pushUserMessage conversation userInput) (length conversation).
Proof.
  exists {| role := user; body := Plain userInput |}. split; [|reflexivity].
  unfold pushUserMessage. by apply list_lookup_middle.
Qed.

Lemma pushed_earliest (conversation : list Message) (userInput : string) :
  let pushed := pushUserMessage conversation userInput in
  50 < length pushed ->
  exists k, earliestBoundary pushed (length pushed - 50) k.
Proof.
  intros pushed Hlong.
  set (from := length pushed - 50).
  set (stop := walkForward from (drop from pushed)).
  assert (Hlen : length pushed = S (length conversation)).
  { unfold pushed, pushUserMessage. rewrite length_app. simpl. lia. }
  assert (Hstop : stop < length pushed).
  { pose proof (stop_range pushed Hlong) as Hr. fold from stop in Hr.
    destruct (decide (stop < length pushed)) as [|Hge]; [done|].
    exfalso. apply (stop_before pushed Hlong (length conversation)).
    - fold from stop. lia.
    - apply pushed_boundary. }
  exists stop. split; [|split].
  - apply (stop_range pushed Hlong).
  - by apply stop_boundary.
  - intros k' Hk'. by apply stop_before.
Qed.

(** C3. Whenever the push of a user message makes the conversation
    longer than 50, the conversation left by the bounding step starts
    with a user message whose content is a plain string (never a
    tool-result array), whatever the messages before were. *)
Theorem C3_bounded_history_starts_with_plain_user
    (conversation : list Message) (userInput : string) :
  50 < length (pushUserMessage conversation userInput) ->
  exists text rest,
    boundHistory (pushUserMessage conversation userInput)
    = {| role := user; body := Plain text |} :: rest.
Proof.
  intros Hlong.
  destruct (pushed_earliest conversation userInput Hlong) as (k & Hk).
  rewrite (boundHistory_earliest _ Hlong k Hk).
  destruct Hk as (_ & (msg & Hmsg & Hp) & _).
  destruct msg as [[] [text|bs]]; try done.
  exists text, (drop (S k) (pushUserMessage conversation userInput)).
  by apply drop_S.
Qed.



Lemma C3_witness :
  exists text rest,
    boundHistory (pushUserMessage (replicate 50 Examples.assistantNote) "hello")
    = {| role := user; body := Plain text |} :: rest.
Proof.
  apply (C3_bounded_history_starts_with_plain_user
           (replicate 50 Examples.assistantNote) "hello").
  vm_compute. lia.
Defined.


End HistoryProps.

(** ** The tool execution supervisor *)

Module SupervisorProps.
Import JsString Json Sys Tool Agent Notions.

Lemma sameDisk_refl s : sameDisk s s.
Proof. done. Qed.

Lemma settled_resolved toolUse t value :
  (t <= TIMEOUT_MS)%N ->
  settled toolUse (Resolves t value)
  = {| tool_use_id := id toolUse; content := value; is_error := None |}.
Proof. unfold settled, race. by intros ->%N.leb_le. Qed.

Lemma settled_rejected toolUse t msg :
  (t <= TIMEOUT_MS)%N ->
  settled toolUse (Rejects t msg) = errorOf toolUse msg.
Proof. unfold settled, race. by intros ->%N.leb_le. Qed.

Lemma getUserMessage_head st :
  fst (getUserMessage st) = head (stdin st).
Proof. unfold getUserMessage. by destruct (stdin st). Qed.

(** What [invoke] returns and leaves behind. *)
Lemma invoke_spec toolDef toolUse st result st' :
  invoke toolDef toolUse st = (result, st') ->
  result = settled toolUse (fst (execute toolDef (input toolUse) (sys st))) /\
  executed st' = (executed st ++ [toolUse])%list /\
  dispatched st' = dispatched st /\ requests st' = requests st /\
  stdin st' = stdin st /\
  sameDisk (sys st') (snd (execute toolDef (input toolUse) (sys st))).
Proof.
  unfold invoke, settled.
  destruct (execute toolDef (input toolUse) (sys st)) as [outcome s'].
  simpl. destruct (race outcome); intros [= <- <-]; by simpl.
Qed.

(** The machine on which [execute] is called differs from the one the
    callback started on by console output and by the line read at the
    approval prompt. *)
Lemma executeTool_invokes agent toolUse st toolDef :
  resolved agent toolUse = Some toolDef ->
  validateInput (input toolUse) (required toolDef) = None ->
  needsApproval toolUse = false \/ approves (head (stdin st)) = true ->
  exists st1,
    executeTool agent toolUse st = invoke toolDef toolUse st1 /\
    sameDisk (sys st1) (sys st) /\ executed st1 = executed st /\
    dispatched st1 = dispatched st /\ requests st1 = requests st /\
    length (stdin st1) <= length (stdin st).
Proof.
  unfold resolved, executeTool. intros -> Hvalid Hgate.
  set (st0 := match input toolUse with
              | JObj (_ :: _) => _
              | _ => _
              end).
  assert (H0 : sameDisk (sys st0) (sys st) /\ executed st0 = executed st /\
               dispatched st0 = dispatched st /\ requests st0 = requests st /\
               stdin st0 = stdin st).
  { subst st0. by destruct (input toolUse) as [| | | | |[|]]. }
  destruct H0 as (Hdisk & Hex & Hdis & Hreq & Hin).
  rewrite Hvalid.
  destruct (needsApproval toolUse) eqn:Hneeds.
  - destruct Hgate as [|Happ]; [done|].
    rewrite <- Hin in Happ.
    unfold getUserMessage. simpl.
    destruct (stdin st0) as [|line rest] eqn:Hlines; [done|].
    simpl in Happ |- *. rewrite Happ.
    eexists. split; [reflexivity|]. simpl.
    rewrite <- Hin. simpl. repeat split; try apply Hdisk; try done. lia.
  - exists st0. rewrite Hin. repeat split; try apply Hdisk; done.
Qed.

(** A declined approval: the cancellation result, and nothing run. *)
Lemma executeTool_declined agent toolUse st toolDef result st' :
  resolved agent toolUse = Some toolDef ->
  validateInput (input toolUse) (required toolDef) = None ->
  needsApproval toolUse = true ->
  approves (head (stdin st)) = false ->
  executeTool agent toolUse st = (result, st') ->
  result = errorOf toolUse cancelled /\
  sameDisk (sys st') (sys st) /\ executed st' = executed st /\
  stdin st' = tail (stdin st) /\
  dispatched st' = dispatched st /\ requests st' = requests st.
Proof.
  unfold resolved, executeTool. intros -> -> -> Hdecl.
  set (st0 := match input toolUse with
              | JObj (_ :: _) => _
              | _ => _
              end).
  assert (H0 : sameDisk (sys st0) (sys st) /\ executed st0 = executed st /\
               stdin st0 = stdin st /\
               dispatched st0 = dispatched st /\ requests st0 = requests st).
  { subst st0. by destruct (input toolUse) as [| | | | |[|]]. }
  destruct H0 as (Hdisk & Hex & Hin & Hdis & Hreq).
  unfold getUserMessage. simpl. rewrite Hin.
  destruct (stdin st) as [|line rest]; simpl in Hdecl |- *.
  - intros [= <- <-]. simpl. repeat split; try apply Hdisk; done.
  - rewrite Hdecl. intros [= <- <-]. simpl. repeat split; try apply Hdisk; done.
Qed.

(** Every callback answers with the id of its own request and leaves the
    bookkeeping of the loop alone. *)
Lemma executeTool_frame agent toolUse st :
  let '(result, st') := executeTool agent toolUse st in
  tool_use_id result = id toolUse /\
  dispatched st' = dispatched st /\ requests st' = requests st /\
  length (stdin st') <= length (stdin st).
Proof.
  destruct (executeTool agent toolUse st) as [result st'] eqn:Hrun.
  destruct (resolved agent toolUse) as [toolDef|] eqn:Hfind.
  - destruct (validateInput (input toolUse) (required toolDef)) as [msg|] eqn:Hvalid.
    + revert Hrun. unfold resolved in Hfind. unfold executeTool.
      rewrite Hfind, Hvalid. intros [= <- <-]. simpl.
      by destruct (input toolUse) as [| | | | |[|]].
    + destruct (needsApproval toolUse) eqn:Hneeds;
        [destruct (approves (head (stdin st))) eqn:Happ|].
      * destruct (executeTool_invokes agent toolUse st toolDef Hfind Hvalid)
          as (st1 & Heq & _ & _ & Hdis & Hreq & Hin); [by right|].
        rewrite Heq in Hrun. apply invoke_spec in Hrun as (-> & _ & -> & -> & -> & _).
        repeat split; try done. unfold settled. by destruct (race _).
      * destruct (executeTool_declined _ _ _ _ _ _ Hfind Hvalid Hneeds Happ Hrun)
          as (-> & _ & _ & -> & -> & ->).
        repeat split; try done. destruct (stdin st); simpl; lia.
      * destruct (executeTool_invokes agent toolUse st toolDef Hfind Hvalid)
          as (st1 & Heq & _ & _ & Hdis & Hreq & Hin); [by left|].
        rewrite Heq in Hrun. apply invoke_spec in Hrun as (-> & _ & -> & -> & -> & _).
        repeat split; try done. unfold settled. by destruct (race _).
  - revert Hrun. unfold resolved in Hfind. unfold executeTool.
    rewrite Hfind. intros [= <- <-]. simpl.
    by destruct (input toolUse) as [| | | | |[|]].
Qed.

Lemma executeAll_length agent toolUseBlocks st :
  length (fst (executeAll agent toolUseBlocks st)) = length toolUseBlocks.
Proof.
  revert st. induction toolUseBlocks as [|toolUse rest IH]; intros st; simpl; [done|].
  destruct (executeTool agent toolUse st) as [result st1].
  specialize (IH st1). destruct (executeAll agent rest st1) as [results st2].
  simpl in *. by rewrite IH.
Qed.

Lemma executeAll_lookup agent toolUseBlocks st i toolUse :
  toolUseBlocks !! i = Some toolUse ->
  fst (executeAll agent toolUseBlocks st) !! i
  = Some (fst (executeTool agent toolUse
                 (snd (executeAll agent (take i toolUseBlocks) st)))).
Proof.
  revert st i. induction toolUseBlocks as [|first rest IH]; intros st i; [done|].
  destruct i as [|i]; simpl.
  - intros [= ->]. destruct (executeTool agent toolUse st) as [result st1].
    by destruct (executeAll agent rest st1).
  - intros Hi. destruct (executeTool agent first st) as [result st1].
    specialize (IH st1 i Hi).
    destruct (executeAll agent rest st1) as [results st2].
    by destruct (executeAll agent (take i rest) st1).
Qed.

Lemma executeAll_frame agent toolUseBlocks st :
  let st' := snd (executeAll agent toolUseBlocks st) in
  dispatched st' = dispatched st /\ requests st' = requests st /\
  length (stdin st') <= length (stdin st).
Proof.
  revert st. induction toolUseBlocks as [|toolUse rest IH]; intros st; simpl; [done|].
  pose proof (executeTool_frame agent toolUse st) as Hone.
  destruct (executeTool agent toolUse st) as [result st1].
  destruct Hone as (_ & Hd & Hr & Hin).
  specialize (IH st1). destruct (executeAll agent rest st1) as [results st2].
  simpl in *. destruct IH as (-> & -> & Hin2). repeat split; try done. lia.
Qed.

Lemma executeTools_results agent toolUseBlocks st :
  fst (executeTools agent toolUseBlocks st)
  = fst (executeAll agent toolUseBlocks (markDispatched toolUseBlocks st)).
Proof. unfold executeTools. by destruct (executeAll _ _ _). Qed.

Lemma executeTools_frame agent toolUseBlocks st :
  let st' := snd (executeTools agent toolUseBlocks st) in
  dispatched st' = (dispatched st ++ [toolUseBlocks])%list /\
  requests st' = requests st /\
  length (stdin st') <= length (stdin st).
Proof.
  unfold executeTools.
  pose proof (executeAll_frame agent toolUseBlocks (markDispatched toolUseBlocks st)) as H.
  destruct (executeAll _ _ _) as [results st1]. simpl in *.
  destruct H as (-> & -> & Hin). done.
Qed.

Lemma approves_spec approval :
  approves approval = true <-> answersYes approval.
Proof.
  unfold approves, answersYes. destruct approval as [line|].
  - rewrite negb_true_iff, andb_false_iff, !negb_false_iff, !String.eqb_eq.
    split.
    + intros H. by exists line.
    + by intros (line' & [= <-] & H).
  - split; [done|]. by intros (line & ? & _).
Qed.

(** C7. A request for [edit_file] whose input has [confirm] set to [true]
    (the tool being registered and the input valid) and which the
    operator declines gets the error result with the cancellation text;
    [execute] is not called, and files and write log are as before. *)
Theorem C7_declined_edit_changes_nothing agent toolUse st toolDef fields :
  name toolUse = "edit_file" ->
  input toolUse = JObj fields ->
  field "confirm" fields = Some (JBool true) ->
  resolved agent toolUse = Some toolDef ->
  validateInput (input toolUse) (required toolDef) = None ->
  approves (head (stdin st)) = false ->
  fst (executeTool agent toolUse st)
  = {| tool_use_id := id toolUse;
       content := stringify
                    (JObj [("error", JStr "Edit cancelled by user. The changes were not made.")]);
       is_error := Some true |} /\
  executed (snd (executeTool agent toolUse st)) = executed st /\
  files (sys (snd (executeTool agent toolUse st))) = files (sys st) /\
  writes (sys (snd (executeTool agent toolUse st))) = writes (sys st).
Proof.
  intros Hname Hinput Hconfirm Hfind Hvalid Hdecl.
  assert (Hneeds : needsApproval toolUse = true).
  { unfold needsApproval. by rewrite Hname, Hinput, Hconfirm. }
  destruct (executeTool agent toolUse st) as [result st'] eqn:Hrun.
  destruct (executeTool_declined _ _ _ _ _ _ Hfind Hvalid Hneeds Hdecl Hrun)
    as (-> & (Hfiles & _ & Hwrites) & Hex & _).
  done.
Qed.

Lemma C7_witness :
  fst (executeTool Examples.editAgent (Examples.editUse "b" true) (Examples.state0 ["no"]))
  = {| tool_use_id := "toolu_1";
       content := stringify
                    (JObj [("error", JStr "Edit cancelled by user. The changes were not made.")]);
       is_error := Some true |} /\
  executed (snd (executeTool Examples.editAgent (Examples.editUse "b" true)
                   (Examples.state0 ["no"]))) = [] /\
  files (sys (snd (executeTool Examples.editAgent (Examples.editUse "b" true)
                     (Examples.state0 ["no"]))))
  = {[ "/w/f.txt" := Examples.abc ]} /\
  writes (sys (snd (executeTool Examples.editAgent (Examples.editUse "b" true)
                      (Examples.state0 ["no"])))) = [].
Proof.
  apply (C7_declined_edit_changes_nothing Examples.editAgent
           (Examples.editUse "b" true) (Examples.state0 ["no"])
           (EditFile.EditFileTool Examples.env0)
           [("path", JStr "/w/f.txt"); ("old_str", JStr "b");
            ("new_str", JStr "B"); ("confirm", JBool true)]);
    reflexivity.
Defined.

(** C10. At the approval prompt of an [edit_file] request with
    [confirm: true], the edit goes ahead ([execute] is called) exactly
    when the next input line, trimmed and lower-cased, is [yes] or [y].
    Any other answer, an empty line or the end of input gives the
    cancellation error result, and [execute] is not called. *)
Theorem C10_approval_iff_yes agent toolUse st toolDef :
  resolved agent toolUse = Some toolDef ->
  validateInput (input toolUse) (required toolDef) = None ->
  needsApproval toolUse = true ->
  let result := fst (executeTool agent toolUse st) in
  let st' := snd (executeTool agent toolUse st) in
  (answersYes (head (stdin st)) ->
   executed st' = (executed st ++ [toolUse])%list) /\
  (~ answersYes (head (stdin st)) ->
   result = {| tool_use_id := id toolUse;
               content := stringify
                            (JObj [("error", JStr "Edit cancelled by user. The changes were not made.")]);
               is_error := Some true |} /\
   executed st' = executed st /\
   files (sys st') = files (sys st) /\ writes (sys st') = writes (sys st)).
Proof.
  intros Hfind Hvalid Hneeds result st'. subst result st'.
  destruct (executeTool agent toolUse st) as [result st'] eqn:Hrun. simpl.
  split.
  - intros Hyes%approves_spec.
    destruct (executeTool_invokes agent toolUse st toolDef Hfind Hvalid (or_intror Hyes))
      as (st1 & Heq & _ & Hex & _).
    rewrite Heq in Hrun. apply invoke_spec in Hrun as (_ & -> & _). by rewrite Hex.
  - intros Hno.
    assert (Hdecl : approves (head (stdin st)) = false).
    { destruct (approves (head (stdin st))) eqn:Ha; [|done].
      by apply approves_spec in Ha. }
    destruct (executeTool_declined _ _ _ _ _ _ Hfind Hvalid Hneeds Hdecl Hrun)
      as (-> & (Hfiles & _ & Hwrites) & Hex & _).
    done.
Qed.

Lemma C10_witness :
  executed (snd (executeTool Examples.editAgent (Examples.editUse "b" true)
                   (Examples.state0 [" YES "])))
  = [Examples.editUse "b" true].
Proof.
  destruct (C10_approval_iff_yes Examples.editAgent (Examples.editUse "b" true)
              (Examples.state0 [" YES "]) (EditFile.EditFileTool Examples.env0)
              eq_refl eq_refl eq_refl) as [Hyes _].
  apply Hyes. exists " YES ". split; [reflexivity|]. left. reflexivity.
Defined.

End SupervisorProps.

(** ** The inference loop and the conversation loop *)

Module OrchestratorProps.
Import JsString Json Sys Tool Constants Agent Notions SupervisorProps.

Lemma inferenceLoop_step agent fuel toolTurns conversation st :
  inferenceLoop agent (S fuel) toolTurns conversation st
  = let response := backend agent (requests st) conversation in
    let st1 := snd (create agent conversation st) in
    if wantsTools response then
      if MAX_TOOL_TURNS <? S toolTurns then
        Some (blocks response, conversation, log turnLimitNotice st1)
      else
        inferenceLoop agent fuel (S toolTurns)
          (conversation
           ++ [ {| role := assistant; body := Blocks (blocks response) |};
                {| role := user;
                   body := Blocks (List.map ToolResultBlock
                                     (fst (executeTools agent (toolUsesOf (blocks response)) st1))) |} ])%list
          (snd (executeTools agent (toolUsesOf (blocks response)) st1))
    else Some (blocks response, conversation, printText (blocks response) st1).
Proof.
  cbn [inferenceLoop]. unfold create, wantsTools. cbn [fst snd].
  destruct (_ && _); [|done].
  destruct (MAX_TOOL_TURNS <? S toolTurns); [done|].
  by destruct (executeTools _ _ _).
Qed.

Lemma printText_frame content st :
  dispatched (printText content st) = dispatched st /\
  requests (printText content st) = requests st /\
  stdin (printText content st) = stdin st.
Proof.
  unfold printText. revert st.
  induction content as [|b content IH]; intros st; simpl; [done|].
  destruct (IH (match b with TextBlock text => write text st | _ => st end))
    as (-> & -> & ->).
  by destruct b.
Qed.

(** The loop returns within the iteration bound, after at most
    [MAX_TOOL_TURNS - toolTurns] further batches. *)
Lemma inferenceLoop_bound agent fuel toolTurns conversation st :
  toolTurns <= MAX_TOOL_TURNS ->
  MAX_TOOL_TURNS - toolTurns < fuel ->
  exists content conversation' st',
    inferenceLoop agent fuel toolTurns conversation st
    = Some (content, conversation', st') /\
    length (dispatched st') + toolTurns <= length (dispatched st) + MAX_TOOL_TURNS /\
    requests st' + toolTurns <= requests st + MAX_TOOL_TURNS + 1 /\
    length (stdin st') <= length (stdin st).
Proof.
  revert toolTurns conversation st.
  induction fuel as [|fuel IH]; intros toolTurns conversation st Hle Hfuel; [lia|].
  rewrite inferenceLoop_step. cbn zeta.
  destruct (wantsTools _).
  - destruct (Nat.ltb_spec MAX_TOOL_TURNS (S toolTurns)) as [Hover|Hroom].
    + do 3 eexists. split; [reflexivity|]. simpl. lia.
    + pose proof (executeTools_frame agent
                    (toolUsesOf (blocks (backend agent (requests st) conversation)))
                    (snd (create agent conversation st))) as (Hd & Hr & Hin).
      edestruct (IH (S toolTurns)) as (content & conversation' & st' & Hrun & Hd' & Hr' & Hin');
        [lia|lia|].
      do 3 eexists. split; [apply Hrun|].
      rewrite Hd, length_app in Hd'. rewrite Hr in Hr'. simpl in *. lia.
  - do 3 eexists. split; [reflexivity|].
    destruct (printText_frame (blocks (backend agent (requests st) conversation))
                (snd (create agent conversation st))) as (-> & -> & ->).
    simpl. lia.
Qed.

Lemma runInference_returns agent conversation st :
  is_Some (runInference agent conversation st).
Proof.
  destruct (inferenceLoop_bound agent (S MAX_TOOL_TURNS) 0 conversation st)
    as (content & conversation' & st' & Hrun & _); [lia..|].
  unfold runInference. by rewrite Hrun.
Qed.

(** A backend that keeps asking for tools is stopped by the counter: the
    batches of the turns still allowed are run, and the response after
    them is returned without its tools being run. *)
Lemma inferenceLoop_limit agent fuel toolTurns conversation st :
  toolTurns <= MAX_TOOL_TURNS ->
  MAX_TOOL_TURNS - toolTurns < fuel ->
  asksForTools agent (requests st) (S MAX_TOOL_TURNS - toolTurns) ->
  exists content conversation' st',
    inferenceLoop agent fuel toolTurns conversation st
    = Some (content, conversation', st') /\
    length (dispatched st') = length (dispatched st) + (MAX_TOOL_TURNS - toolTurns) /\
    requests st' = requests st + (S MAX_TOOL_TURNS - toolTurns) /\
    last (console (sys st')) = Some (turnLimitNotice ++ nl) /\
    content = blocks (backend agent (requests st + (MAX_TOOL_TURNS - toolTurns)) conversation') /\
    0 < length (toolUsesOf content).
Proof.
  revert toolTurns conversation st.
  induction fuel as [|fuel IH]; intros toolTurns conversation st Hle Hfuel Hasks; [lia|].
  rewrite inferenceLoop_step. cbn zeta.
  assert (Hfirst : wantsTools (backend agent (requests st) conversation) = true).
  { specialize (Hasks 0 conversation). rewrite Nat.add_0_r in Hasks.
    apply Hasks. lia. }
  rewrite Hfirst.
  destruct (Nat.ltb_spec MAX_TOOL_TURNS (S toolTurns)) as [Hover|Hroom].
  - do 3 eexists. split; [reflexivity|]. simpl.
    replace (MAX_TOOL_TURNS - toolTurns) with 0 by lia.
    replace (S MAX_TOOL_TURNS - toolTurns) with 1 by lia.
    rewrite !Nat.add_0_r. repeat split; try lia.
    + by rewrite last_snoc.
    + apply andb_prop in Hfirst as [H _]. by apply Nat.ltb_lt in H.
  - pose proof (executeTools_frame agent
                  (toolUsesOf (blocks (backend agent (requests st) conversation)))
                  (snd (create agent conversation st))) as (Hd & Hr & Hin).
    change (requests (snd (create agent conversation st))) with (S (requests st)) in Hr.
    change (dispatched (snd (create agent conversation st))) with (dispatched st) in Hd.
    edestruct (IH (S toolTurns))
      as (content & conversation' & st' & Hrun & Hd' & Hr' & Hlast & Hcontent & Huses);
      [lia|lia| |].
    { rewrite Hr. intros k msgs Hk.
      replace (S (requests st) + k) with (requests st + S k) by lia.
      apply Hasks. lia. }
    do 3 eexists. split; [apply Hrun|].
    rewrite Hd, length_app in Hd'. rewrite Hr in Hr', Hcontent.
    cbn [length] in Hd'.
    split; [lia|]. split; [lia|]. split; [done|]. split; [|done].
    rewrite Hcontent. do 2 f_equal. lia.
Qed.

(** C5. [runInference] always returns, after at most 11 backend requests
    and at most 10 batches handed to [executeTools].  When the backend
    answers 11 requests in a row with tool-use blocks and the stop reason
    [tool_use], exactly 10 batches are run; the eleventh response takes
    the counter past [MAX_TOOL_TURNS = 10], the notice is printed and the
    loop is left with that response's content, its tools not run and no
    twelfth request made. *)
Theorem C5_tool_turns_bounded agent conversation st :
  exists content conversation' st',
    runInference agent conversation st = Some (content, conversation', st') /\
    length (dispatched st') <= length (dispatched st) + 10 /\
    requests st' <= requests st + 11 /\
    (asksForTools agent (requests st) 11 ->
     requests st' = requests st + 11 /\
     length (dispatched st') = length (dispatched st) + 10 /\
     last (console (sys st')) = Some (turnLimitNotice ++ nl) /\
     content = blocks (backend agent (requests st + 10) conversation') /\
     0 < length (toolUsesOf content)).
Proof.
  destruct (inferenceLoop_bound agent (S MAX_TOOL_TURNS) 0 conversation st)
    as (content & conversation' & st' & Hrun & Hd & Hr & _); [lia..|].
  exists content, conversation', st'.
  split; [done|]. split; [unfold MAX_TOOL_TURNS in Hd; lia|].
  split; [unfold MAX_TOOL_TURNS in Hr; lia|].
  intros Hasks.
  destruct (inferenceLoop_limit agent (S MAX_TOOL_TURNS) 0 conversation st)
    as (content2 & conversation2 & st2 & Hrun2 & Hd2 & Hr2 & Hlast & Hcontent & Huses);
    [lia|lia|done|].
  rewrite Hrun in Hrun2. injection Hrun2 as <- <- <-.
  unfold MAX_TOOL_TURNS in *. simpl in *. done.
Qed.

Lemma C5_witness :
  exists content conversation' st',
    runInference Examples.batchAgent [] (Examples.state0 [])
    = Some (content, conversation', st') /\
    requests st' = 11 /\ length (dispatched st') = 10.
Proof.
  destruct (C5_tool_turns_bounded Examples.batchAgent [] (Examples.state0 []))
    as (content & conversation' & st' & Hrun & _ & _ & Hlimit).
  destruct Hlimit as (Hr & Hd & _).
  { intros k msgs _. reflexivity. }
  exists content, conversation', st'. by repeat split.
Defined.

(** The conversation loop ends: every round reads a line. *)
Lemma runLoop_enough agent fuel conversation st :
  length (stdin st) < fuel ->
  is_Some (runLoop agent fuel conversation st).
Proof.
  revert conversation st.
  induction fuel as [|fuel IH]; intros conversation st Hfuel; [lia|].
  cbn [runLoop]. unfold getUserMessage. cbn [stdin write onSys].
  destruct (stdin st) as [|line rest] eqn:Hlines; [done|].
  destruct (String.eqb (trim line) EmptyString).
  { apply IH. simpl in *. lia. }
  destruct (_ || _); [done|].
  match goal with
  | |- context [runInference agent ?c ?s] =>
      destruct (inferenceLoop_bound agent (S MAX_TOOL_TURNS) 0 c s)
        as (content & conversation' & st' & Hrun & _ & _ & Hin); [lia..|];
      unfold runInference; rewrite Hrun
  end.
  apply IH. simpl in *. lia.
Qed.

Lemma run_returns agent st : is_Some (Agent.run agent st).
Proof. unfold Agent.run. apply runLoop_enough. simpl. lia. Qed.

(** C2 (the code departs from the claim). The backend asks for a tool on
    every request; the operator types two lines.  After ten batches the
    eleventh response of the first turn stops the inner loop, and [run]
    pushes its content, tool-use block included, as an assistant
    message.  No tool-result message follows it: the next message is the
    plain user message of the second line, and the pairing invariant
    fails on the conversation. *)
Theorem C2_turn_limit_splits_pairing :
  exists conversation st,
    Agent.run Examples.batchAgent (Examples.state0 ["hi"; "again"])
    = Some (conversation, st) /\
    conversation !! 21
    = Some {| role := assistant; body := Blocks [ToolUseBlock Examples.fastUse] |} /\
    conversation !! 22 = Some {| role := user; body := Plain "again" |} /\
    length (dispatched st) = 20 /\
    requests st = 22 /\
    paired (take 21 conversation) = true /\
    paired conversation = false.
Proof.
  destruct (Agent.run Examples.batchAgent (Examples.state0 ["hi"; "again"]))
    as [[conversation st]|] eqn:Hrun; [|by vm_compute in Hrun].
  exists conversation, st. split; [done|].
  vm_compute in Hrun. injection Hrun as <- <-.
  repeat split; vm_compute; reflexivity.
Qed.

End OrchestratorProps.

(** ** The edit_file tool *)

Module EditProps.
Import JsString Json Sys Tool Agent EditFile Notions SupervisorProps.

(** An input that [execute] can read has the two required fields. *)
Lemma decode_valid env input inp :
  decode input = Some inp ->
  validateInput input (required (EditFileTool env)) = None.
Proof.
  destruct input as [| | | | |fields]; try done. simpl.
  unfold hasField.
  destruct (field "path" fields) as [[]|] eqn:Hp; try done.
  destruct (field "new_str" fields) as [[]|] eqn:Hn; done.
Qed.

(** [execute] on an existing file whose [old_str] does not occur exactly
    once: an error text, and the machine untouched. *)
Lemma run_rejects env inp s content old :
  mode inp ∈ ["replace"; "insert_before"; "insert_after"] ->
  oldStr inp = Some old -> old <> EmptyString ->
  files s !! resolvePath env (inputPath inp) = Some content ->
  faults s !! resolvePath env (inputPath inp) = None ->
  occurrences old content <> 1 ->
  EditFile.run env inp s = (errorResult (rejection inp old content), s).
Proof.
  intros Hmode Hold Hne Hfile Hfault Hocc.
  assert (Hvalid : bool_decide (mode inp ∈ validModes) = true
                   /\ String.eqb (mode inp) "append" = false).
  { rewrite !elem_of_cons, elem_of_nil in Hmode.
    destruct Hmode as [->|[->|[->|[]]]]; by vm_compute. }
  destruct Hvalid as [Hvalid Happend].
  unfold EditFile.run, rejection. rewrite Hvalid.
  cbn [negb].
  destruct (String.eqb (mode inp) "replace"
            && bool_decide (oldStr inp = Some (newStr inp))); [done|].
  unfold exists_, readFile. rewrite Hfile, Hfault.
  rewrite bool_decide_eq_true_2 by eauto. cbn [negb].
  rewrite Happend, Hold. unfold given.
  assert (Hne' : String.eqb old EmptyString = false) by by apply String.eqb_neq.
  rewrite Hne'. unfold rewriteFile. fold (occurrences old content).
  destruct (occurrences old content =? 0) eqn:H0; [done|].
  apply Nat.eqb_neq in H0.
  replace (1 <? occurrences old content) with true; [done|].
  symmetry. apply Nat.ltb_lt. lia.
Qed.

(** C8, as the code has it. For an existing, readable file and a mode
    among replace, insert_before and insert_after, an [old_str] that the
    tool counts zero times or more than once makes [execute] resolve
    with a JSON object holding an [error] text, without any write.  The
    supervisor hands that text back as the content of an ordinary result:
    nothing was thrown, so [is_error] is not set. *)
Theorem C8_unmatched_old_str_no_write env agent toolUse st inp content old :
  resolved agent toolUse = Some (EditFileTool env) ->
  decode (input toolUse) = Some inp ->
  needsApproval toolUse = false \/ approves (head (stdin st)) = true ->
  (elapsedMs env < 30000)%N ->
  mode inp ∈ ["replace"; "insert_before"; "insert_after"] ->
  oldStr inp = Some old -> old <> EmptyString ->
  files (sys st) !! resolvePath env (inputPath inp) = Some content ->
  faults (sys st) !! resolvePath env (inputPath inp) = None ->
  occurrences old content <> 1 ->
  fst (executeTool agent toolUse st)
  = {| tool_use_id := id toolUse;
       content := stringify (JObj [("error", JStr (rejection inp old content))]);
       is_error := None |} /\
  files (sys (snd (executeTool agent toolUse st))) = files (sys st) /\
  writes (sys (snd (executeTool agent toolUse st))) = writes (sys st).
Proof.
  intros Hfind Hdecode Hgate Hfast Hmode Hold Hne Hfile Hfault Hocc.
  destruct (executeTool_invokes agent toolUse st (EditFileTool env) Hfind
              (decode_valid env _ _ Hdecode) Hgate)
    as (st1 & Heq & (Hfiles & Hfaults & Hwrites) & _).
  rewrite Heq.
  destruct (invoke (EditFileTool env) toolUse st1) as [result st'] eqn:Hinv.
  apply invoke_spec in Hinv as (-> & _ & _ & _ & _ & Hdisk).
  revert Hdisk. cbn [fst snd Tool.execute EditFileTool]. unfold execute.
  rewrite Hdecode.
  rewrite (run_rejects env inp (sys st1) content old) by (done || congruence).
  cbn [fst snd]. intros (Hf & _ & Hw).
  rewrite settled_resolved by (by apply N.lt_le_incl).
  split; [done|]. split; congruence.
Qed.

Lemma C8_witness :
  fst (executeTool Examples.editAgent (Examples.editUse "z" false) (Examples.state0 []))
  = {| tool_use_id := "toolu_1";
       content := stringify
                    (JObj [("error",
                            JStr "String not found in '/w/f.txt'. Use read_file (with show_line_numbers and/or search) to check the current file contents and copy the exact text.")]);
       is_error := None |} /\
  files (sys (snd (executeTool Examples.editAgent (Examples.editUse "z" false)
                     (Examples.state0 []))))
  = {[ "/w/f.txt" := Examples.abc ]} /\
  writes (sys (snd (executeTool Examples.editAgent (Examples.editUse "z" false)
                      (Examples.state0 [])))) = [].
Proof.
  apply (C8_unmatched_old_str_no_write Examples.env0 Examples.editAgent
           (Examples.editUse "z" false) (Examples.state0 [])
           {| inputPath := "/w/f.txt"; oldStr := Some "z"; newStr := "B";
              mode := "replace"; confirm := false |}
           Examples.abc "z");
    try reflexivity.
  - by left.
  - apply list_elem_of_here.
  - done.
  - vm_compute. lia.
Defined.

(** The claim as the specification words it fails: the result for an
    [old_str] that does not occur is not marked as an error. *)
Lemma C8_counterexample :
  occurrences "z" Examples.abc = 0 /\
  writes (sys (snd (executeTool Examples.editAgent (Examples.editUse "z" false)
                      (Examples.state0 [])))) = [] /\
  is_error (fst (executeTool Examples.editAgent (Examples.editUse "z" false)
                   (Examples.state0 []))) <> Some true.
Proof. repeat split; vm_compute; congruence. Qed.

(** The count is the one of [split]: occurrences that overlap an earlier
    one are not seen, so [aa] counts once in [aaa] and the edit goes
    ahead. *)
Lemma occurrences_do_not_overlap :
  occurrences "aa" "aaa" = 1 /\
  startsWith "aa" "aaa" = true /\ startsWith "aa" (dropChars 1 "aaa") = true.
Proof. by vm_compute. Qed.

(** C9, as the code has it. On the file with the three lines a, b, c:
    without [confirm] the call resolves with a preview whose diff marks
    line 2 removed ([b]) and line 2 added ([B]), and writes nothing; with
    [confirm: true] the file becomes a, B, c and the call resolves with
    the success result of action [replaced].  In both results
    [change_location] is lines 1 to 4: the range of the context snippet
    (up to three lines on each side of the changed line 2, cut at the
    ends of the file). *)
Theorem C9_replace_scenario :
  fst (execute Examples.env0 (Examples.editInput "b" false) Examples.disk0)
  = Resolves 5
      (stringify
         (JObj [("preview", JBool true);
                ("action", JStr "replaced");
                ("path", JStr "/w/f.txt");
                ("diff", JStr Examples.expectedDiff);
                ("change_location",
                 JObj [("start_line", JNum 1); ("end_line", JNum 4)]);
                ("message", JStr "Set 'confirm: true' to write these changes.")])) /\
  writes (snd (execute Examples.env0 (Examples.editInput "b" false) Examples.disk0)) = [] /\
  files (snd (execute Examples.env0 (Examples.editInput "b" false) Examples.disk0))
    !! "/w/f.txt" = Some Examples.abc /\
  fst (execute Examples.env0 (Examples.editInput "b" true) Examples.disk0)
  = Resolves 5
      (stringifyPretty
         (JObj [("success", JBool true);
                ("action", JStr "replaced");
                ("path", JStr "/w/f.txt");
                ("change_location",
                 JObj [("start_line", JNum 1); ("end_line", JNum 4)]);
                ("snippet",
                 JStr (join nl ["1 | a"; "2 | B"; "3 | c"; "4 | "]))])) /\
  writes (snd (execute Examples.env0 (Examples.editInput "b" true) Examples.disk0))
  = [("/w/f.txt", Examples.aBc)] /\
  files (snd (execute Examples.env0 (Examples.editInput "b" true) Examples.disk0))
    !! "/w/f.txt" = Some Examples.aBc.
Proof. repeat split; vm_compute; reflexivity. Qed.

(** The location reported for the scenario is that of [getChangeSnippet],
    and it is not line 2. *)
Lemma C9_counterexample :
  fst (execute Examples.env0 (Examples.editInput "b" true) Examples.disk0)
  = Resolves 5
      (stringifyPretty
         (JObj [("success", JBool true);
                ("action", JStr "replaced");
                ("path", JStr "/w/f.txt");
                ("change_location",
                 locationOf (Diff.getChangeSnippet Examples.aBc "B"));
                ("snippet",
                 JStr (Diff.snippet (Diff.getChangeSnippet Examples.aBc "B")))])) /\
  Diff.start_line (Diff.getChangeSnippet Examples.aBc "B") <> 2 /\
  Diff.end_line (Diff.getChangeSnippet Examples.aBc "B") <> 2.
Proof. repeat split; vm_compute; congruence. Qed.

End EditProps.

(** ** Further properties of the agent *)

Module AgentExtras.
Import JsString Json Sys Tool Constants Agent Notions MoreNotions.
Import HistoryProps SupervisorProps OrchestratorProps.

Lemma boundHistory_short (conversation : list Message) :
  length conversation <= 50 -> boundHistory conversation = conversation.
Proof.
  intros Hshort. unfold boundHistory.
  destruct (Nat.ltb_spec 50 (length conversation)); [lia|done].
Qed.

Lemma boundHistory_length (conversation : list Message) :
  length (boundHistory conversation) <= 50.
Proof.
  unfold boundHistory.
  destruct (Nat.ltb_spec 50 (length conversation)) as [Hlong|Hshort]; [|done].
  pose proof (stop_range conversation Hlong) as Hr. cbv zeta in Hr |- *.
  rewrite length_drop. lia.
Qed.

(** The bounding step keeps a tail of the conversation of at most 50
    messages, and leaves a conversation of at most 50 messages alone. *)
Theorem boundHistory_keeps_a_tail (conversation : list Message) :
  (exists dropped, conversation = (dropped ++ boundHistory conversation)%list) /\
  length (boundHistory conversation) <= 50 /\
  (length conversation <= 50 -> boundHistory conversation = conversation).
Proof.
  split; [|split; [apply boundHistory_length|apply boundHistory_short]].
  unfold boundHistory.
  destruct (Nat.ltb_spec 50 (length conversation)) as [Hlong|Hshort].
  - eexists. symmetry. apply take_drop.
  - by exists [].
Qed.

Lemma startsPlain_app conversation added :
  startsPlain conversation -> conversation <> [] ->
  startsPlain (conversation ++ added).
Proof.
  intros [->|(text & rest & ->)] Hne; [done|].
  right. by exists text, (rest ++ added)%list.
Qed.

Lemma startsPlain_bound conversation userInput :
  startsPlain conversation ->
  startsPlain (boundHistory (pushUserMessage conversation userInput)) /\
  boundHistory (pushUserMessage conversation userInput) <> [].
Proof.
  intros Hstart.
  destruct (Nat.ltb_spec 50 (length (pushUserMessage conversation userInput)))
    as [Hlong|Hshort].
  - destruct (pushed_earliest conversation userInput Hlong) as (k & Hk).
    rewrite (boundHistory_earliest _ Hlong k Hk).
    destruct Hk as (_ & (msg & Hmsg & Hp) & _).
    destruct msg as [[] [text|bs]]; try done.
    rewrite (drop_S _ _ _ Hmsg). split; [|done]. right. eauto.
  - rewrite boundHistory_short by lia.
    unfold pushUserMessage. split.
    + destruct Hstart as [->|(text & rest & ->)]; right; simpl; eauto.
    + by destruct conversation.
Qed.

Lemma answers_results uses results :
  List.map tool_use_id results = List.map id uses ->
  answers uses {| role := user; body := Blocks (List.map ToolResultBlock results) |} = true.
Proof.
  intros Hids. unfold answers. simpl.
  assert (Hm : mapM (fun b => match b with
                              | ToolResultBlock r => Some (tool_use_id r)
                              | _ => None
                              end) (List.map ToolResultBlock results)
               = Some (List.map tool_use_id results)).
  { clear Hids. induction results as [|r results IH]; [done|].
    simpl. rewrite IH. done. }
  rewrite Hm. by apply bool_decide_eq_true_2.
Qed.

Lemma executeAll_ids agent toolUseBlocks st :
  List.map tool_use_id (fst (executeAll agent toolUseBlocks st))
  = List.map id toolUseBlocks.
Proof.
  revert st. induction toolUseBlocks as [|toolUse rest IH]; intros st; [done|].
  simpl. pose proof (executeTool_frame agent toolUse st) as Hone.
  destruct (executeTool agent toolUse st) as [result st1].
  destruct Hone as (Hid & _).
  specialize (IH st1). destruct (executeAll agent rest st1) as [results st2].
  simpl in *. by rewrite Hid, IH.
Qed.

Lemma pairsOnly_app l1 l2 :
  pairsOnly l1 = true -> pairsOnly l2 = true -> pairsOnly (l1 ++ l2) = true.
Proof.
  revert l1. fix IH 1. intros [|a [|b l1]]; simpl; try done.
  intros H1 H2. apply andb_prop in H1 as [Hab H1].
  rewrite Hab. simpl. by apply IH.
Qed.

Lemma inferenceLoop_appends agent fuel toolTurns conversation st content conversation' st' :
  inferenceLoop agent fuel toolTurns conversation st = Some (content, conversation', st') ->
  exists added,
    conversation' = (conversation ++ added)%list /\ pairsOnly added = true.
Proof.
  revert toolTurns conversation st.
  induction fuel as [|fuel IH]; intros toolTurns conversation st; [done|].
  rewrite inferenceLoop_step. cbn zeta.
  destruct (wantsTools _) eqn:Hwants.
  - destruct (MAX_TOOL_TURNS <? S toolTurns).
    + intros [= <- <- <-]. exists []. by rewrite app_nil_r.
    + intros Hrun. apply IH in Hrun as (added & -> & Hadded).
      eexists (_ :: _ :: added). split; [by rewrite <- app_assoc|].
      cbn [pairsOnly]. rewrite Hadded, andb_true_r.
      apply andb_true_intro. split.
      * unfold hasToolUse. simpl. by apply andb_prop in Hwants as [H _].
      * cbn [body]. apply answers_results.
        rewrite executeTools_results. apply executeAll_ids.
  - intros [= <- <- <-]. exists []. by rewrite app_nil_r.
Qed.

Lemma inferenceLoop_length agent fuel toolTurns conversation st content conversation' st' :
  inferenceLoop agent fuel toolTurns conversation st = Some (content, conversation', st') ->
  length conversation' + 2 * length (dispatched st)
  = length conversation + 2 * length (dispatched st').
Proof.
  revert toolTurns conversation st content conversation' st'.
  induction fuel as [|fuel IH]; intros toolTurns conversation st content
    conversation' st'; [done|].
  rewrite inferenceLoop_step. cbn zeta.
  destruct (wantsTools _).
  - destruct (MAX_TOOL_TURNS <? S toolTurns).
    + by intros [= <- <- <-].
    + intros Hrun. apply IH in Hrun.
      pose proof (executeTools_frame agent
                    (toolUsesOf (blocks (backend agent (requests st) conversation)))
                    (snd (create agent conversation st))) as (Hd & _).
      change (dispatched (snd (create agent conversation st)))
        with (dispatched st) in Hd.
      rewrite Hd, !length_app in Hrun. cbn [length] in Hrun. lia.
  - intros [= <- <- <-].
    pose proof (printText_frame (blocks (backend agent (requests st) conversation))
                  (snd (create agent conversation st))) as (Hd & _).
    unfold create in *. cbn [snd] in *. rewrite Hd. done.
Qed.

(** Within one call of [runInference] the conversation only grows, by
    pairs of an assistant message with tool-use blocks and the user
    message holding one result per block, in the same order. *)
Theorem runInference_appends_pairs agent conversation st content conversation' st' :
  runInference agent conversation st = Some (content, conversation', st') ->
  exists added,
    conversation' = (conversation ++ added)%list /\
    pairsOnly added = true /\
    length added = 2 * (length (dispatched st') - length (dispatched st)).
Proof.
  intros Hrun. unfold runInference in Hrun.
  pose proof (inferenceLoop_length _ _ _ _ _ _ _ _ Hrun) as Hl.
  apply inferenceLoop_appends in Hrun as (added & -> & Hadded).
  exists added. split; [done|]. split; [done|].
  rewrite length_app in Hl. lia.
Qed.

Lemma runInference_appends_pairs_witness :
  exists added,
    [ {| role := assistant; body := Blocks [ToolUseBlock Examples.fastUse] |};
      {| role := user;
         body := Blocks [ToolResultBlock
                           {| tool_use_id := "toolu_fast"; content := "ok";
                              is_error := None |}] |} ]
    = ([] ++ added)%list /\
    pairsOnly added = true /\
    length added = 2 * (1 - 0).
Proof.
  pose (agent := {| backend := fun n _ => if n =? 0 then Examples.moreTools
                                          else Examples.finalAnswer;
                    tools := [Examples.fastTool] |}).
  destruct (runInference agent [] (Examples.state0 [])) as [[[content conv] st]|] eqn:Hrun;
    [|by vm_compute in Hrun].
  pose proof (runInference_appends_pairs agent [] (Examples.state0 []) _ _ _ Hrun) as H.
  vm_compute in Hrun. injection Hrun as <- <- <-. exact H.
Defined.

(** Invariant of the conversation loop. *)
Lemma runLoop_invariant agent fuel conversation st conversation' st' :
  startsPlain conversation -> length conversation <= 71 ->
  runLoop agent fuel conversation st = Some (conversation', st') ->
  startsPlain conversation' /\ length conversation' <= 71.
Proof.
  revert conversation st.
  induction fuel as [|fuel IH]; intros conversation st Hstart Hlen; [done|].
  cbn [runLoop]. unfold getUserMessage. cbn [stdin write onSys].
  destruct (stdin st) as [|line rest]; [by intros [= <- <-]|].
  destruct (String.eqb (trim line) EmptyString); [by apply IH|].
  destruct (_ || _); [by intros [= <- <-]|].
  destruct (startsPlain_bound conversation line Hstart) as (Hstart' & Hne).
  pose proof (boundHistory_length (pushUserMessage conversation line)) as Hlen'.
  match goal with
  | |- context [runInference agent ?c ?s] =>
      destruct (runInference agent c s) as [[[content conversation1] st1]|] eqn:Hrun;
        [|done];
      unfold runInference in Hrun;
      pose proof (inferenceLoop_length _ _ _ _ _ _ _ _ Hrun) as Hadded;
      pose proof (inferenceLoop_appends _ _ _ _ _ _ _ _ Hrun) as (added & Heq & _);
      subst conversation1; rewrite length_app in Hadded;
      destruct (inferenceLoop_bound agent (S MAX_TOOL_TURNS) 0 c s)
        as (content2 & conversation2 & st2 & Hrun2 & Hd & _); [lia..|];
      rewrite Hrun in Hrun2;
      injection Hrun2 as <- <- <-
  end.
  apply IH.
  - apply startsPlain_app; [by apply startsPlain_app|].
    by destruct (boundHistory (pushUserMessage conversation line)).
  - rewrite !length_app. cbn [length]. unfold MAX_TOOL_TURNS in Hd. lia.
Qed.

(** Whenever [run] comes to the end of its loop, the conversation it
    leaves is empty or starts with a user message of plain string
    content, and has at most 71 messages: the 50 kept by the bounding
    step, the ten request/result pairs of one turn and the final
    assistant message. *)
Theorem run_conversation_shape agent st conversation st' :
  Agent.run agent st = Some (conversation, st') ->
  startsPlain conversation /\ length conversation <= 71.
Proof.
  unfold Agent.run. intros Hrun.
  apply runLoop_invariant in Hrun; [done|by left|simpl; lia].
Qed.

Lemma run_conversation_shape_witness :
  exists conversation st',
    Agent.run Examples.editAgent (Examples.state0 ["hi"; "exit"; "later"])
    = Some (conversation, st') /\
    startsPlain conversation /\ length conversation <= 71.
Proof.
  eexists _, _. split; [vm_compute; reflexivity|].
  eapply (run_conversation_shape Examples.editAgent
            (Examples.state0 ["hi"; "exit"; "later"])).
  vm_compute. reflexivity.
Defined.

(** [validateInput] accepts exactly the objects in which every required
    name is a property, one of the object's own or one that every object
    inherits (the test is [field in inputObj]); anything that is not an
    object is rejected whatever the schema. *)
Theorem validateInput_accepts_iff input requiredFields :
  validateInput input requiredFields = None <->
  exists fields,
    input = JObj fields /\
    forall names, requiredFields = Some names ->
                  Forall (fun f => is_Some (field f fields) \/ f ∈ inherited) names.
Proof.
  destruct input as [| | | | |fields];
    try (split; [done|by intros (fields & ? & _)]).
  simpl. destruct requiredFields as [names|].
  - assert (Hhas : forall f, hasField f fields = true
                             <-> is_Some (field f fields) \/ f ∈ inherited).
    { intros f. unfold hasField.
      by rewrite orb_true_iff, !bool_decide_eq_true. }
    assert (Hmissing : List.filter (fun f => negb (hasField f fields)) names = []
                       <-> Forall (fun f => is_Some (field f fields) \/ f ∈ inherited)
                             names).
    { induction names as [|f names IH]; simpl.
      - split; [constructor|done].
      - destruct (hasField f fields) eqn:Hf; simpl.
        + rewrite IH. apply Hhas in Hf.
          split; [by constructor|by inversion 1].
        + split; [done|]. inversion 1 as [|? ? Hin _]; subst.
          apply Hhas in Hin. congruence. }
    destruct (List.filter _ names) as [|m missing] eqn:Hf; simpl.
    + split; [|done]. intros _. exists fields. split; [done|].
      intros names' [= <-]. by apply Hmissing.
    + split; [done|]. intros (fields' & [= <-] & Hall).
      specialize (Hall names eq_refl). by apply Hmissing in Hall.
  - split; [|done]. intros _. by exists fields.
Qed.

(** A required name that every object inherits is never missing. *)
Lemma validateInput_inherited_name :
  validateInput (JObj []) (Some ["toString"]) = None /\
  validateInput (JObj []) (Some ["path"])
  = Some "Missing required fields: path".
Proof. by vm_compute. Qed.

(** A rejected input names the required fields that are missing, in the
    order of the schema. *)
Theorem validateInput_lists_missing fields names :
  let missing := List.filter (fun f => negb (hasField f fields)) names in
  missing <> [] ->
  validateInput (JObj fields) (Some names)
  = Some ("Missing required fields: " ++ join ", " missing).
Proof.
  intros missing Hne. simpl. fold missing.
  by destruct missing.
Qed.

Lemma validateInput_lists_missing_witness :
  validateInput (JObj [("old_str", JStr "b")]) (Some ["path"; "new_str"])
  = Some "Missing required fields: path, new_str".
Proof.
  apply (validateInput_lists_missing [("old_str", JStr "b")] ["path"; "new_str"]).
  done.
Defined.

(** A request for an unknown tool, or with an input the schema rejects,
    gets an error result; no [execute] is called, no line is read, and
    files and write log stay as they are. *)
Theorem rejected_request_runs_nothing agent toolUse st :
  resolved agent toolUse = None \/
  (exists toolDef,
      resolved agent toolUse = Some toolDef /\
      validateInput (input toolUse) (required toolDef) <> None) ->
  is_error (fst (executeTool agent toolUse st)) = Some true /\
  tool_use_id (fst (executeTool agent toolUse st)) = id toolUse /\
  executed (snd (executeTool agent toolUse st)) = executed st /\
  stdin (snd (executeTool agent toolUse st)) = stdin st /\
  sameDisk (sys (snd (executeTool agent toolUse st))) (sys st).
Proof.
  unfold resolved, executeTool.
  intros [Hnone|(toolDef & Hfind & Hinvalid)].
  - rewrite Hnone. simpl. by destruct (input toolUse) as [| | | | |[|]].
  - rewrite Hfind.
    destruct (validateInput (input toolUse) (required toolDef)); [|done].
    simpl. by destruct (input toolUse) as [| | | | |[|]].
Qed.

Lemma rejected_request_runs_nothing_witness :
  is_error (fst (executeTool Examples.batchAgent (Examples.editUse "b" true)
                   (Examples.state0 ["yes"]))) = Some true /\
  tool_use_id (fst (executeTool Examples.batchAgent (Examples.editUse "b" true)
                      (Examples.state0 ["yes"]))) = "toolu_1" /\
  executed (snd (executeTool Examples.batchAgent (Examples.editUse "b" true)
                   (Examples.state0 ["yes"]))) = [] /\
  stdin (snd (executeTool Examples.batchAgent (Examples.editUse "b" true)
                (Examples.state0 ["yes"]))) = ["yes"] /\
  sameDisk (sys (snd (executeTool Examples.batchAgent (Examples.editUse "b" true)
                        (Examples.state0 ["yes"])))) Examples.disk0.
Proof.
  apply (rejected_request_runs_nothing Examples.batchAgent
           (Examples.editUse "b" true) (Examples.state0 ["yes"])).
  by left.
Defined.

Lemma isExit_not_blank line : isExit line = true -> isBlank line = false.
Proof.
  unfold isExit, isBlank.
  destruct (String.eqb_spec (trim line) EmptyString) as [->|]; [|done].
  by vm_compute.
Qed.

Lemma runLoop_stops agent fuel conversation blanks tail st :
  Forall (fun l => isBlank l = true) blanks ->
  tail = [] \/ (exists stop rest, tail = stop :: rest /\ isExit stop = true) ->
  stdin st = (blanks ++ tail)%list ->
  length blanks < fuel ->
  exists st',
    runLoop agent fuel conversation st = Some (conversation, st') /\
    requests st' = requests st /\ stdin st' = drop 1 tail /\
    executed st' = executed st /\ dispatched st' = dispatched st /\
    sameDisk (sys st') (sys st).
Proof.
  intros Hblanks Htail. revert fuel st.
  induction Hblanks as [|blank blanks Hblank _ IH]; intros fuel st Hin Hfuel.
  - destruct fuel as [|fuel]; [simpl in Hfuel; lia|].
    cbn [runLoop]. unfold getUserMessage. cbn [stdin write onSys]. rewrite Hin.
    destruct Htail as [->|(stop & rest & -> & Hexit)]; simpl.
    + eexists. split; [reflexivity|]. by simpl.
    + pose proof (isExit_not_blank stop Hexit) as Hnb.
      unfold isBlank in Hnb. unfold isExit in Hexit. rewrite Hnb, Hexit.
      eexists. split; [reflexivity|]. by simpl.
  - destruct fuel as [|fuel]; [simpl in Hfuel; lia|].
    cbn [runLoop]. unfold getUserMessage. cbn [stdin write onSys]. rewrite Hin.
    simpl. unfold isBlank in Hblank. rewrite Hblank.
    edestruct (IH fuel) as (st' & Hrun & Hr & Hs & He & Hd & Hdisk);
      [|simpl in Hfuel; lia|].
    2:{ exists st'. split; [apply Hrun|]. by simpl in *. }
    done.
Qed.

(** Blank lines are skipped, and a line reading [exit] or [quit] (any
    case, white space around it ignored) ends the chat: when nothing else
    was typed before, [run] returns the empty conversation without a
    backend request or a tool call, having read the lines up to and
    including the one that ended it. *)
Theorem run_ends_without_request agent blanks stop rest st :
  Forall (fun l => isBlank l = true) blanks ->
  isExit stop = true ->
  stdin st = (blanks ++ stop :: rest)%list ->
  exists st',
    Agent.run agent st = Some ([], st') /\
    requests st' = requests st /\ stdin st' = rest /\
    executed st' = executed st /\
    sameDisk (sys st') (sys st).
Proof.
  intros Hblanks Hexit Hin. unfold Agent.run.
  edestruct (runLoop_stops agent
               (S (length (stdin (log "Chat with Claude (type 'exit' or 'quit' to stop)" st))))
               [] blanks (stop :: rest)
               (log "Chat with Claude (type 'exit' or 'quit' to stop)" st))
    as (st' & Hrun & Hr & Hs & He & _ & Hdisk); [done| |done| |].
  { right. by exists stop, rest. }
  { cbn [stdin log onSys]. rewrite Hin, length_app. simpl. lia. }
  exists st'. split; [apply Hrun|]. by simpl in *.
Qed.

Lemma run_ends_without_request_witness :
  exists st',
    Agent.run Examples.batchAgent (Examples.state0 ["  "; " Quit "; "later"])
    = Some ([], st') /\
    requests st' = 0 /\ stdin st' = ["later"] /\
    executed st' = [] /\
    sameDisk (sys st') Examples.disk0.
Proof.
  apply (run_ends_without_request Examples.batchAgent ["  "] " Quit " ["later"]
           (Examples.state0 ["  "; " Quit "; "later"])).
  - by repeat constructor.
  - done.
  - done.
Defined.

End AgentExtras.

(** ** Facts about the string primitives *)

Module StringFacts.
Import JsString MoreNotions.

Lemma str_app_cons (c : ascii) (s t : string) :
  String c s ++ t = String c (s ++ t).
Proof. reflexivity. Qed.

Lemma str_app_nil_l (s : string) : EmptyString ++ s = s.
Proof. reflexivity. Qed.

Lemma str_app_nil_r (s : string) : s ++ EmptyString = s.
Proof.
  induction s as [|c s IH]; [done|]. by rewrite str_app_cons, IH.
Qed.

Lemma str_app_assoc (a b c : string) : (a ++ b) ++ c = a ++ b ++ c.
Proof.
  induction a as [|x a IH]; [done|]. by rewrite !str_app_cons, IH.
Qed.

Lemma startsWith_app (p r : string) : startsWith p (p ++ r) = true.
Proof.
  induction p as [|a p IH]; [done|].
  rewrite str_app_cons. simpl. by rewrite Ascii.eqb_refl.
Qed.

Lemma startsWith_inv (p s : string) :
  startsWith p s = true -> s = p ++ dropChars (String.length p) s.
Proof.
  revert s. induction p as [|a p IH]; intros s; [done|].
  destruct s as [|b s]; [done|]. simpl.
  intros [Hab Hp]%andb_prop. apply Ascii.eqb_eq in Hab as ->.
  rewrite str_app_cons. f_equal. by apply IH.
Qed.

Lemma take_drop_chars (k : nat) (s : string) : takeChars k s ++ dropChars k s = s.
Proof.
  revert s. induction k as [|k IH]; intros [|c s]; simpl; try done.
  by rewrite str_app_cons, IH.
Qed.

Lemma dropChars_add (a b : nat) (s : string) :
  dropChars a (dropChars b s) = dropChars (b + a) s.
Proof.
  revert s. induction b as [|b IH]; intros s; [done|].
  destruct s as [|c s]; simpl; [by destruct a|]. apply IH.
Qed.

(** [indexOf] finds a place where the pattern starts. *)
Lemma indexOf_Some (p s : string) (k : nat) :
  indexOf p s = Some k ->
  s = takeChars k s ++ p ++ dropChars (k + String.length p) s.
Proof.
  revert k. induction s as [|c s IH]; intros k; simpl.
  - destruct (startsWith p EmptyString) eqn:Hp; [|done].
    intros [= <-]. simpl. by apply startsWith_inv in Hp.
  - destruct (startsWith p (String c s)) eqn:Hp.
    + intros [= <-]. simpl. by apply startsWith_inv in Hp.
    + destruct (indexOf p s) as [k'|] eqn:Hk; [|done].
      intros [= <-]. simpl. rewrite str_app_cons. f_equal. by apply IH.
Qed.

(** A pattern found nowhere splits the text into one piece. *)
Lemma indexOf_None_split (p s cur : string) :
  indexOf p s = None -> splitGo p 0 cur s = [cur ++ s].
Proof.
  revert cur. induction s as [|c s IH]; intros cur; simpl.
  - by rewrite str_app_nil_r.
  - destruct (startsWith p (String c s)); [done|].
    destruct (indexOf p s); [done|]. intros _.
    rewrite IH by done. by rewrite str_app_assoc.
Qed.

Lemma getSubstitution_app (matched before after x y : string) :
  dollarFree x = true ->
  getSubstitution matched before after (x ++ y)
  = x ++ getSubstitution matched before after y.
Proof.
  induction x as [|c x IH]; [done|]. simpl.
  intros [Hc Hx]%andb_prop. rewrite !str_app_cons, <- (IH Hx).
  destruct c as [[] [] [] [] [] [] [] []]; try done.
Qed.

Lemma getSubstitution_plain (matched before after x : string) :
  dollarFree x = true -> getSubstitution matched before after x = x.
Proof.
  intros Hx. rewrite <- (str_app_nil_r x) at 1.
  rewrite getSubstitution_app by done. simpl. apply str_app_nil_r.
Qed.

End StringFacts.

(** ** Further properties of the edit_file tool *)

Module EditExtras.
Import JsString Json Sys Tool Agent EditFile Notions MoreNotions.
Import SupervisorProps StringFacts.

Lemma writeFile_inr path content s s' :
  writeFile path content s = inr s' ->
  faults s' = faults s /\
  writes s' = (writes s ++ [(path, content)])%list /\
  files s' = <[path := content]> (files s) /\
  console s' = console s.
Proof.
  unfold writeFile. destruct (faults s !! path); [done|]. by intros [= <-].
Qed.

(** [execute] leaves the disk alone, or, only when [confirm] is set,
    writes once, to the file at the resolved path; no other file changes
    and previews never write. *)
Theorem edit_writes_once_and_only_confirmed env inp s :
  let path := resolvePath env (inputPath inp) in
  let s' := snd (EditFile.run env inp s) in
  faults s' = faults s /\
  ((writes s' = writes s /\ files s' = files s) \/
   (confirm inp = true /\
    exists content,
      writes s' = (writes s ++ [(path, content)])%list /\
      files s' = <[path := content]> (files s))).
Proof.
  intros path s'. subst s'. unfold EditFile.run. fold path.
  destruct (negb (bool_decide (mode inp ∈ validModes))); [by auto|].
  destruct (_ && _); [by auto|].
  destruct (negb (exists_ path s)).
  { unfold createFile.
    destruct (_ || _); [by auto|].
    destruct (confirm inp) eqn:Hc; [|by auto]. simpl.
    destruct (writeFile path (newStr inp) s) as [e|s1] eqn:Hw; [by auto|].
    apply writeFile_inr in Hw as (Hf & Hw & Hfiles & _). simpl. eauto 6. }
  destruct (readFile path s) as [e|content]; [by auto|].
  destruct (String.eqb (mode inp) "append").
  { unfold appendFile.
    destruct (confirm inp) eqn:Hc; [|by auto]. simpl.
    destruct (writeFile path _ s) as [e|s1] eqn:Hw; [by auto|].
    apply writeFile_inr in Hw as (Hf & Hw & Hfiles & _). simpl. eauto 6. }
  destruct (given (oldStr inp)) as [old|]; [|by auto].
  unfold rewriteFile.
  destruct (_ =? 0); [by auto|].
  destruct (1 <? _); [by auto|].
  destruct (if String.eqb (mode inp) "insert_before" then _ else _)
    as [newContent actionLabel].
  destruct (confirm inp) eqn:Hc; [|by auto]. simpl.
  destruct (writeFile path newContent s) as [e|s1] eqn:Hw; [by auto|].
  apply writeFile_inr in Hw as (Hf & Hw & Hfiles & _). simpl. eauto 6.
Qed.

Lemma occurs_once_found old content :
  old <> EmptyString -> occurrences old content = 1 ->
  exists k, indexOf old content = Some k.
Proof.
  intros Hne Hocc. destruct (indexOf old content) as [k|] eqn:Hk; [eauto|].
  exfalso. unfold occurrences, split in Hocc.
  destruct old as [|c old]; [done|].
  by rewrite (indexOf_None_split _ _ _ Hk) in Hocc.
Qed.

(** What a confirmed edit writes when [old_str] is counted once: the text
    around the first occurrence, with the replacement [replace] builds
    from the changed text put in between. *)
Lemma rewrite_confirmed env inp s content old :
  mode inp ∈ ["replace"; "insert_before"; "insert_after"] ->
  oldStr inp = Some old -> old <> EmptyString ->
  ~ (mode inp = "replace" /\ old = newStr inp) ->
  confirm inp = true ->
  files s !! resolvePath env (inputPath inp) = Some content ->
  faults s !! resolvePath env (inputPath inp) = None ->
  occurrences old content = 1 ->
  exists k,
    indexOf old content = Some k /\
    let before := takeChars k content in
    let after := dropChars (k + String.length old) content in
    let written :=
      before ++ getSubstitution old before after (changedText inp old) ++ after in
    content = before ++ old ++ after /\
    files (snd (EditFile.run env inp s)) !! resolvePath env (inputPath inp)
    = Some written /\
    writes (snd (EditFile.run env inp s))
    = (writes s ++ [(resolvePath env (inputPath inp), written)])%list.
Proof.
  intros Hmode Hold Hne Hdiff Hconfirm Hfile Hfault Hocc.
  destruct (occurs_once_found old content Hne Hocc) as [k Hk].
  exists k. split; [done|]. cbv zeta. split; [by apply indexOf_Some|].
  assert (Hvalid : bool_decide (mode inp ∈ validModes) = true
                   /\ String.eqb (mode inp) "append" = false).
  { rewrite !elem_of_cons, elem_of_nil in Hmode.
    destruct Hmode as [->|[->|[->|[]]]]; by vm_compute. }
  destruct Hvalid as [Hvalid Happend].
  unfold EditFile.run. rewrite Hvalid. cbn [negb].
  assert (Hsame : String.eqb (mode inp) "replace"
                  && bool_decide (oldStr inp = Some (newStr inp)) = false).
  { apply andb_false_iff.
    destruct (String.eqb_spec (mode inp) "replace") as [Hm|]; [|by left].
    right. apply bool_decide_eq_false_2. rewrite Hold. intros [= Heq]. by apply Hdiff. }
  rewrite Hsame.
  unfold exists_, readFile. rewrite Hfile, Hfault.
  rewrite bool_decide_eq_true_2 by eauto. cbn [negb].
  rewrite Happend, Hold. unfold given.
  assert (Hne' : String.eqb old EmptyString = false) by by apply String.eqb_neq.
  rewrite Hne'. unfold rewriteFile. fold (occurrences old content).
  rewrite Hocc. cbn [Nat.eqb Nat.ltb Nat.leb]. rewrite Hconfirm. cbn [negb].
  assert (Hnew : (if String.eqb (mode inp) "insert_before"
                  then (replace old (newStr inp ++ nl ++ old) content, "inserted_before")
                  else if String.eqb (mode inp) "insert_after"
                       then (replace old (old ++ nl ++ newStr inp) content, "inserted_after")
                       else (replace old (newStr inp) content, "replaced")).1
                 = takeChars k content
                   ++ getSubstitution old (takeChars k content)
                        (dropChars (k + String.length old) content)
                        (changedText inp old)
                   ++ dropChars (k + String.length old) content).
  { unfold changedText, replace. rewrite Hk.
    rewrite !elem_of_cons, elem_of_nil in Hmode.
    destruct Hmode as [->|[->|[->|[]]]]; reflexivity. }
  destruct (if String.eqb (mode inp) "insert_before" then _ else _)
    as [newContent actionLabel].
  cbn [fst] in Hnew. subst newContent.
  unfold writeFile. rewrite Hfault. cbn [snd files writes].
  split; [apply lookup_insert_eq|done].
Qed.

(** A confirmed edit whose [old_str] is counted once, when the changed
    text has no dollar sign: the file becomes the text before the first
    occurrence, the changed text ([new_str], or [new_str] and [old_str]
    on two lines for the insert modes), and the text after it. *)
Theorem unique_match_is_rewritten env inp s content old :
  mode inp ∈ ["replace"; "insert_before"; "insert_after"] ->
  oldStr inp = Some old -> old <> EmptyString ->
  ~ (mode inp = "replace" /\ old = newStr inp) ->
  confirm inp = true ->
  files s !! resolvePath env (inputPath inp) = Some content ->
  faults s !! resolvePath env (inputPath inp) = None ->
  occurrences old content = 1 ->
  dollarFree (changedText inp old) = true ->
  exists before after,
    content = before ++ old ++ after /\
    indexOf old content = Some (String.length before) /\
    files (snd (EditFile.run env inp s)) !! resolvePath env (inputPath inp)
    = Some (before ++ changedText inp old ++ after).
Proof.
  intros Hmode Hold Hne Hdiff Hconfirm Hfile Hfault Hocc Hplain.
  destruct (rewrite_confirmed env inp s content old)
    as (k & Hk & Hcontent & Hfiles & _); try done.
  cbv zeta in Hcontent, Hfiles.
  rewrite getSubstitution_plain in Hfiles by done.
  exists (takeChars k content), (dropChars (k + String.length old) content).
  split; [done|]. split; [|done].
  rewrite Hk. f_equal.
  clear -Hk. revert k Hk. induction content as [|c content IH]; intros k; simpl.
  - destruct (startsWith old EmptyString); [|done]. by intros [= <-].
  - destruct (startsWith old (String c content)); [by intros [= <-]|].
    destruct (indexOf old content) as [k'|]; [|done].
    intros [= <-]. simpl. f_equal. by apply IH.
Qed.

Lemma unique_match_is_rewritten_witness :
  exists before after,
    Examples.abc = before ++ "b" ++ after /\
    indexOf "b" Examples.abc = Some (String.length before) /\
    files (snd (EditFile.run Examples.env0
                  {| inputPath := "/w/f.txt"; oldStr := Some "b"; newStr := "x";
                     mode := "insert_after"; confirm := true |}
                  Examples.disk0)) !! "/w/f.txt"
    = Some (before ++ ("b" ++ nl ++ "x") ++ after).
Proof.
  apply (unique_match_is_rewritten Examples.env0
           {| inputPath := "/w/f.txt"; oldStr := Some "b"; newStr := "x";
              mode := "insert_after"; confirm := true |}
           Examples.disk0 Examples.abc "b"); try reflexivity; try done.
  - apply list_elem_of_further, list_elem_of_further, list_elem_of_here.
  - by intros [? _].
Defined.

(** A replacement is read as a pattern: a confirmed replace whose
    [new_str] holds a doubled dollar sign writes a single one. *)
Theorem doubled_dollar_is_written_once env inp s content old a b :
  mode inp = "replace" ->
  oldStr inp = Some old -> old <> EmptyString ->
  newStr inp = a ++ "$$" ++ b ->
  dollarFree a = true -> dollarFree b = true ->
  old <> newStr inp ->
  confirm inp = true ->
  files s !! resolvePath env (inputPath inp) = Some content ->
  faults s !! resolvePath env (inputPath inp) = None ->
  occurrences old content = 1 ->
  exists before after,
    content = before ++ old ++ after /\
    files (snd (EditFile.run env inp s)) !! resolvePath env (inputPath inp)
    = Some (before ++ (a ++ "$" ++ b) ++ after).
Proof.
  intros Hmode Hold Hne Hnew Ha Hb Hdiff Hconfirm Hfile Hfault Hocc.
  destruct (rewrite_confirmed env inp s content old)
    as (k & Hk & Hcontent & Hfiles & _); try done.
  { rewrite Hmode. apply list_elem_of_here. }
  { by intros [_ ?]. }
  cbv zeta in Hcontent, Hfiles.
  exists (takeChars k content), (dropChars (k + String.length old) content).
  split; [done|]. rewrite Hfiles. do 2 f_equal.
  replace (changedText inp old) with (a ++ "$$" ++ b)
    by (unfold changedText; rewrite Hmode, Hnew; reflexivity).
  rewrite getSubstitution_app by done.
  change ("$$" ++ b) with (String "$" (String "$" b)).
  cbn [getSubstitution]. by rewrite getSubstitution_plain.
Qed.

Lemma doubled_dollar_is_written_once_witness :
  exists before after,
    Examples.abc = before ++ "b" ++ after /\
    files (snd (EditFile.run Examples.env0
                  {| inputPath := "/w/f.txt"; oldStr := Some "b";
                     newStr := "pid=$$;"; mode := "replace"; confirm := true |}
                  Examples.disk0)) !! "/w/f.txt"
    = Some (before ++ ("pid=" ++ "$" ++ ";") ++ after).
Proof.
  apply (doubled_dollar_is_written_once Examples.env0
           {| inputPath := "/w/f.txt"; oldStr := Some "b";
              newStr := "pid=$$;"; mode := "replace"; confirm := true |}
           Examples.disk0 Examples.abc "b" "pid=" ";"); try reflexivity; done.
Defined.

(** A missing file. With a non-empty [old_str], or in append mode, the
    call answers that the file was not found and changes nothing; with
    neither, and [confirm] set, it creates the file with [new_str] as its
    whole content. *)
Theorem missing_file_refused_or_created env inp s :
  mode inp ∈ validModes ->
  ~ (mode inp = "replace" /\ oldStr inp = Some (newStr inp)) ->
  files s !! resolvePath env (inputPath inp) = None ->
  (given (oldStr inp) <> None \/ mode inp = "append" ->
   EditFile.run env inp s
   = (errorResult ("File '" ++ inputPath inp
                   ++ "' not found. Cannot edit a file that doesn't exist. Use use_bash (e.g. find or ls) to check available files."),
      s)) /\
  (given (oldStr inp) = None -> mode inp <> "append" -> confirm inp = true ->
   faults s !! resolvePath env (inputPath inp) = None ->
   fst (EditFile.run env inp s)
   = stringify
       (JObj [("success", JBool true);
              ("action", JStr "created");
              ("path", JStr (resolvePath env (inputPath inp)));
              ("lines", JNum (Z.of_nat (length (split nl (newStr inp)))))]) /\
   files (snd (EditFile.run env inp s))
   = <[resolvePath env (inputPath inp) := newStr inp]> (files s)).
Proof.
  intros Hmode Hdiff Hfile.
  assert (Hhead : EditFile.run env inp s
                  = createFile inp (resolvePath env (inputPath inp)) s).
  { unfold EditFile.run. rewrite bool_decide_eq_true_2 by done. cbn [negb].
    assert (Hsame : String.eqb (mode inp) "replace"
                    && bool_decide (oldStr inp = Some (newStr inp)) = false).
    { apply andb_false_iff.
      destruct (String.eqb_spec (mode inp) "replace") as [Hm|]; [|by left].
      right. apply bool_decide_eq_false_2. intros Heq. by apply Hdiff. }
    rewrite Hsame. unfold exists_. rewrite Hfile.
    rewrite bool_decide_eq_false_2 by (by intros [? ?]). done. }
  rewrite Hhead. unfold createFile. split.
  - intros Hrefuse.
    replace (bool_decide (is_Some (given (oldStr inp)))
             || String.eqb (mode inp) "append") with true; [done|].
    symmetry. apply orb_true_iff. destruct Hrefuse as [Hold|Happ].
    + left. apply bool_decide_eq_true_2. by destruct (given (oldStr inp)).
    + right. by apply String.eqb_eq.
  - intros Hnone Hmode' Hconfirm Hfault.
    rewrite Hnone. rewrite bool_decide_eq_false_2 by (by intros [? ?]).
    apply String.eqb_neq in Hmode'. rewrite Hmode', Hconfirm. cbn [orb negb].
    unfold writeFile. rewrite Hfault. done.
Qed.

Lemma missing_file_refused_or_created_witness :
  EditFile.run Examples.env0
    {| inputPath := "/w/new.txt"; oldStr := Some "b"; newStr := "x";
       mode := "replace"; confirm := true |} Examples.disk0
  = (errorResult ("File '" ++ "/w/new.txt"
                  ++ "' not found. Cannot edit a file that doesn't exist. Use use_bash (e.g. find or ls) to check available files."),
     Examples.disk0) /\
  files (snd (EditFile.run Examples.env0
                {| inputPath := "/w/new.txt"; oldStr := None; newStr := "x";
                   mode := "replace"; confirm := true |} Examples.disk0))
  = <["/w/new.txt" := "x"]> (files Examples.disk0).
Proof.
  split.
  - apply (missing_file_refused_or_created Examples.env0
             {| inputPath := "/w/new.txt"; oldStr := Some "b"; newStr := "x";
                mode := "replace"; confirm := true |} Examples.disk0).
    + apply list_elem_of_here.
    + by intros [_ ?].
    + done.
    + by left.
  - apply (missing_file_refused_or_created Examples.env0
             {| inputPath := "/w/new.txt"; oldStr := None; newStr := "x";
                mode := "replace"; confirm := true |} Examples.disk0); try done.
    + apply list_elem_of_here.
    + by intros [_ ?].
Defined.

(** The approval prompt is shown only when [confirm] is the boolean
    [true], while [execute] takes any truthy [confirm] (a non-zero number,
    a non-empty string, an array, an object) as leave to write.  A request
    with such a value runs [execute] in write mode without a line being
    read from the operator. *)
Theorem truthy_confirm_skips_the_prompt agent toolUse st toolDef fields v :
  name toolUse = "edit_file" ->
  input toolUse = JObj fields ->
  field "confirm" fields = Some v ->
  truthy v = true -> v <> JBool true ->
  resolved agent toolUse = Some toolDef ->
  validateInput (input toolUse) (required toolDef) = None ->
  stdin (snd (executeTool agent toolUse st)) = stdin st /\
  executed (snd (executeTool agent toolUse st)) = (executed st ++ [toolUse])%list /\
  forall inp, decode (input toolUse) = Some inp -> confirm inp = true.
Proof.
  intros Hname Hinput Hconfirm Htruthy Hnot Hfind Hvalid.
  assert (Hneeds : needsApproval toolUse = false).
  { unfold needsApproval. rewrite Hname, Hinput, Hconfirm.
    destruct v as [|[]| | | |]; try done. }
  split; [|split].
  - unfold resolved in Hfind. unfold executeTool. rewrite Hfind, Hvalid, Hneeds.
    match goal with
    | |- context [invoke toolDef toolUse ?s] =>
        destruct (invoke toolDef toolUse s) as [result st'] eqn:Hinv;
        apply invoke_spec in Hinv as (_ & _ & _ & _ & Hin & _)
    end.
    cbn [snd]. rewrite Hin.
    by destruct (input toolUse) as [| | | | |[|]].
  - destruct (executeTool_invokes agent toolUse st toolDef Hfind Hvalid (or_introl Hneeds))
      as (st1 & Heq & _ & Hex & _).
    rewrite Heq.
    destruct (invoke toolDef toolUse st1) as [result st'] eqn:Hinv.
    apply invoke_spec in Hinv as (_ & Hex' & _). cbn [snd]. by rewrite Hex', Hex.
  - intros inp. rewrite Hinput. unfold decode.
    destruct (field "path" fields) as [[]|]; try done.
    destruct (field "new_str" fields) as [[]|]; try done.
    rewrite Hconfirm.
    destruct (match field "old_str" fields with
              | Some JNull | None => Some None
              | Some (JStr o) => Some (Some o)
              | Some _ => None
              end); [|done].
    destruct (match field "mode" fields with
              | Some _ => _
              | None => _
              end); [|done].
    by intros [= <-].
Qed.

Lemma truthy_confirm_skips_the_prompt_witness :
  stdin (snd (executeTool Examples.editAgent
                {| id := "toolu_2"; name := "edit_file";
                   input := JObj [("path", JStr "/w/f.txt"); ("old_str", JStr "b");
                                  ("new_str", JStr "B"); ("confirm", JNum 1)] |}
                (Examples.state0 ["no"]))) = ["no"] /\
  executed (snd (executeTool Examples.editAgent
                   {| id := "toolu_2"; name := "edit_file";
                      input := JObj [("path", JStr "/w/f.txt"); ("old_str", JStr "b");
                                     ("new_str", JStr "B"); ("confirm", JNum 1)] |}
                   (Examples.state0 ["no"])))
  = ([] ++ [ {| id := "toolu_2"; name := "edit_file";
                input := JObj [("path", JStr "/w/f.txt"); ("old_str", JStr "b");
                               ("new_str", JStr "B"); ("confirm", JNum 1)] |} ])%list /\
  forall inp,
    decode (JObj [("path", JStr "/w/f.txt"); ("old_str", JStr "b");
                  ("new_str", JStr "B"); ("confirm", JNum 1)]) = Some inp ->
    confirm inp = true.
Proof.
  apply (truthy_confirm_skips_the_prompt Examples.editAgent
           {| id := "toolu_2"; name := "edit_file";
              input := JObj [("path", JStr "/w/f.txt"); ("old_str", JStr "b");
                             ("new_str", JStr "B"); ("confirm", JNum 1)] |}
           (Examples.state0 ["no"]) (EditFileTool Examples.env0)
           [("path", JStr "/w/f.txt"); ("old_str", JStr "b");
            ("new_str", JStr "B"); ("confirm", JNum 1)] (JNum 1));
    try reflexivity; done.
Defined.

End EditExtras.

(** ** Further properties of the diff engine *)

Module DiffExtras.
Import JsString Constants Diff Notions MoreNotions DiffProps StringFacts.

Lemma splitGo_cons (sep cur s : string) (skip : nat) :
  exists first rest, splitGo sep skip cur s = first :: rest.
Proof.
  revert skip cur. induction s as [|c s IH]; intros skip cur; simpl; [eauto|].
  destruct skip; [|apply IH].
  destruct (startsWith sep (String c s)); [eauto|apply IH].
Qed.

Lemma join_cons (sep first : string) (parts : list string) :
  parts <> [] -> join sep (first :: parts) = first ++ sep ++ join sep parts.
Proof. by destruct parts. Qed.

(** Joining the lines of a text with line feeds gives the text back. *)
Lemma splitGo_nl_step (c : ascii) (cur s : string) :
  splitGo nl 0 cur (String c s)
  = if Ascii.eqb "010" c then cur :: splitGo nl 0 EmptyString s
    else splitGo nl 0 (cur ++ String c EmptyString) s.
Proof.
  unfold nl. cbn [splitGo startsWith String.length Nat.sub].
  by rewrite andb_true_r.
Qed.

Lemma join_splitGo_nl (cur s : string) :
  join nl (splitGo nl 0 cur s) = cur ++ s.
Proof.
  revert cur. induction s as [|c s IH]; intros cur.
  - simpl. by rewrite str_app_nil_r.
  - rewrite splitGo_nl_step.
    destruct (Ascii.eqb_spec "010" c) as [<-|Hc].
    + destruct (splitGo_cons nl EmptyString s 0) as (first & rest & Hsplit).
      rewrite join_cons by (by rewrite Hsplit). by rewrite IH.
    + rewrite IH. by rewrite str_app_assoc.
Qed.

Lemma join_split_nl (s : string) : join nl (split nl s) = s.
Proof. apply join_splitGo_nl. Qed.

Lemma split_nl_inj (a b : string) : split nl a = split nl b -> a = b.
Proof.
  intros H. rewrite <- (join_split_nl a), <- (join_split_nl b). by rewrite H.
Qed.

Lemma render_starts_with_escape oldLines newLines changes filePath contextLines :
  exists rest,
    render oldLines newLines changes filePath contextLines = String "027" rest.
Proof.
  unfold render. cbv zeta. cbn [app].
  rewrite (join_cons nl rule) by done.
  replace rule with (String "027" (dropChars 1 rule)) at 1 by (by vm_compute).
  rewrite str_app_cons. eauto.
Qed.

(** [generateDiff] answers [(no changes)] exactly when the two texts are
    the same. *)
Theorem generateDiff_no_changes_iff_equal (oldContent newContent filePath : string) :
  generateDiff oldContent newContent filePath = "(no changes)"
  <-> oldContent = newContent.
Proof.
  split.
  - unfold generateDiff, generateDiffWith.
    destruct (computeChanges _ _) as [[|c changes]|] eqn:Hchanges.
    + intros _. apply computeChanges_patch in Hchanges.
      unfold patch in Hchanges. simpl in Hchanges.
      injection Hchanges as Hlines. by apply split_nl_inj.
    + destruct (render_starts_with_escape (split nl oldContent) (split nl newContent)
                  (c :: changes) filePath 3) as [rest ->].
      done.
    + done.
  - intros <-. unfold generateDiff, generateDiffWith.
    by rewrite computeChanges_same.
Qed.

Section Changes.
Variables oldLines newLines : list string.

Lemma chainFrom_any_gap (gap i j : nat) (changes : list DiffChange) :
  chainFrom oldLines newLines gap i j changes ->
  chainFrom oldLines newLines 0 i j changes.
Proof.
  destruct changes as [|c rest]; [done|]. simpl.
  intros (run & _ & H). exists run. split; [lia|done].
Qed.

(** A line that is the same in both texts at the cursors lengthens the
    run before the next change. *)
Lemma chainFrom_same (i j : nat) (changes : list DiffChange) :
  sameLine oldLines newLines i j = true ->
  chainFrom oldLines newLines 0 (S i) (S j) changes ->
  chainFrom oldLines newLines 1 i j changes.
Proof.
  intros (x & Hx & Hy)%sameLine_lookup.
  destruct changes as [|c rest]; simpl.
  - intros Hrest.
    by rewrite (drop_S _ _ _ Hx), (drop_S _ _ _ Hy), Hrest.
  - intros (run & _ & Ho & Hn & Hsame & Hrest).
    exists (S run). split; [lia|]. split; [lia|]. split; [lia|]. split; [|done].
    rewrite (drop_S _ _ _ Hx), (drop_S _ _ _ Hy). simpl. by rewrite Hsame.
Qed.

Lemma diffLoop_chain (fuel i j : nat) (changes result : list DiffChange) :
  i <= length oldLines -> j <= length newLines ->
  diffLoop oldLines newLines fuel i j changes = Some result ->
  exists todo,
    result = (changes ++ todo)%list /\
    Forall (soundChange oldLines newLines) todo /\
    chainFrom oldLines newLines 0 i j todo /\
    (sameLine oldLines newLines i j = true ->
     chainFrom oldLines newLines 1 i j todo).
Proof.
  revert i j changes.
  induction fuel as [|fuel IH]; intros i j changes Hi Hj; [done|].
  simpl.
  destruct ((i <? length oldLines) || (j <? length newLines)) eqn:Hgo.
  - destruct (sameLine oldLines newLines i j) eqn:Hsame.
    + pose proof Hsame as Hs.
      apply sameLine_lookup in Hs as (x & Hx & Hy).
      pose proof (lookup_lt_Some _ _ _ Hx). pose proof (lookup_lt_Some _ _ _ Hy).
      intros Hres. apply IH in Hres as (todo & -> & Hsound & Hchain & _); [|lia..].
      exists todo. split; [done|]. split; [done|].
      assert (Hone : chainFrom oldLines newLines 1 i j todo)
        by (by apply chainFrom_same).
      split; [by apply (chainFrom_any_gap 1)|done].
    + destruct (findSync oldLines newLines i j) as [[oi ni]|] eqn:Hsync.
      * apply findSync_spec in Hsync as [Hpos Hs].
        pose proof Hs as Hs'.
        apply sameLine_lookup in Hs' as (x & Hx & Hy).
        pose proof (lookup_lt_Some _ _ _ Hx). pose proof (lookup_lt_Some _ _ _ Hy).
        intros Hres. apply IH in Hres as (todo & -> & Hsound & _ & Hchain); [|lia..].
        eexists (_ :: todo). split; [by rewrite <- app_assoc|].
        split; [|split; [|done]].
        -- constructor; [|done]. unfold soundChange, slice. simpl.
           replace (i + oi - i) with oi by lia.
           replace (j + ni - j) with ni by lia.
           repeat split; try lia. done.
        -- simpl. exists 0. rewrite !Nat.add_0_r.
           repeat split; try lia. by apply Hchain.
      * intros [= <-]. eexists [_]. split; [done|].
        apply orb_prop in Hgo.
        split; [|split; [|done]].
        -- constructor; [|done]. unfold soundChange. simpl.
           repeat split; try lia; try done.
           ++ destruct Hgo as [H%Nat.ltb_lt|H%Nat.ltb_lt]; lia.
           ++ symmetry. apply take_ge. rewrite length_drop. lia.
           ++ symmetry. apply take_ge. rewrite length_drop. lia.
        -- simpl. exists 0. rewrite !Nat.add_0_r.
           repeat split; try lia.
           by rewrite !drop_ge by lia.
  - intros [= <-]. exists []. rewrite app_nil_r.
    apply orb_false_elim in Hgo as [Ho%Nat.ltb_ge Hn%Nat.ltb_ge].
    split; [done|]. split; [constructor|].
    assert (Hend : drop i oldLines = drop j newLines)
      by (by rewrite !drop_ge by lia).
    split; [done|]. intros _. exact Hend.
Qed.

(** The change list of [generateDiff] accounts for every difference and
    for nothing else.  The chunks of a change are the old and the new
    lines of its spans; the changes come in the order of the lines; the
    lines before the first change, between two changes that follow each
    other (at least one line) and behind the last change are the same in
    both texts. *)
Theorem changes_are_sound_and_apart (changes : list DiffChange) :
  computeChanges oldLines newLines = Some changes ->
  Forall (soundChange oldLines newLines) changes /\
  chainFrom oldLines newLines 0 0 0 changes.
Proof.
  intros H. apply diffLoop_chain in H as (todo & -> & Hsound & Hchain & _); [|lia..].
  done.
Qed.

End Changes.

Lemma changes_are_sound_and_apart_witness :
  Forall (soundChange ["a"; "b"; "c"; "d"; "e"; "f"; "g"]
            ["a"; "B"; "c"; "d"; "e"; "F"; "g"])
    [ {| oldStart := 1; oldCount := 1; newStart := 1; newCount := 1;
         oldChunk := ["b"]; newChunk := ["B"] |};
      {| oldStart := 5; oldCount := 1; newStart := 5; newCount := 1;
         oldChunk := ["f"]; newChunk := ["F"] |} ] /\
  chainFrom ["a"; "b"; "c"; "d"; "e"; "f"; "g"]
    ["a"; "B"; "c"; "d"; "e"; "F"; "g"] 0 0 0
    [ {| oldStart := 1; oldCount := 1; newStart := 1; newCount := 1;
         oldChunk := ["b"]; newChunk := ["B"] |};
      {| oldStart := 5; oldCount := 1; newStart := 5; newCount := 1;
         oldChunk := ["f"]; newChunk := ["F"] |} ].
Proof.
  apply (changes_are_sound_and_apart
           ["a"; "b"; "c"; "d"; "e"; "f"; "g"]
           ["a"; "B"; "c"; "d"; "e"; "F"; "g"]).
  reflexivity.
Defined.

Lemma split_nl_length (cur s : string) :
  length (splitGo nl 0 cur s) = S (lineFeeds s).
Proof.
  revert cur. induction s as [|c s IH]; intros cur; [done|].
  rewrite splitGo_nl_step. cbn [lineFeeds].
  rewrite (Ascii.eqb_sym c). destruct (Ascii.eqb "010" c); simpl; by rewrite IH.
Qed.

Lemma lineFeeds_take (k : nat) (s : string) :
  lineFeeds (takeChars k s) <= lineFeeds s.
Proof.
  revert s. induction k as [|k IH]; intros [|c s]; simpl; try lia.
  specialize (IH s). lia.
Qed.

(** The range [getChangeSnippet] reports, when the changed text is found:
    it lies inside the file and holds the line on which the changed text
    starts. *)
Theorem snippet_range_holds_the_change (content changedStr : string)
    (contextLines changeStart : nat) :
  indexOf changedStr content = Some changeStart ->
  let sn := getChangeSnippetWith content changedStr contextLines in
  let line := length (split nl (takeChars changeStart content)) in
  1 <= start_line sn /\ start_line sn <= line /\
  line <= end_line sn /\ end_line sn <= length (split nl content).
Proof.
  intros Hk sn line. subst sn line. unfold getChangeSnippetWith. rewrite Hk.
  cbn [start_line end_line]. unfold split, nl.
  rewrite !split_nl_length.
  pose proof (lineFeeds_take changeStart content). lia.
Qed.

Lemma snippet_range_holds_the_change_witness :
  1 <= start_line (getChangeSnippetWith Examples.aBc "B" 0) /\
  start_line (getChangeSnippetWith Examples.aBc "B" 0)
  <= length (split nl (takeChars 2 Examples.aBc)) /\
  length (split nl (takeChars 2 Examples.aBc))
  <= end_line (getChangeSnippetWith Examples.aBc "B" 0) /\
  end_line (getChangeSnippetWith Examples.aBc "B" 0)
  <= length (split nl Examples.aBc).
Proof.
  apply (snippet_range_holds_the_change Examples.aBc "B" 0 2). reflexivity.
Defined.

Lemma stripAnsi_plain (s : string) :
  lacks "027" s = true -> stripAnsi false false s = s.
Proof.
  induction s as [|c s IH]; [done|]. cbn [lacks stripAnsi].
  intros [Hc Hs]%andb_prop. apply negb_true_iff in Hc. rewrite Hc. cbn [andb].
  by rewrite IH.
Qed.

Lemma stripAnsi_skip (body rest : string) :
  lacks "m" body = true ->
  stripAnsi true false (body ++ "m" ++ rest) = stripAnsi false false rest.
Proof.
  induction body as [|c body IH]; [done|]. cbn [lacks].
  intros [Hc Hb]%andb_prop. apply negb_true_iff in Hc.
  rewrite str_app_cons. cbn [stripAnsi]. rewrite Hc. by apply IH.
Qed.

(** [stripAnsiForAgentJson] returns a text without escape characters as
    it is, and drops an escape sequence (ESC, an opening bracket, anything
    up to the first [m]) from between plain text and the rest. *)
Theorem stripAnsi_drops_sequences (plain body rest : string) :
  lacks "027" plain = true -> lacks "m" body = true ->
  stripAnsiForAgentJson plain = plain /\
  stripAnsiForAgentJson (plain ++ esc ++ "[" ++ body ++ "m" ++ rest)
  = plain ++ stripAnsiForAgentJson rest.
Proof.
  intros Hplain Hbody. unfold stripAnsiForAgentJson.
  split; [by apply stripAnsi_plain|].
  induction plain as [|c plain IH].
  - simpl. change (esc ++ "[" ++ body ++ "m" ++ rest)
      with (String "027" (String "[" (body ++ "m" ++ rest))).
    simpl. by apply stripAnsi_skip.
  - simpl in Hplain. apply andb_prop in Hplain as [Hc Hp].
    apply negb_true_iff in Hc.
    rewrite (str_app_cons c plain (esc ++ "[" ++ body ++ "m" ++ rest)).
    rewrite (str_app_cons c plain (stripAnsi false false rest)).
    cbn [stripAnsi]. rewrite Hc. cbn [andb]. by rewrite (IH Hp).
Qed.

Lemma stripAnsi_drops_sequences_witness :
  stripAnsiForAgentJson "   2 " = "   2 " /\
  stripAnsiForAgentJson ("   2 " ++ esc ++ "[" ++ "31" ++ "m" ++ " - b")
  = "   2 " ++ stripAnsiForAgentJson " - b".
Proof.
  apply (stripAnsi_drops_sequences "   2 " "31" " - b"); reflexivity.
Defined.

End DiffExtras.

(** ** The line reader *)

Module InputHandlerProps.
Import InputHandler InputNotions.

Lemma increasingFrom_snoc lo l x :
  increasingFrom lo l -> Forall (fun i => i < x) l -> lo <= x ->
  increasingFrom lo (l ++ [x]).
Proof.
  revert lo. induction l as [|i l IH]; intros lo; simpl.
  - done.
  - intros [Hlo Hrest] Hall Hx.
    apply Forall_cons in Hall as [Hi Hall]. split; [done|].
    apply IH; [done|done|lia].
Qed.

Lemma Forall_below_weaken (l : list nat) (n m : nat) :
  n <= m -> Forall (fun i => i < n) l -> Forall (fun i => i < m) l.
Proof.
  intros Hnm Hall. eapply Forall_impl; [done|]. simpl. intros i Hi. lia.
Qed.

Lemma below_not_in (l : list nat) (n : nat) :
  Forall (fun i => i < n) l -> n ∉ l.
Proof.
  intros Hall Hin. rewrite Forall_forall in Hall.
  apply Hall in Hin. lia.
Qed.

Lemma open_initial : open initial.
Proof. repeat split; done. Qed.

Lemma open_step h e :
  open h -> e <> Close ->
  open (step h e) /\
  (handedOut (step h e) ++ lines (step h e)
   = handedOut h ++ lines h ++ linesOf [e])%list.
Proof.
  intros (Hsorted & Hbelow & Hstored) He.
  destruct e as [line| |]; [| done |].
  - unfold open, step, onLine, handedOut, ids in *.
    destruct (resolvePromise h) as [p|] eqn:Hp; simpl.
    + destruct (Hstored p eq_refl) as (Hlines & Hnext & Hnot).
      rewrite Hlines, !List.map_app, omap_app. simpl.
      split; [|by rewrite !app_nil_r].
      split; [|split; [|done]].
      * apply increasingFrom_snoc; [done| |lia].
        rewrite Forall_forall in Hbelow |- *.
        intros i Hi. specialize (Hbelow i Hi).
        assert (i <> p) by (by intros ->). lia.
      * apply Forall_app. split; [done|]. constructor; [simpl; lia|done].
    + split; [done|]. by rewrite app_assoc.
  - unfold open, step, getUserMessage, handedOut, ids in *.
    destruct (lines h) as [|line rest] eqn:Hlines; simpl.
    + split; [|by rewrite !app_nil_r]. split; [done|]. split.
      * by apply (Forall_below_weaken _ (promises h)); [lia|].
      * intros p [= <-]. split; [done|]. split; [done|].
        by apply below_not_in.
    + destruct (resolvePromise h) as [p|] eqn:Hp.
      { by destruct (Hstored p eq_refl) as (? & _). }
      rewrite !List.map_app, omap_app. simpl.
      split; [|by rewrite app_nil_r, <- app_assoc].
      split; [|split; [|done]].
      * apply increasingFrom_snoc; [done|done|lia].
      * apply Forall_app. split.
        -- by apply (Forall_below_weaken _ (promises h)); [lia|].
        -- constructor; [simpl; lia|done].
Qed.

Lemma closed_call h :
  closed h ->
  closed (step h Call) /\
  (handedOut (step h Call) ++ lines (step h Call) = handedOut h ++ lines h)%list.
Proof.
  intros (Hsorted & Hbelow & Hstored).
  unfold step, getUserMessage, handedOut, closed, ids in *.
  destruct (lines h) as [|line rest] eqn:Hlines; simpl.
  - split; [|done]. split; [done|]. split; [|done].
    by apply (Forall_below_weaken _ (promises h)); [lia|].
  - destruct (resolvePromise h) as [p|] eqn:Hp.
    { by specialize (Hstored ltac:(done)). }
    rewrite !List.map_app, omap_app. simpl.
    split; [|by rewrite <- app_assoc].
    split; [|split; [|done]].
    + apply increasingFrom_snoc; [done|done|lia].
    + apply Forall_app. split.
      * by apply (Forall_below_weaken _ (promises h)); [lia|].
      * constructor; [simpl; lia|done].
Qed.

Lemma closed_calls events h :
  closed h -> forallb isCall events = true ->
  closed (run events h) /\
  (handedOut (run events h) ++ lines (run events h) = handedOut h ++ lines h)%list.
Proof.
  revert h. induction events as [|e events IH]; intros h Hclosed; simpl; [done|].
  intros [He Hrest]%andb_prop. destruct e; try done.
  destruct (closed_call h Hclosed) as (Hclosed' & Hsame).
  destruct (IH _ Hclosed' Hrest) as (Hfinal & Hsame').
  split; [done|]. by rewrite Hsame'.
Qed.

Lemma open_close h :
  open h ->
  closed (step h Close) /\
  (handedOut (step h Close) ++ lines (step h Close) = handedOut h ++ lines h)%list.
Proof.
  intros (Hsorted & Hbelow & Hstored).
  unfold step, onClose, handedOut, closed, ids in *.
  destruct (resolvePromise h) as [p|] eqn:Hp; simpl.
  - destruct (Hstored p eq_refl) as (Hlines & Hnext & Hnot).
    rewrite !List.map_app, omap_app. simpl. rewrite app_nil_r.
    split; [|done]. split; [|split; [|done]].
    + apply increasingFrom_snoc; [done| |lia].
      rewrite Forall_forall in Hbelow |- *.
      intros i Hi. specialize (Hbelow i Hi).
      assert (i <> p) by (by intros ->). lia.
    + apply Forall_app. split; [done|]. constructor; [simpl; lia|done].
  - rewrite Hp. split; [|done]. split; [done|]. split; [done|]. done.
Qed.

Lemma open_run events h :
  open h -> wellFormed events = true ->
  increasingFrom 0 (ids (run events h)) /\
  (handedOut (run events h) ++ lines (run events h)
   = handedOut h ++ lines h ++ linesOf events)%list.
Proof.
  revert h. induction events as [|e events IH]; intros h Hopen Hwf.
  - simpl. split; [apply Hopen|]. by rewrite app_nil_r.
  - assert (Hcase : e = Close \/ e <> Close) by (destruct e; auto).
    destruct Hcase as [->|He].
    + simpl in Hwf. destruct (open_close h Hopen) as (Hclosed & Hsame).
      destruct (closed_calls events _ Hclosed Hwf) as ((Hsorted & _) & Hsame').
      split; [done|]. unfold run in *. cbn [fold_left] in *. rewrite Hsame', Hsame.
      assert (Hnone : linesOf (Close :: events) = []).
      { unfold linesOf. simpl. clear -Hwf.
        induction events as [|e events IH]; [done|].
        simpl in Hwf. apply andb_prop in Hwf as [He Hrest].
        destruct e; try done. simpl. by apply IH. }
      by rewrite Hnone, app_nil_r.
    + destruct (open_step h e Hopen He) as (Hopen' & Hsame).
      assert (Hwf' : wellFormed events = true) by (by destruct e).
      destruct (IH _ Hopen' Hwf') as (Hsorted & Hsame').
      split; [done|]. unfold run in *. cbn [fold_left] in *. rewrite Hsame'.
      rewrite app_assoc, Hsame, <- !app_assoc. do 2 f_equal.
      unfold linesOf. by destruct e.
Qed.

(** No line is lost or overtaken: for a stream that closes at most once
    and then is silent, promises are settled in the order they were handed
    out, and the lines given to callers so far, followed by the lines
    still in the buffer, are the lines the stream has sent, in order. *)
Theorem lines_are_handed_out_in_order events :
  wellFormed events = true ->
  increasingFrom 0 (List.map fst (settlements (run events initial))) /\
  (handedOut (run events initial) ++ lines (run events initial))%list
  = linesOf events.
Proof.
  intros Hwf. apply (open_run events initial open_initial Hwf).
Qed.

Lemma lines_are_handed_out_in_order_witness :
  increasingFrom 0
    (List.map fst (settlements (run [Line "a"; Call; Call; Line "b"; Line "c"; Close; Call]
                                  initial))) /\
  (handedOut (run [Line "a"; Call; Call; Line "b"; Line "c"; Close; Call] initial)
   ++ lines (run [Line "a"; Call; Call; Line "b"; Line "c"; Close; Call] initial))%list
  = linesOf [Line "a"; Call; Call; Line "b"; Line "c"; Close; Call].
Proof.
  apply (lines_are_handed_out_in_order
           [Line "a"; Call; Call; Line "b"; Line "c"; Close; Call]).
  reflexivity.
Defined.

Lemma fresh_step h e : fresh h -> fresh (step h e).
Proof.
  intros (Hbelow & Hstored). unfold fresh, ids in *.
  destruct e as [line| |]; unfold step, onLine, onClose, getUserMessage.
  - destruct (resolvePromise h) as [p|] eqn:Hp; simpl; [|done].
    split; [|done]. rewrite List.map_app. apply Forall_app. split; [done|].
    constructor; [simpl; by apply Hstored|done].
  - destruct (resolvePromise h) as [p|] eqn:Hp; simpl; [|by rewrite Hp].
    split; [|done]. rewrite List.map_app. apply Forall_app. split; [done|].
    constructor; [simpl; by apply Hstored|done].
  - destruct (lines h) as [|line rest]; simpl.
    + split; [by apply (Forall_below_weaken _ (promises h)); [lia|]|].
      intros p [= <-]. lia.
    + split.
      * rewrite List.map_app. apply Forall_app. split.
        -- by apply (Forall_below_weaken _ (promises h)); [lia|].
        -- constructor; [simpl; lia|done].
      * intros p Hp. specialize (Hstored p Hp). lia.
Qed.

Lemma fresh_run events h : fresh h -> fresh (run events h).
Proof.
  revert h. induction events as [|e events IH]; intros h Hfresh; [done|].
  simpl. apply IH. by apply fresh_step.
Qed.

Lemma fresh_initial : fresh initial.
Proof. split; [constructor|done]. Qed.

Lemma valueOf_pending p h : p ∉ ids h -> valueOf p h = None.
Proof.
  unfold valueOf, ids. induction (settlements h) as [|[q v] l IH]; [done|].
  simpl. intros Hnot. apply not_elem_of_cons in Hnot as [Hne Hrest].
  destruct (Nat.eqb_spec q p) as [->|]; [done|]. by apply IH.
Qed.

(** A promise that is neither settled nor the one whose resolver is stored
    stays unsettled, whatever happens next. *)
Lemma abandoned_step p h e :
  fresh h -> p < promises h -> resolvePromise h <> Some p -> p ∉ ids h ->
  p < promises (step h e) /\ resolvePromise (step h e) <> Some p /\
  p ∉ ids (step h e).
Proof.
  intros Hfresh Hlt Hstored Hnot. unfold ids in *.
  destruct e as [line| |]; unfold step, onLine, onClose, getUserMessage.
  - destruct (resolvePromise h) as [q|] eqn:Hq; simpl; [|done].
    split; [done|]. split; [done|].
    rewrite List.map_app. apply not_elem_of_app. split; [done|].
    apply not_elem_of_cons. split; [simpl; congruence|apply not_elem_of_nil].
  - destruct (resolvePromise h) as [q|] eqn:Hq; simpl; [|by rewrite Hq].
    split; [done|]. split; [done|].
    rewrite List.map_app. apply not_elem_of_app. split; [done|].
    apply not_elem_of_cons. split; [simpl; congruence|apply not_elem_of_nil].
  - destruct (lines h) as [|line rest]; simpl.
    + split; [lia|]. split; [|done]. intros [= H]. lia.
    + split; [lia|]. split; [done|].
      rewrite List.map_app. apply not_elem_of_app. split; [done|].
      apply not_elem_of_cons. split; [simpl; lia|apply not_elem_of_nil].
Qed.

Lemma abandoned_run p events h :
  fresh h -> p < promises h -> resolvePromise h <> Some p -> p ∉ ids h ->
  p ∉ ids (run events h).
Proof.
  revert h. induction events as [|e events IH]; intros h Hfresh Hlt Hstored Hnot;
    [done|].
  simpl. destruct (abandoned_step p h e Hfresh Hlt Hstored Hnot) as (? & ? & ?).
  apply IH; try done. by apply fresh_step.
Qed.

(** Only one resolver is stored.  When the function is called while the
    promise of the call before is still pending, that earlier promise is
    never settled: not by later lines, not by the close of the stream. *)
Theorem second_call_abandons_the_first before after :
  lines (run before initial) = [] ->
  let first := fst (getUserMessage (run before initial)) in
  valueOf first (run (before ++ Call :: Call :: after) initial) = None.
Proof.
  intros Hlines first. subst first.
  pose proof (fresh_run before initial fresh_initial) as Hfresh.
  unfold run in *. rewrite fold_left_app. cbn [fold_left].
  set (h := fold_left step before initial) in *.
  apply valueOf_pending. fold (run after (step (step h Call) Call)).
  assert (Hfirst : step h Call
                   = {| lines := []; resolvePromise := Some (promises h);
                        promises := S (promises h); settlements := settlements h |}).
  { unfold step, getUserMessage. by rewrite Hlines. }
  assert (Hsecond : step (step h Call) Call
                    = {| lines := []; resolvePromise := Some (S (promises h));
                         promises := S (S (promises h));
                         settlements := settlements h |}).
  { rewrite Hfirst. reflexivity. }
  replace (fst (getUserMessage h)) with (promises h)
    by (unfold getUserMessage; by destruct (lines h)).
  apply abandoned_run.
  - apply fresh_step, fresh_step, Hfresh.
  - rewrite Hsecond. simpl. lia.
  - rewrite Hsecond. simpl. intros [= H]. lia.
  - rewrite Hsecond. unfold ids. simpl. apply below_not_in, Hfresh.
Qed.

Lemma second_call_abandons_the_first_witness :
  valueOf (fst (getUserMessage (run [Line "a"; Call] initial)))
    (run ([Line "a"; Call] ++ Call :: Call :: [Line "yes"; Line "no"; Close]) initial)
  = None.
Proof.
  apply (second_call_abandons_the_first [Line "a"; Call] [Line "yes"; Line "no"; Close]).
  reflexivity.
Defined.

Lemma find_app_found {A} (f : A -> bool) (l more : list A) (x : A) :
  List.find f l = Some x -> List.find f (l ++ more) = Some x.
Proof.
  induction l as [|y l IH]; [done|]. simpl. by destruct (f y).
Qed.

Lemma find_app_missing {A} (f : A -> bool) (l more : list A) :
  List.find f l = None -> List.find f (l ++ more) = List.find f more.
Proof.
  induction l as [|y l IH]; [done|]. simpl. by destruct (f y).
Qed.

Lemma valueOf_first p v h events :
  List.find (fun e => fst e =? p) (settlements h) = Some (p, v) ->
  (forall h' e, settlements h' `prefix_of` settlements (step h' e)) ->
  valueOf p (run events h) = Some v.
Proof.
  intros Hfound Hgrow.
  assert (Hprefix : settlements h `prefix_of` settlements (run events h)).
  { revert h Hfound. induction events as [|e events IH]; intros h Hfound; [done|].
    simpl. etrans; [apply Hgrow|].
    apply IH. destruct (Hgrow h e) as [more ->].
    by apply find_app_found. }
  unfold valueOf. destruct Hprefix as [more ->].
  by rewrite (find_app_found _ _ _ _ Hfound).
Qed.

Lemma settlements_grow h e : settlements h `prefix_of` settlements (step h e).
Proof.
  destruct e as [line| |]; unfold step, onLine, onClose, getUserMessage.
  - destruct (resolvePromise h); simpl; [by apply prefix_app_r|done].
  - destruct (resolvePromise h); simpl; [by apply prefix_app_r|done].
  - destruct (lines h); simpl; [done|by apply prefix_app_r].
Qed.

Lemma calls_settle_nothing events h :
  lines h = [] -> forallb isCall events = true ->
  settlements (run events h) = settlements h.
Proof.
  revert h. induction events as [|e events IH]; intros h Hlines; [done|].
  simpl. intros [He Hrest]%andb_prop. destruct e; try done.
  rewrite IH; try done; unfold step, getUserMessage; by rewrite Hlines.
Qed.

(** The end of input reaches the caller only when it is waiting.  With
    the buffer empty: a call made before the stream closes is settled with
    [null] when it closes; a call made after it has closed is not settled,
    however many calls follow. *)
Theorem close_is_seen_only_by_a_waiting_call before after calls :
  lines (run before initial) = [] ->
  forallb isCall calls = true ->
  let h := run before initial in
  valueOf (promises h) (run (Call :: Close :: after) h) = Some None /\
  valueOf (promises h) (run (Close :: Call :: calls) h) = None.
Proof.
  intros Hlines Hcalls h.
  pose proof (fresh_run before initial fresh_initial) as Hfresh. fold h in Hfresh, Hlines.
  split.
  - cbn [run fold_left].
    apply (valueOf_first _ _ (step (step h Call) Close)); [|apply settlements_grow].
    unfold step, getUserMessage, onClose. rewrite Hlines. simpl.
    rewrite find_app_missing.
    + simpl. by rewrite Nat.eqb_refl.
    + pose proof (valueOf_pending (promises h) h) as Hpending.
      unfold valueOf in Hpending.
      destruct (List.find _ (settlements h)); [|done].
      exfalso. discriminate Hpending. apply below_not_in, Hfresh.
  - cbn [run fold_left]. apply valueOf_pending.
    fold (run calls (step (step h Close) Call)).
    assert (Hclose : lines (step h Close) = []
                     /\ promises (step h Close) = promises h
                     /\ ids (step h Close) = ids h
                        ∨ lines (step h Close) = []
                          /\ promises (step h Close) = promises h
                          /\ exists p, resolvePromise h = Some p
                                       /\ ids (step h Close) = (ids h ++ [p])%list).
    { unfold step, onClose, ids. destruct (resolvePromise h) as [p|]; simpl.
      - right. split; [done|]. split; [done|]. exists p. by rewrite List.map_app.
      - by left. }
    unfold ids in *. rewrite calls_settle_nothing; [| |done].
    2:{ unfold step at 1, getUserMessage.
        by destruct Hclose as [(-> & _)|(-> & _)]. }
    replace (settlements (step (step h Close) Call)) with (settlements (step h Close)).
    2:{ unfold step at 2, getUserMessage.
        by destruct Hclose as [(-> & _)|(-> & _)]. }
    destruct Hfresh as (Hbelow & Hstored).
    destruct Hclose as [(_ & _ & ->)|(_ & _ & p & Hp & ->)].
    + by apply below_not_in.
    + apply not_elem_of_app. split; [by apply below_not_in|].
      apply not_elem_of_cons. split; [|apply not_elem_of_nil].
      specialize (Hstored p Hp). lia.
Qed.

Lemma close_is_seen_only_by_a_waiting_call_witness :
  valueOf (promises (run [Line "hi"; Call] initial))
    (run (Call :: Close :: [Call]) (run [Line "hi"; Call] initial)) = Some None /\
  valueOf (promises (run [Line "hi"; Call] initial))
    (run (Close :: Call :: [Call; Call]) (run [Line "hi"; Call] initial)) = None.
Proof.
  apply (close_is_seen_only_by_a_waiting_call [Line "hi"; Call] [Call] [Call; Call]);
    reflexivity.
Defined.

End InputHandlerProps.

(** ** The read_file tool *)

Module ReadProps.
Import JsString Json Sys Tool Diff ReadFile ReadNotions InputNotions.
Import StringFacts DiffExtras.

Lemma nullByteFrom_spec (checkLength : N) (bytes : string) (i : N) :
  nullByteFrom checkLength i bytes = true <->
  exists k, nullAt bytes k /\ (i + N.of_nat k < checkLength)%N.
Proof.
  revert i. induction bytes as [|c bytes IH]; intros i; simpl.
  - split; [done|]. by intros (k & Hk & _).
  - destruct (N.ltb_spec i checkLength) as [Hlt|Hge].
    + destruct (Ascii.eqb_spec c "000") as [->|Hc].
      * split; [|done]. intros _. exists 0. split; [done|]. lia.
      * rewrite IH. split.
        -- intros (k & Hk & Hlt'). exists (S k). split; [done|]. lia.
        -- intros ([|k] & Hk & Hlt').
           ++ unfold nullAt in Hk. simpl in Hk. congruence.
           ++ exists k. split; [done|]. lia.
    + split; [done|]. intros (k & _ & Hlt). lia.
Qed.

(** [isBinaryBuffer] answers true exactly when one of the first 8192
    bytes is zero; a zero byte further on is not seen. *)
Theorem isBinaryBuffer_iff_early_null (buffer : string) :
  isBinaryBuffer buffer = true <->
  exists k, nullAt buffer k /\ (N.of_nat k < BINARY_CHECK_BUFFER_SIZE)%N.
Proof.
  unfold isBinaryBuffer. rewrite nullByteFrom_spec.
  split.
  - intros (k & Hk & Hlt). exists k. split; [done|]. lia.
  - intros (k & Hk & Hlt). exists k. split; [done|].
    assert (k < String.length buffer).
    { clear Hlt. unfold nullAt in Hk. revert k Hk.
      induction buffer as [|c buffer IH]; intros [|k]; simpl; try done; try lia.
      intros Hk. apply IH in Hk. lia. }
    lia.
Qed.

Lemma sliceZ_window {A} (l : list A) (a n : Z) :
  (0 <= a)%Z -> (0 <= n)%Z ->
  sliceZ l a (a + n) = take (Z.to_nat n) (drop (Z.to_nat a) l).
Proof.
  intros Ha Hn. unfold sliceZ.
  replace (a <? 0)%Z with false by (symmetry; apply Z.ltb_ge; lia).
  replace (a + n <? 0)%Z with false by (symmetry; apply Z.ltb_ge; lia).
  destruct (Z.le_gt_cases a (Z.of_nat (length l))) as [Hin|Hout].
  - rewrite (Z.min_l a) by lia.
    destruct (Z.le_gt_cases (a + n) (Z.of_nat (length l))) as [Hin'|Hout'].
    + rewrite Z.min_l by lia. f_equal. lia.
    + rewrite Z.min_r by lia.
      rewrite !take_ge; [done|rewrite length_drop; lia..].
  - rewrite !Z.min_r by lia. rewrite Nat2Z.id.
    rewrite !drop_ge by lia. by rewrite !take_nil.
Qed.

(** The window of the normal mode: [max_lines] lines from line [offset]
    on, and [truncated] says exactly whether lines after the window were
    left out. *)
Theorem read_window (inp : Input) (allLines : list string) :
  (1 <= offset inp)%Z -> (0 <= maxLines inp)%Z ->
  slicedLines inp allLines
  = take (Z.to_nat (maxLines inp)) (drop (Z.to_nat (offset inp - 1)) allLines) /\
  (truncated inp allLines = true <->
   drop (Z.to_nat (offset inp - 1 + maxLines inp)) allLines <> []).
Proof.
  intros Hoff Hmax. split.
  - unfold slicedLines. apply sliceZ_window; lia.
  - unfold truncated. rewrite Z.ltb_lt. split.
    + intros Hlt Hnil. apply (f_equal length) in Hnil.
      rewrite length_drop in Hnil. simpl in Hnil. lia.
    + intros Hne. destruct (Z.lt_ge_cases (offset inp - 1 + maxLines inp)
                              (Z.of_nat (length allLines))) as [|Hge]; [done|].
      exfalso. apply Hne. apply drop_ge. lia.
Qed.

Lemma read_window_witness :
  slicedLines {| inputPath := "f"; maxLines := 2; offset := 2; showLineNumbers := false;
                 searchQuery := None; contextLines := 3 |} ["a"; "b"; "c"; "d"]
  = take (Z.to_nat 2) (drop (Z.to_nat (2 - 1)) ["a"; "b"; "c"; "d"]) /\
  (truncated {| inputPath := "f"; maxLines := 2; offset := 2; showLineNumbers := false;
                searchQuery := None; contextLines := 3 |} ["a"; "b"; "c"; "d"] = true <->
   drop (Z.to_nat (2 - 1 + 2)) ["a"; "b"; "c"; "d"] <> []).
Proof.
  apply (read_window {| inputPath := "f"; maxLines := 2; offset := 2;
                        showLineNumbers := false; searchQuery := None;
                        contextLines := 3 |} ["a"; "b"; "c"; "d"]); simpl; lia.
Defined.



Section Ranges.
Variables (ctx total : Z).
Hypothesis ctx_nonneg : (0 <= ctx)%Z.

(** What the loop that builds [ranges] keeps true, [lo] being a bound
    below the indices still to come. *)
Let kept (lo : nat) (ranges : list Range) : Prop :=
  Forall (inside total) ranges /\ apart ranges /\
  forall r, last ranges = Some r ->
            (first r < Z.of_nat lo)%Z /\
            (last_ r <= Z.min (total - 1) (Z.of_nat lo + ctx))%Z.

Lemma apart_snoc (ranges : list Range) (n : Range) :
  apart ranges ->
  (forall r, last ranges = Some r -> (last_ r + 1 < first n)%Z) ->
  apart (ranges ++ [n]).
Proof.
  intros Hap Hlast i a b Ha Hb.
  destruct (decide (S i < length ranges)) as [Hlt|Hge].
  - rewrite lookup_app_l in Ha by lia. rewrite lookup_app_l in Hb by lia.
    by apply (Hap i).
  - destruct (decide (S i = length ranges)) as [Heq|Hne].
    + rewrite lookup_app_l in Ha by lia.
      rewrite lookup_app_r in Hb by lia.
      replace (S i - length ranges) with 0 in Hb by lia.
      simpl in Hb. injection Hb as <-.
      apply Hlast. rewrite last_lookup.
      replace (pred (length ranges)) with i by lia. done.
    + apply lookup_lt_Some in Hb. rewrite length_app in Hb. simpl in Hb. lia.
Qed.

Lemma apart_snoc_inv (init : list Range) (r : Range) :
  apart (init ++ [r]) ->
  apart init /\ forall r0, last init = Some r0 -> (last_ r0 + 1 < first r)%Z.
Proof.
  intros Hap. split.
  - intros i a b Ha Hb. apply (Hap i).
    + rewrite lookup_app_l; [done|]. by apply lookup_lt_Some in Ha.
    + rewrite lookup_app_l; [done|]. by apply lookup_lt_Some in Hb.
  - intros r0 Hr0. rewrite last_lookup in Hr0.
    assert (Hlen : 0 < length init).
    { apply lookup_lt_Some in Hr0. destruct init; simpl in *; lia. }
    apply (Hap (pred (length init))).
    + rewrite lookup_app_l; [done|]. lia.
    + rewrite lookup_app_r by lia.
      by replace (S (pred (length init)) - length init) with 0 by lia.
Qed.

Lemma addRange_first (idx : nat) :
  addRange ctx total [] idx
  = [ {| first := Z.max 0 (Z.of_nat idx - ctx);
         last_ := Z.min (total - 1) (Z.of_nat idx + ctx) |} ].
Proof. reflexivity. Qed.

Lemma addRange_snoc (init : list Range) (r : Range) (idx : nat) :
  addRange ctx total (init ++ [r]) idx
  = if (Z.max 0 (Z.of_nat idx - ctx) <=? last_ r + 1)%Z
    then (init ++ [ {| first := first r;
                       last_ := Z.min (total - 1) (Z.of_nat idx + ctx) |} ])%list
    else (init ++ [r; {| first := Z.max 0 (Z.of_nat idx - ctx);
                         last_ := Z.min (total - 1) (Z.of_nat idx + ctx) |} ])%list.
Proof.
  unfold addRange. rewrite last_snoc.
  destruct (Z.max 0 (Z.of_nat idx - ctx) <=? last_ r + 1)%Z.
  - rewrite length_app. simpl.
    replace (pred (length init + 1)) with (length init + 0) by lia.
    by rewrite insert_app_r.
  - by rewrite <- app_assoc.
Qed.

Lemma addRange_keeps (lo idx : nat) (ranges : list Range) :
  kept lo ranges -> lo <= idx -> (Z.of_nat idx < total)%Z ->
  kept (S idx) (addRange ctx total ranges idx) /\
  covered (addRange ctx total ranges idx) idx /\
  forall j, covered ranges j -> covered (addRange ctx total ranges idx) j.
Proof.
  intros (Hin & Hap & Hlast) Hlo Hidx.
  destruct (last ranges) as [r|] eqn:Hr.
  - apply last_Some in Hr as [init ->].
    destruct (Hlast r) as [Hfirst Hend]; [done|].
    apply Forall_app in Hin as [Hinit Hr]. apply Forall_inv in Hr.
    assert (Hr' := Hr). destruct Hr' as (Hr0 & Hr1 & Hr2).
    apply apart_snoc_inv in Hap as [Hap Hgap].
    rewrite addRange_snoc.
    destruct (Z.leb_spec (Z.max 0 (Z.of_nat idx - ctx)) (last_ r + 1)) as [Hmerge|Hnew].
    + split; [split; [|split]|split].
      * apply Forall_app. split; [done|]. constructor; [|constructor].
        unfold inside. simpl. lia.
      * apply apart_snoc; [done|]. simpl. done.
      * intros r'. rewrite last_snoc. intros [= <-]. simpl. lia.
      * eexists. split; [apply elem_of_app; right; apply list_elem_of_here|].
        simpl. lia.
      * intros j (r0 & Hr0in & Hcov).
        apply elem_of_app in Hr0in as [Hr0in|Hr0in].
        -- exists r0. split; [|done]. apply elem_of_app. by left.
        -- apply list_elem_of_singleton in Hr0in as ->.
           eexists. split; [apply elem_of_app; right; apply list_elem_of_here|].
           simpl. lia.
    + replace (init ++ [r; _])%list with
        ((init ++ [r]) ++ [ {| first := Z.max 0 (Z.of_nat idx - ctx);
                               last_ := Z.min (total - 1) (Z.of_nat idx + ctx) |} ])%list
        by (by rewrite <- app_assoc).
      split; [split; [|split]|split].
      * apply Forall_app. split.
        -- apply Forall_app. split; [done|]. by constructor.
        -- constructor; [|constructor]. unfold inside. simpl. lia.
      * apply apart_snoc.
        -- apply apart_snoc; done.
        -- intros r'. rewrite last_snoc. intros [= <-]. simpl. lia.
      * intros r'. rewrite last_snoc. intros [= <-]. simpl. lia.
      * eexists. split; [apply elem_of_app; right; apply list_elem_of_here|].
        simpl. lia.
      * intros j (r0 & Hr0in & Hcov). exists r0. split; [|done].
        apply elem_of_app. by left.
  - apply last_None in Hr as ->. rewrite addRange_first.
    split; [split; [|split]|split].
    + constructor; [|constructor]. unfold inside. simpl. lia.
    + intros i a b Ha Hb. destruct i; simpl in Hb; done.
    + intros r'. simpl. intros [= <-]. simpl. lia.
    + eexists. split; [apply list_elem_of_here|]. simpl. lia.
    + intros j (r0 & Hr0in & _). by apply elem_of_nil in Hr0in.
Qed.

Lemma fold_addRange_keeps (indices : list nat) (lo : nat) (ranges : list Range) :
  kept lo ranges -> increasingFrom lo indices ->
  Forall (fun i => (Z.of_nat i < total)%Z) indices ->
  (exists lo', kept lo' (fold_left (addRange ctx total) indices ranges)) /\
  Forall (covered (fold_left (addRange ctx total) indices ranges)) indices /\
  forall j, covered ranges j ->
            covered (fold_left (addRange ctx total) indices ranges) j.
Proof.
  revert lo ranges. induction indices as [|idx indices IH]; intros lo ranges.
  - intros Hkept _ _. simpl. split; [by exists lo|]. split; [constructor|done].
  - intros Hkept [Hlo Hrest] Hall. apply Forall_cons in Hall as [Hidx Hall].
    destruct (addRange_keeps lo idx ranges Hkept Hlo Hidx) as (Hkept' & Hcov & Hold).
    destruct (IH (S idx) _ Hkept' Hrest Hall) as (Hk & Hc & Ho).
    simpl. split; [done|]. split.
    + constructor; [by apply Ho|done].
    + intros j Hj. by apply Ho, Hold.
Qed.

Lemma buildRanges_keeps (indices : list nat) :
  increasingFrom 0 indices ->
  Forall (fun i => (Z.of_nat i < total)%Z) indices ->
  Forall (inside total) (buildRanges ctx total indices) /\
  apart (buildRanges ctx total indices) /\
  Forall (covered (buildRanges ctx total indices)) indices.
Proof.
  intros Hinc Hall.
  destruct (fold_addRange_keeps indices 0 [] ) as ((lo' & Hin & Hap & _) & Hcov & _);
    [|done|done|done].
  split; [constructor|]. split; [|done].
  intros i a b Ha. done.
Qed.

End Ranges.

Lemma filter_seq_increasing (P : nat -> bool) (n lo : nat) :
  increasingFrom lo (List.filter P (seq lo n)) /\
  Forall (fun i => i < lo + n) (List.filter P (seq lo n)).
Proof.
  revert lo. induction n as [|n IH]; intros lo; simpl.
  - split; [done|constructor].
  - destruct (IH (S lo)) as [Hinc Hall].
    assert (Hweak : increasingFrom lo (List.filter P (seq (S lo) n))).
    { destruct (List.filter P (seq (S lo) n)); simpl in *; [done|].
      split; [lia|tauto]. }
    destruct (P lo); simpl.
    + split; [split; [lia|done]|].
      constructor; [lia|]. eapply Forall_impl; [exact Hall|]. simpl. lia.
    + split; [done|]. eapply Forall_impl; [exact Hall|]. simpl. lia.
Qed.

(** The ranges of the search mode: with a context of zero lines or more,
    every range lies inside the text and is not empty, between two
    ranges that follow each other at least one line is left out, and
    every matching line is within a range. *)
Theorem search_ranges_cover_and_keep_apart (env : Env) (allLines : list string)
    (query : string) (context : Z) :
  (0 <= context)%Z ->
  let indices := matchingLineIndices env allLines query in
  let ranges := buildRanges context (Z.of_nat (length allLines)) indices in
  Forall (inside (Z.of_nat (length allLines))) ranges /\
  apart ranges /\
  Forall (covered ranges) indices.
Proof.
  intros Hctx indices ranges.
  destruct (filter_seq_increasing
              (fun i => match allLines !! i with
                        | Some line =>
                            bool_decide (is_Some (indexOf (lower env query)
                                                    (lower env line)))
                        | None => false
                        end) (length allLines) 0) as [Hinc Hall].
  apply buildRanges_keeps; [done|exact Hinc|].
  eapply Forall_impl; [exact Hall|]. simpl. lia.
Qed.

Lemma search_ranges_cover_and_keep_apart_witness :
  let env := {| resolvePath := fun p => p; elapsedMs := 3;
                detectLanguage := fun _ => None; lower := toLowerCase;
                offSchema := fun _ s => (NeverSettles, s) |} in
  let allLines := ["x"; "a"; "b"; "c"; "d"; "e"; "x"; "X"] in
  let indices := matchingLineIndices env allLines "x" in
  let ranges := buildRanges 1 (Z.of_nat (length allLines)) indices in
  Forall (inside (Z.of_nat (length allLines))) ranges /\
  apart ranges /\
  Forall (covered ranges) indices.
Proof.
  apply (search_ranges_cover_and_keep_apart
           {| resolvePath := fun p => p; elapsedMs := 3;
              detectLanguage := fun _ => None; lower := toLowerCase;
              offSchema := fun _ s => (NeverSettles, s) |}
           ["x"; "a"; "b"; "c"; "d"; "e"; "x"; "X"] "x" 1).
  lia.
Defined.

Lemma buildSections_budget (inp : Input) (allLines : list string)
    (ranges : list Range) (count : Z) :
  let k := length (fst (buildSections inp allLines count ranges)) in
  (0 < k -> (count + linesOfRanges allLines (take k ranges) <= maxLines inp)%Z) /\
  (k < length ranges ->
   (maxLines inp < count + linesOfRanges allLines (take (S k) ranges))%Z) /\
  fst (buildSections inp allLines count ranges)
  = List.map (fun r =>
                if showLineNumbers inp
                then formatLineNumbers (sliceZ allLines (first r) (last_ r + 1))
                       (Z.to_nat (first r + 1))
                else join nl (sliceZ allLines (first r) (last_ r + 1)))
             (take k ranges).
Proof.
  revert count. induction ranges as [|r ranges IH]; intros count; simpl.
  - split; [lia|]. split; [lia|done].
  - destruct (Z.ltb_spec (maxLines inp)
                (count + Z.of_nat (length (sliceZ allLines (first r) (last_ r + 1)))))
      as [Hover|Hfits]; simpl.
    + split; [lia|]. split; [|done]. intros _. lia.
    + specialize (IH (count + Z.of_nat (length (sliceZ allLines (first r) (last_ r + 1))))%Z).
      destruct (buildSections inp allLines _ ranges) as [sections count'] eqn:Hb.
      simpl in *. destruct IH as (Hfit & Hnext & Hmap).
      split; [|split].
      * intros _. destruct sections as [|s sections]; simpl in *; [lia|].
        specialize (Hfit ltac:(lia)). lia.
      * intros Hlt. specialize (Hnext ltac:(lia)). lia.
      * f_equal. exact Hmap.
Qed.

(** The sections of a search answer are those of the longest run of
    leading ranges whose lines together fit in [max_lines]: what is
    shown fits, the next range would not, and no range after it is
    shown even if it would fit. *)
Theorem search_sections_fit_max_lines (inp : Input) (allLines : list string)
    (ranges : list Range) :
  let sections := fst (buildSections inp allLines 0 ranges) in
  let k := length sections in
  k <= length ranges /\
  (0 < k -> (linesOfRanges allLines (take k ranges) <= maxLines inp)%Z) /\
  (k < length ranges ->
   (maxLines inp < linesOfRanges allLines (take (S k) ranges))%Z) /\
  sections
  = List.map (fun r =>
                if showLineNumbers inp
                then formatLineNumbers (sliceZ allLines (first r) (last_ r + 1))
                       (Z.to_nat (first r + 1))
                else join nl (sliceZ allLines (first r) (last_ r + 1)))
             (take k ranges).
Proof.
  intros sections k.
  destruct (buildSections_budget inp allLines ranges 0) as (Hfit & Hnext & Hmap).
  fold sections in Hfit, Hnext, Hmap. fold k in Hfit, Hnext, Hmap.
  split; [|split; [|split]].
  - destruct (le_lt_dec k (length ranges)) as [|Hgt]; [done|].
    apply (f_equal length) in Hmap. rewrite length_map, length_take in Hmap.
    fold k in Hmap. lia.
  - intros Hk. specialize (Hfit Hk). lia.
  - intros Hk. specialize (Hnext Hk). lia.
  - done.
Qed.

End ReadProps.

(** ** A batch with two approval prompts *)

Module BatchProps.
Import JsString Json Sys Tool Constants Agent Notions BatchNotions.
Import InputNotions InputHandlerProps.
Import Batch.

(** A callback started adds one entry; it leaves the reader alone or
    makes one call of the reader's function. *)
Lemma start_spec agent b toolUse :
  exists c,
    callbacks (start agent b toolUse) = (callbacks b ++ [c])%list /\
    (reader (start agent b toolUse) = reader b \/
     reader (start agent b toolUse) = InputHandler.step (reader b) InputHandler.Call).
Proof.
  unfold start.
  destruct (List.find _ (tools agent)) as [toolDef|]; [|eexists; split; [done|by left]].
  destruct (validateInput _ _); [eexists; split; [done|by left]|].
  destruct (needsApproval toolUse).
  - destruct (InputHandler.getUserMessage (reader b)) as [promise h] eqn:Hcall.
    eexists. split; [done|]. right. simpl. by rewrite Hcall.
  - destruct (invoke _ _ _) as [result st]. eexists. split; [done|by left].
Qed.

Lemma start_prompt agent b toolUse :
  reachesPrompt agent toolUse ->
  reader (start agent b toolUse) = InputHandler.step (reader b) InputHandler.Call /\
  suspendedOn (start agent b toolUse) (length (callbacks b))
    (InputHandler.promises (reader b)).
Proof.
  intros (toolDef & Hfind & Hvalid & Hneeds).
  unfold resolved in Hfind. unfold start, suspendedOn.
  rewrite Hfind, Hvalid, Hneeds.
  assert (Hp : fst (InputHandler.getUserMessage (reader b))
               = InputHandler.promises (reader b)).
  { unfold InputHandler.getUserMessage. by destruct (InputHandler.lines (reader b)). }
  destruct (InputHandler.getUserMessage (reader b)) as [promise h] eqn:Hcall.
  simpl in *. subst promise. rewrite Hcall. split; [done|].
  exists toolDef, toolUse. by rewrite list_lookup_middle.
Qed.

(** With nothing buffered, a call of the reader's function settles
    nothing and leaves the buffer empty. *)
Lemma call_on_empty h :
  InputHandler.lines h = [] ->
  InputHandler.lines (InputHandler.step h InputHandler.Call) = [] /\
  ids (InputHandler.step h InputHandler.Call) = ids h /\
  InputHandler.promises (InputHandler.step h InputHandler.Call)
  = S (InputHandler.promises h) /\
  InputHandler.resolvePromise (InputHandler.step h InputHandler.Call)
  = Some (InputHandler.promises h).
Proof.
  intros Hempty. unfold InputHandler.step, InputHandler.getUserMessage, ids.
  by rewrite Hempty.
Qed.

(** The reader while callbacks are started on an empty buffer. *)
Lemma idle_start agent b toolUse :
  fresh (reader b) -> InputHandler.lines (reader b) = [] ->
  fresh (reader (start agent b toolUse)) /\
  InputHandler.lines (reader (start agent b toolUse)) = [] /\
  ids (reader (start agent b toolUse)) = ids (reader b) /\
  InputHandler.promises (reader b)
  <= InputHandler.promises (reader (start agent b toolUse)).
Proof.
  intros Hfresh Hempty.
  destruct (start_spec agent b toolUse) as (c & _ & [->| ->]); [done|].
  destruct (call_on_empty _ Hempty) as (Hl & Hi & Hp & _).
  split; [by apply fresh_step|]. split; [done|]. split; [done|]. lia.
Qed.

Lemma idle_starts agent toolUseBlocks b :
  fresh (reader b) -> InputHandler.lines (reader b) = [] ->
  fresh (reader (fold_left (start agent) toolUseBlocks b)) /\
  InputHandler.lines (reader (fold_left (start agent) toolUseBlocks b)) = [] /\
  ids (reader (fold_left (start agent) toolUseBlocks b)) = ids (reader b) /\
  InputHandler.promises (reader b)
  <= InputHandler.promises (reader (fold_left (start agent) toolUseBlocks b)) /\
  length (callbacks (fold_left (start agent) toolUseBlocks b))
  = length (callbacks b) + length toolUseBlocks /\
  forall i c, callbacks b !! i = Some c ->
              callbacks (fold_left (start agent) toolUseBlocks b) !! i = Some c.
Proof.
  revert b. induction toolUseBlocks as [|toolUse rest IH]; intros b Hfresh Hempty.
  - cbn [fold_left length]. split; [done|]. split; [done|]. split; [done|].
    split; [lia|]. split; [lia|done].
  - cbn [fold_left].
    destruct (idle_start agent b toolUse Hfresh Hempty) as (Hf & Hl & Hi & Hp).
    destruct (start_spec agent b toolUse) as (c & Hcs & _).
    destruct (IH _ Hf Hl) as (Hf' & Hl' & Hi' & Hp' & Hlen & Hkeep).
    split; [done|]. split; [done|]. split; [congruence|]. split; [lia|].
    split.
    + rewrite Hlen, Hcs, length_app. simpl. lia.
    + intros i c' Hc'. apply Hkeep. rewrite Hcs.
      by apply lookup_app_l_Some.
Qed.

(** A callback suspended on an abandoned promise stays suspended. *)
Lemma stuck_start agent b toolUse i p :
  suspendedOn b i p -> abandoned p (reader b) ->
  suspendedOn (start agent b toolUse) i p /\
  abandoned p (reader (start agent b toolUse)).
Proof.
  intros (toolDef & u & Hc) Hab.
  destruct (start_spec agent b toolUse) as (c & Hcs & Hreader).
  split.
  - exists toolDef, u. rewrite Hcs. by apply lookup_app_l_Some.
  - destruct Hreader as [->| ->]; [done|].
    destruct Hab as (Hfresh & Hlt & Hstored & Hnot).
    destruct (abandoned_step p _ InputHandler.Call Hfresh Hlt Hstored Hnot)
      as (? & ? & ?).
    split; [by apply fresh_step|done].
Qed.

Lemma stuck_starts agent toolUseBlocks b i p :
  suspendedOn b i p -> abandoned p (reader b) ->
  suspendedOn (fold_left (start agent) toolUseBlocks b) i p /\
  abandoned p (reader (fold_left (start agent) toolUseBlocks b)).
Proof.
  revert b. induction toolUseBlocks as [|toolUse rest IH]; intros b Hs Hab; [done|].
  cbn [fold_left]. destruct (stuck_start agent b toolUse i p Hs Hab) as [Hs' Hab'].
  by apply IH.
Qed.

Lemma resumeAll_pending h cs st i p toolDef toolUse :
  cs !! i = Some (AwaitsApproval p toolDef toolUse) ->
  InputHandler.valueOf p h = None ->
  fst (resumeAll h cs st) !! i = Some (AwaitsApproval p toolDef toolUse).
Proof.
  revert st i. induction cs as [|c rest IH]; intros st i; [done|].
  simpl. destruct (resume h c st) as [c' st1] eqn:Hres.
  specialize (IH st1).
  destruct (resumeAll h rest st1) as [rest' st2]. simpl in *.
  destruct i as [|i]; simpl.
  - intros [= ->] Hpending. simpl in Hres. rewrite Hpending in Hres.
    by injection Hres as <- _.
  - intros Hi Hpending. by apply IH.
Qed.

Lemma stuck_settle b i p :
  suspendedOn b i p -> abandoned p (reader b) ->
  suspendedOn (settle b) i p /\ abandoned p (reader (settle b)).
Proof.
  intros (toolDef & u & Hc) Hab. unfold settle.
  pose proof (resumeAll_pending (reader b) (callbacks b) (machine b) i p toolDef u Hc)
    as Hkeep.
  destruct (resumeAll _ _ _) as [cs st]. simpl in *. split; [|done].
  exists toolDef, u. apply Hkeep. apply valueOf_pending. apply Hab.
Qed.

Lemma stuck_arrive b a i p :
  suspendedOn b i p -> abandoned p (reader b) ->
  suspendedOn (arrive b a) i p /\ abandoned p (reader (arrive b a)).
Proof.
  intros Hs (Hfresh & Hlt & Hstored & Hnot). unfold arrive.
  apply stuck_settle; [done|]. simpl.
  destruct a as [line|].
  - destruct (abandoned_step p _ (InputHandler.Line line) Hfresh Hlt Hstored Hnot)
      as (? & ? & ?).
    split; [by apply (fresh_step _ (InputHandler.Line line))|done].
  - destruct (abandoned_step p _ InputHandler.Close Hfresh Hlt Hstored Hnot)
      as (? & ? & ?).
    split; [by apply (fresh_step _ InputHandler.Close)|done].
Qed.

Lemma stuck_arrivals arrivals b i p :
  suspendedOn b i p -> abandoned p (reader b) ->
  suspendedOn (fold_left arrive arrivals b) i p.
Proof.
  revert b. induction arrivals as [|a rest IH]; intros b Hs Hab; [done|].
  cbn [fold_left]. destruct (stuck_arrive b a i p Hs Hab) as [Hs' Hab']. by apply IH.
Qed.

Lemma suspended_no_results b i p :
  suspendedOn b i p -> results b = None.
Proof.
  intros (toolDef & u & Hc). unfold results.
  revert i Hc. induction (callbacks b) as [|c rest IH]; intros i; [done|].
  destruct i as [|i]; simpl.
  - by intros [= ->].
  - intros Hi. destruct c; [|done]. simpl.
    by rewrite (IH i Hi).
Qed.

(** C6 fails in the code. A batch in which two requests come to the
    approval prompt, started while the reader has no line buffered, never
    returns: whatever is typed afterwards, and whether or not the input
    ends, [executeTools] gives no results at all.  The callback of the
    first of the two requests is suspended on a promise whose resolver
    the call of the second has replaced, so no line and no end of input
    reaches it. *)
Theorem C6_two_prompts_never_return agent before st pre first mid second post
    arrivals :
  InputHandler.lines (InputHandler.run before InputHandler.initial) = [] ->
  reachesPrompt agent first -> reachesPrompt agent second ->
  fst (executeTools agent (pre ++ first :: mid ++ second :: post)%list arrivals
         (InputHandler.run before InputHandler.initial) st) = None.
Proof.
  intros Hempty Hfirst Hsecond.
  set (h := InputHandler.run before InputHandler.initial) in *.
  set (batch := (pre ++ first :: mid ++ second :: post)%list).
  set (b0 := {| reader := h; machine := markDispatched batch st; callbacks := [] |}).
  assert (Hfresh : fresh (reader b0)) by apply fresh_run, fresh_initial.
  destruct (idle_starts agent pre b0 Hfresh Hempty)
    as (Hf1 & Hl1 & _ & _ & Hlen1 & _).
  set (b1 := fold_left (start agent) pre b0) in *.
  destruct (start_prompt agent b1 first Hfirst) as (Hr2 & Hs2).
  set (p := InputHandler.promises (reader b1)) in *.
  set (i := length (callbacks b1)) in *.
  set (b2 := start agent b1 first) in *.
  destruct (call_on_empty _ Hl1) as (Hl2 & Hi2 & Hp2 & _).
  rewrite <- Hr2 in Hl2, Hi2, Hp2.
  assert (Hf2 : fresh (reader b2)) by (rewrite Hr2; by apply fresh_step).
  assert (Hnot2 : p ∉ ids (reader b2)).
  { rewrite Hi2. apply below_not_in. apply Hf1. }
  destruct (idle_starts agent mid b2 Hf2 Hl2)
    as (Hf3 & Hl3 & Hi3 & Hp3 & _ & Hkeep3).
  set (b3 := fold_left (start agent) mid b2) in *.
  destruct (start_prompt agent b3 second Hsecond) as (Hr4 & _).
  destruct (start_spec agent b3 second) as (c4 & Hcs4 & _).
  set (b4 := start agent b3 second) in *.
  destruct (call_on_empty _ Hl3) as (_ & Hi4 & Hp4 & Hres4).
  rewrite <- Hr4 in Hi4, Hp4, Hres4.
  assert (Hs4 : suspendedOn b4 i p).
  { destruct Hs2 as (toolDef & u & Hc). exists toolDef, u.
    rewrite Hcs4. apply lookup_app_l_Some. by apply Hkeep3. }
  assert (Hab4 : abandoned p (reader b4)).
  { split; [rewrite Hr4; by apply fresh_step|]. split; [lia|]. split.
    - rewrite Hres4. intros [= Heq]. lia.
    - by rewrite Hi4, Hi3. }
  destruct (stuck_starts agent post b4 i p Hs4 Hab4) as (Hs5 & Hab5).
  set (b5 := fold_left (start agent) post b4) in *.
  destruct (stuck_settle b5 i p Hs5 Hab5) as (Hs6 & Hab6).
  pose proof (stuck_arrivals arrivals _ i p Hs6 Hab6) as Hs7.
  apply suspended_no_results in Hs7.
  unfold executeTools. fold batch. fold b0.
  replace (fold_left (start agent) batch b0) with b5.
  - by rewrite Hs7.
  - unfold b5, b4, b3, b2, b1, batch.
    by rewrite fold_left_app; cbn [fold_left]; rewrite fold_left_app.
Qed.

Lemma C6_witness :
  fst (executeTools Examples.editAgent
         [Examples.editUse "b" true; Examples.editUse "c" true]
         [Typed "yes"; Typed "yes"; EndOfInput]
         (InputHandler.run [InputHandler.Call; InputHandler.Line "fix both"]
            InputHandler.initial)
         (Examples.state0 [])) = None.
Proof.
  apply (C6_two_prompts_never_return Examples.editAgent
           [InputHandler.Call; InputHandler.Line "fix both"] (Examples.state0 [])
           [] (Examples.editUse "b" true) [] (Examples.editUse "c" true) []
           [Typed "yes"; Typed "yes"; EndOfInput]).
  - reflexivity.
  - exists (EditFile.EditFileTool Examples.env0). by repeat split.
  - exists (EditFile.EditFileTool Examples.env0). by repeat split.
Defined.

Lemma start_without_prompt agent b toolUse :
  ~ reachesPrompt agent toolUse ->
  start agent b toolUse
  = {| reader := reader b;
       machine := snd (executeTool agent toolUse (machine b));
       callbacks :=
         (callbacks b ++ [Returned (fst (executeTool agent toolUse (machine b)))])%list |}.
Proof.
  intros Hnot. unfold start, executeTool.
  destruct (List.find _ (tools agent)) as [toolDef|] eqn:Hfind; [|done].
  destruct (validateInput _ _) eqn:Hvalid; [done|].
  destruct (needsApproval toolUse) eqn:Hneeds.
  - exfalso. apply Hnot. by exists toolDef.
  - by destruct (invoke _ _ _).
Qed.

Lemma starts_without_prompt agent toolUseBlocks b :
  Forall (fun toolUse => ~ reachesPrompt agent toolUse) toolUseBlocks ->
  fold_left (start agent) toolUseBlocks b
  = {| reader := reader b;
       machine := snd (executeAll agent toolUseBlocks (machine b));
       callbacks :=
         (callbacks b
          ++ List.map Returned (fst (executeAll agent toolUseBlocks (machine b))))%list |}.
Proof.
  intros Hall. revert b.
  induction Hall as [|toolUse rest Hnot _ IH]; intros b.
  - cbn [fold_left executeAll fst snd List.map]. rewrite app_nil_r. by destruct b.
  - cbn [fold_left executeAll]. rewrite IH, (start_without_prompt _ _ _ Hnot).
    cbn [reader machine callbacks].
    destruct (executeTool agent toolUse (machine b)) as [result st1].
    cbn [fst snd].
    destruct (executeAll agent rest st1) as [results st2].
    cbn [fst snd List.map]. by rewrite <- app_assoc.
Qed.

Lemma resumeAll_returned h (toolResults : list ToolResult) st :
  resumeAll h (List.map Returned toolResults) st
  = (List.map Returned toolResults, st).
Proof.
  induction toolResults as [|r rest IH]; [done|].
  cbn [List.map resumeAll resume]. by rewrite IH.
Qed.

Lemma arrivals_returned arrivals h (toolResults : list ToolResult) st :
  let b := fold_left arrive arrivals
             {| reader := h; machine := st;
                callbacks := List.map Returned toolResults |} in
  machine b = st /\ callbacks b = List.map Returned toolResults.
Proof.
  revert h. induction arrivals as [|a rest IH]; intros h; [done|].
  cbn [fold_left]. unfold arrive, settle. cbn [reader machine callbacks].
  rewrite resumeAll_returned. apply IH.
Qed.

Lemma results_returned b (toolResults : list ToolResult) :
  callbacks b = List.map Returned toolResults -> results b = Some toolResults.
Proof.
  unfold results. intros ->.
  induction toolResults as [|r rest IH]; [done|].
  cbn [List.map]. simpl. by rewrite IH.
Qed.

(** When no request of the batch comes to the approval prompt, the batch
    returns whatever the input stream does, with the results and the
    machine of [Agent.executeTools]. *)
Lemma no_prompt_agrees agent toolUseBlocks arrivals h st :
  Forall (fun toolUse => ~ reachesPrompt agent toolUse) toolUseBlocks ->
  fst (executeTools agent toolUseBlocks arrivals h st)
  = Some (fst (Agent.executeTools agent toolUseBlocks st)) /\
  machine (snd (executeTools agent toolUseBlocks arrivals h st))
  = snd (Agent.executeTools agent toolUseBlocks st).
Proof.
  intros Hall. unfold executeTools, Agent.executeTools.
  rewrite (starts_without_prompt _ _ _ Hall).
  cbn [reader machine callbacks app].
  destruct (executeAll agent toolUseBlocks (markDispatched toolUseBlocks st))
    as [toolResults st1].
  cbn [fst snd]. unfold settle. cbn [reader machine callbacks].
  rewrite resumeAll_returned.
  destruct (arrivals_returned arrivals h toolResults st1) as [Hm Hc].
  rewrite (results_returned _ _ Hc). cbn [fst snd machine]. by rewrite Hm.
Qed.

(** A batch with one prompt returns once the operator has answered, and
    a batch without a prompt returns at once. *)
Lemma one_prompt_returns :
  fst (executeTools Examples.editAgent [Examples.editUse "b" true] []
         InputHandler.initial (Examples.state0 [])) = None /\
  is_Some (fst (executeTools Examples.editAgent [Examples.editUse "b" true]
                  [Typed "yes"] InputHandler.initial (Examples.state0 []))) /\
  is_Some (fst (executeTools Examples.editAgent [Examples.editUse "b" false] []
                  InputHandler.initial (Examples.state0 []))).
Proof. split; [by vm_compute|]. split; vm_compute; eauto. Qed.

End BatchProps.
